(** * job_insight_104: crawl reconciliation, listing lifecycle, transport and
    field normalisation

    A shallow embedding of the crawler core of the repository
    ([apps/crawler/processor.py], [apps/crawler/crawler.py],
    [apps/crawler/storage.py], [apps/crawler/searcher.py],
    [src/database/mongodb_manager.py], [src/utils/http_adapter.py],
    [src/utils/text_processing.py]) together with the properties the
    specification states about it.

    Conventions.
    - A Python [str] is a Rocq [string]: the bytes of its UTF-8 encoding.
      Equality, emptiness and concatenation of Python strings are those of
      the byte strings.  Where the code looks at single characters (the
      regular expressions of [split_city_district]) the bytes are grouped
      into characters by [chars].
    - A listing is a Python [dict] with string keys: [gmap string value].
    - A Python [dict] whose iteration order matters ([job_by_id_map],
      [_jobs_cache]) is an insertion-ordered association list, [pydict].
    - Code that can raise returns in the [res] monad.
    - The clock ([datetime.now()]) is a parameter [today] (and [now]). *)

From Stdlib Require Import ZArith QArith List Bool Ascii String.
From stdpp Require Import gmap strings list fin_maps pretty.

#[local] Open Scope string_scope.
#[local] Open Scope list_scope.
#[local] Open Scope Z_scope.

(* ===================================================================== *)
(** * Python values, exceptions, dictionaries                             *)
(* ===================================================================== *)

(** The JSON-shaped values a listing carries: [None], integers, strings,
    lists and dictionaries.  (Booleans and floats, which the modelled code
    never inspects, are left out.) *)
#[warnings="-register-all"]
Inductive value : Type :=
| VNone
| VInt (n : Z)
| VStr (s : string)
| VList (l : list value)
| VDict (d : list (string * value)).

Abbreviation Job := (gmap string value).

(** [bool(v)] *)
Definition truthy (v : value) : bool :=
  match v with
  | VNone => false
  | VInt n => negb (Z.eqb n 0)
  | VStr s => negb (String.eqb s "")
  | VList l => negb (bool_decide (l = []))
  | VDict d => negb (bool_decide (d = []))
  end.

(** [isinstance(v, str)] and [isinstance(v, dict)] *)
Definition is_str (v : value) : bool :=
  match v with VStr _ => true | _ => false end.

Definition is_dict (v : value) : bool :=
  match v with VDict _ => true | _ => false end.

(** [hash(v)] succeeds: lists and dicts are unhashable. *)
Definition hashable (v : value) : bool :=
  match v with VList _ | VDict _ => false | _ => true end.

(** [d.get(k)] on the item list of a dict value. *)
Fixpoint assoc_get (k : string) (d : list (string * value)) : option value :=
  match d with
  | [] => None
  | (k', v) :: d => if String.eqb k' k then Some v else assoc_get k d
  end.

(** [a == b].  Lists compare element-wise, dicts by their items whatever
    the order. *)
Fixpoint py_eq (a b : value) : bool :=
  match a, b with
  | VNone, VNone => true
  | VInt m, VInt n => Z.eqb m n
  | VStr s, VStr t => String.eqb s t
  | VList l, VList l' =>
      (fix go (l l' : list value) : bool :=
         match l, l' with
         | [], [] => true
         | x :: l, y :: l' => py_eq x y && go l l'
         | _, _ => false
         end) l l'
  | VDict d, VDict d' =>
      Nat.eqb (length d) (length d') &&
      forallb (fun kv =>
                 match kv with
                 | (k, v) =>
                     match assoc_get k d' with
                     | Some v' => py_eq v v'
                     | None => false
                     end
                 end) d
  | _, _ => false
  end.

Inductive exn : Type :=
| KeyError
| TypeError
| AttributeError
| ValueError
| WriteError.

(** The outcome of a call: a value, or a raised exception. *)
Inductive res (A : Type) : Type :=
| Ok (a : A)
| Raise (e : exn).
Arguments Ok {A} a.
Arguments Raise {A} e.

#[global] Instance res_ret : MRet res := fun A a => Ok a.
#[global] Instance res_bind : MBind res :=
  fun A B f m => match m with Ok a => f a | Raise e => Raise e end.

(** [for x in l: s = f(s, x)], stopping at the first exception. *)
Fixpoint for_each {S A : Type} (f : S -> A -> res S) (s : S) (l : list A)
  : res S :=
  match l with
  | [] => Ok s
  | x :: l => s' ← f s x; for_each f s' l
  end.

(** [for x in l: x = f(x)] (an update in place, or a list being built),
    stopping at the first exception. *)
Fixpoint map_each {A B : Type} (f : A -> res B) (l : list A) : res (list B) :=
  match l with
  | [] => Ok []
  | x :: l => y ← f x; ys ← map_each f l; Ok (y :: ys)
  end.

(** [x in c] *)
Definition py_in (x c : value) : res bool :=
  match c with
  | VList l => Ok (existsb (py_eq x) l)
  | VDict d =>
      if hashable x
      then Ok (match x with
               | VStr k => bool_decide (is_Some (assoc_get k d))
               | _ => false
               end)
      else Raise TypeError
  | VStr s =>
      match x with
      | VStr t => Ok (bool_decide (is_Some (String.index 0 t s)))
      | _ => Raise TypeError
      end
  | VNone | VInt _ => Raise TypeError
  end.

(** [c.append(x)]: only lists have the method. *)
Definition py_append (c x : value) : res value :=
  match c with
  | VList l => Ok (VList (l ++ [x]))
  | _ => Raise AttributeError
  end.

(** A Python dict keyed by hashable values, in insertion order. *)
Definition pydict (V : Type) : Type := list (value * V).

(** [d.get(k)] *)
Fixpoint dict_get {V : Type} (k : value) (d : pydict V) : option V :=
  match d with
  | [] => None
  | (k', v) :: d => if py_eq k' k then Some v else dict_get k d
  end.

(** [d[k] = v]: an existing key keeps its place, a new one goes last. *)
Fixpoint dict_set {V : Type} (k : value) (v : V) (d : pydict V) : pydict V :=
  match d with
  | [] => [(k, v)]
  | (k', v') :: d =>
      if py_eq k' k then (k', v) :: d else (k', v') :: dict_set k v d
  end.

(** [list(d.values())] *)
Definition dict_values {V : Type} (d : pydict V) : list V := map snd d.

Definition dict_keys {V : Type} (d : pydict V) : list value := map fst d.

(* ===================================================================== *)
(** * apps/crawler/constants.py                                           *)
(* ===================================================================== *)

Definition JOB_STATUS_ACTIVE : string := "active".
Definition JOB_STATUS_INACTIVE : string := "inactive".
Definition MAX_RETRIES : nat := 3.
Definition MAX_CONCURRENCY : nat := 10.

(* ===================================================================== *)
(** * src/utils/text_processing.py                                        *)
(* ===================================================================== *)

(** A continuation byte of UTF-8, [10xxxxxx]. *)
Definition is_continuation (a : ascii) : bool :=
  (128 <=? nat_of_ascii a)%nat && (nat_of_ascii a <? 192)%nat.

Definition starts_with_continuation (c : string) : bool :=
  match c with
  | String a _ => is_continuation a
  | EmptyString => false
  end.

(** The characters of a Python string: every byte that is not a
    continuation byte starts a new character. *)
Fixpoint chars (s : string) : list string :=
  match s with
  | EmptyString => []
  | String a s' =>
      match chars s' with
      | c :: cs =>
          if starts_with_continuation c
          then String a c :: cs
          else String a EmptyString :: c :: cs
      | [] => [String a EmptyString]
      end
  end.

(** [''.join(cs)] *)
Definition join (cs : list string) : string :=
  fold_right String.append EmptyString cs.

Definition newline : string := String (ascii_of_nat 10) EmptyString.

(** Membership of a character in a character class [[...]]. *)
Definition char_in (cls : list string) (c : string) : bool :=
  existsb (String.eqb c) cls.

(** The two classes of the patterns: [[市縣]] and [[區鄉鎮市]]. *)
Definition city_suffix : list string := ["市"; "縣"].
Definition district_suffix : list string := ["區"; "鄉"; "鎮"; "市"].

(** [.] matches any character except a newline. *)
Definition dot (c : string) : bool := negb (String.eqb c newline).

(** [$] (without MULTILINE) matches at the end of the string and just
    before a newline that ends the string. *)
Definition at_end (rest : list string) : bool :=
  match rest with
  | [] => true
  | [c] => String.eqb c newline
  | _ => false
  end.

(** The group [(.*?[cls])] followed by the rest of the pattern [k]: the
    lazy star has consumed [taken]; it first tries to stop here, and takes
    one more character each time the rest of the pattern fails. *)
Fixpoint lazy_group {R : Type} (cls : list string)
    (k : list string -> list string -> option R)
    (taken s : list string) : option R :=
  match s with
  | [] => None
  | c :: s' =>
      match (if char_in cls c then k (taken ++ [c]) s' else None) with
      | Some r => Some r
      | None =>
          if dot c then lazy_group cls k (taken ++ [c]) s' else None
      end
  end.

(** [re.match(pattern, address)] for a pattern
    [^(.*?[cls1])...(.*?[clsn])$], given by the classes of its groups;
    the result is [match.groups()]. *)
Fixpoint re_match (pattern : list (list string)) (s : list string)
  : option (list string) :=
  match pattern with
  | [] => if at_end s then Some [] else None
  | cls :: pattern' =>
      lazy_group cls
        (fun g rest => gs ← re_match pattern' rest; Some (join g :: gs))
        [] s
  end.

(** [city_patterns] (text_processing.py 146-149). *)
Definition city_patterns : list (list (list string)) :=
  [ [city_suffix; district_suffix];
    [city_suffix] ].

(** The loop of [split_city_district] over the patterns left to try. *)
Fixpoint split_with (patterns : list (list (list string)))
    (address : string) : string * string :=
  match patterns with
  | [] => ("", address)
  | pattern :: patterns' =>
      match re_match pattern (chars address) with
      | Some [g1; g2] => (g1, g2)
      | Some [g1] => (g1, "")
      | _ => split_with patterns' address
      end
  end.

(** [split_city_district] (text_processing.py 127-161). *)
Definition split_city_district (address : string) : string * string :=
  split_with city_patterns address.

(** [s.startswith(("http:", "https:"))] *)
Definition has_protocol (s : string) : bool :=
  String.prefix "http:" s || String.prefix "https:" s.

(** A character given by the bytes of its UTF-8 encoding. *)
Definition utf8 (bytes : list nat) : string :=
  fold_right (fun b s => String (ascii_of_nat b) s) EmptyString bytes.

(** The class [\s] of a [str] pattern: the whitespace characters of
    Unicode (U+0009-000D, U+001C-0020, U+0085, U+00A0, U+1680,
    U+2000-200A, U+2028, U+2029, U+202F, U+205F, U+3000). *)
Definition whitespace : list string :=
  map utf8
    [[9]; [10]; [11]; [12]; [13]; [28]; [29]; [30]; [31]; [32];
     [194; 133]; [194; 160]; [225; 154; 128];
     [226; 128; 128]; [226; 128; 129]; [226; 128; 130]; [226; 128; 131];
     [226; 128; 132]; [226; 128; 133]; [226; 128; 134]; [226; 128; 135];
     [226; 128; 136]; [226; 128; 137]; [226; 128; 138];
     [226; 128; 168]; [226; 128; 169]; [226; 128; 175]; [226; 129; 159];
     [227; 128; 128]]%nat.

Definition is_space (c : string) : bool := char_in whitespace c.

(** The class [[^,}]]. *)
Definition url_char (c : string) : bool := negb (char_in [","; "}"] c).

(** A literal of the pattern at the start of the text: what follows it. *)
Fixpoint strip_prefix (literal s : list string) : option (list string) :=
  match literal, s with
  | [], _ => Some s
  | a :: literal', b :: s' =>
      if String.eqb a b then strip_prefix literal' s' else None
  | _ :: _, [] => None
  end.

(** [\s*] and [[^,}]+] are greedy, and what follows each of them cannot
    start with a character of its class: they take the longest run. *)
Fixpoint skip_spaces (s : list string) : list string :=
  match s with
  | c :: s' => if is_space c then skip_spaces s' else s
  | [] => []
  end.

Fixpoint url_run (s : list string) : list string :=
  match s with
  | c :: s' => if url_char c then c :: url_run s' else []
  | [] => []
  end.

(** The literal ['key':] of a pattern. *)
Definition key_literal (key : string) : list string :=
  chars ("'" ++ key ++ "':").

(** The pattern ['key':\s*(//[^,}]+)] at the start of the text: its
    group. *)
Definition match_url (key : string) (s : list string) : option string :=
  rest ← strip_prefix (key_literal key) s;
  rest ← strip_prefix ["/"; "/"] (skip_spaces rest);
  match url_run rest with
  | [] => None
  | run => Some (join ("/" :: "/" :: run))
  end.

(** [re.search(pattern, link_str)]: the leftmost match. *)
Fixpoint search_url (key : string) (s : list string) : option string :=
  match match_url key s with
  | Some url => Some url
  | None =>
      match s with
      | [] => None
      | _ :: s' => search_url key s'
      end
  end.

(** [if url and not url.startswith(("http:", "https:")): url = "https:" + url] *)
Definition add_protocol (url : string) : string :=
  if negb (String.eqb url "") && negb (has_protocol url)
  then "https:" ++ url else url.

(** [split_link_field] (text_processing.py 79-124) on a string. *)
Definition split_link_field (link_str : string) : string * string * string :=
  let s := chars link_str in
  (add_protocol (default "" (search_url "applyAnalyze" s)),
   add_protocol (default "" (search_url "job" s)),
   add_protocol (default "" (search_url "cust" s))).

(* ===================================================================== *)
(** * src/database/mongodb_manager.py: MongoDBManager                     *)
(* ===================================================================== *)

Module MongoDBManager.

(** The [jobs] collection: its documents, in insertion order.  The
    methods below are state transformers on it; the counts they return
    to their callers are left out. *)

(** The filter [{'jobNo': id}]: equality with the field; [None] also
    matches a document without the field. *)
Definition matches_jobNo (id : value) (doc : Job) : bool :=
  match doc !! "jobNo" with
  | Some v => py_eq v id
  | None => py_eq VNone id
  end.

(** [UpdateOne({'jobNo': id}, {'$set': job, '$setOnInsert':
    {'discovery_date': today}}, upsert=True)]: the first matching
    document gets the fields of [job]; when none matches, a document is
    inserted with the filter's field, the fields of [job] and the
    discovery date. *)
Fixpoint update_one_upsert (today : string) (id : value) (job : Job)
    (docs : list Job) : list Job :=
  match docs with
  | [] => [<["discovery_date" := VStr today]> (job ∪ {["jobNo" := id]})]
  | doc :: docs =>
      if matches_jobNo id doc
      then (job ∪ doc) :: docs
      else doc :: update_one_upsert today id job docs
  end.

(** [for job in jobs: job['mongodb_update_time'] = now]
    (mongodb_manager.py 130-131): the records of the caller are stamped
    in place. *)
Definition stamped (now : value) (jobs : list Job) : list Job :=
  map (fun job : Job => <["mongodb_update_time" := now]> job) jobs.

(** [insert_jobs] (mongodb_manager.py 112-160).  [job['jobNo']] raises
    KeyError while the operations are built; the server rejects an update
    whose [$set] and [$setOnInsert] name the same field. *)
Definition insert_jobs (now : value) (today : string) (jobs : list Job)
    (docs : list Job) : res (list Job) :=
  match jobs with
  | [] => Ok docs
  | _ =>
      let jobs := stamped now jobs in
      operations ←
        map_each (fun job : Job =>
                    match job !! "jobNo" with
                    | Some id => Ok (id, job)
                    | None => Raise KeyError
                    end) jobs;
      for_each (fun docs (op : value * Job) =>
                  let '(id, job) := op in
                  match job !! "discovery_date" with
                  | Some _ => Raise WriteError
                  | None => Ok (update_one_upsert today id job docs)
                  end) docs operations
  end.

(** The filter [{'status': s}]. *)
Definition has_status (s : string) (doc : Job) : bool :=
  match doc !! "status" with
  | Some v => py_eq v (VStr s)
  | None => false
  end.

(** [{'jobNo': {'$nin': ids}}]: the field is missing or equals none of
    [ids]. *)
Definition jobNo_nin (ids : list value) (doc : Job) : bool :=
  match doc !! "jobNo" with
  | Some v => negb (existsb (py_eq v) ids)
  | None => true
  end.

(** [{'jobNo': {'$in': ids}}] *)
Definition jobNo_in (ids : list value) (doc : Job) : bool :=
  match doc !! "jobNo" with
  | Some v => existsb (py_eq v) ids
  | None => false
  end.

(** [update_job_status] (mongodb_manager.py 208-243). *)
Definition update_job_status (today : string) (current_job_ids : list value)
    (docs : list Job) : list Job :=
  match current_job_ids with
  | [] => docs
  | _ =>
      map (fun doc : Job =>
             if jobNo_nin current_job_ids doc && has_status "active" doc
             then <["delisted_date" := VStr today]>
                    (<["last_update_date" := VStr today]>
                       (<["status" := VStr "inactive"]> doc))
             else doc) docs
  end.

(** [reactivate_jobs] (mongodb_manager.py 272-314). *)
Definition reactivate_jobs (today : string) (job_ids : list value)
    (docs : list Job) : list Job :=
  match job_ids with
  | [] => docs
  | _ =>
      map (fun doc : Job =>
             if jobNo_in job_ids doc && has_status "inactive" doc
             then delete "delisted_date"
                    (<["last_update_date" := VStr today]>
                       (<["status" := VStr "active"]> doc))
             else doc) docs
  end.

(** [get_existing_jobs] (mongodb_manager.py 245-270); any exception (an
    unhashable [jobNo]) is logged and gives the empty dict. *)
Definition get_existing_jobs (docs : list Job) : pydict value :=
  match
    for_each (fun (existing_job_dict : pydict value) (job : Job) =>
                match job !! "jobNo" with
                | Some id =>
                    if hashable id
                    then Ok (dict_set id
                               (default (VStr "active") (job !! "status"))
                               existing_job_dict)
                    else Raise TypeError
                | None => Ok existing_job_dict
                end) [] docs
  with
  | Ok existing_job_dict => existing_job_dict
  | Raise _ => []
  end.

End MongoDBManager.

(* ===================================================================== *)
(** * apps/crawler/processor.py: JobDataProcessor                         *)
(* ===================================================================== *)

Module JobDataProcessor.

(** The keyword list of a listing that is met again (processor.py
    116-124): the list it had, with the new keyword when it is truthy and
    not yet in it. *)
Definition merged_keywords (existing_keywords new_keyword : value)
  : res value :=
  let existing_keywords :=
    if is_str existing_keywords then VList [existing_keywords]
    else if negb (truthy existing_keywords) then VList []
    else existing_keywords in
  if truthy new_keyword
  then present ← py_in new_keyword existing_keywords;
       if negb present
       then py_append existing_keywords new_keyword
       else Ok existing_keywords
  else Ok existing_keywords.

(** A listing that is met for the first time (processor.py 131-134): its
    keyword becomes a list. *)
Definition keyword_as_list (job : Job) : Job :=
  match job !! "search_keyword" with
  | Some (VStr s) => <["search_keyword" := VList [VStr s]]> job
  | Some _ => job
  | None => <["search_keyword" := VList []]> job
  end.

(** One turn of the loop of [_merge_job_keywords] (processor.py 105-136).
    [job_by_id_map] holds, for every listing ID met so far, the current
    contents of its first-seen record: the records of a batch are distinct
    objects, so the first-seen record is only reachable, and only mutated,
    through the map. *)
Definition merge_one (job_by_id_map : pydict Job) (job : Job)
  : res (pydict Job) :=
  let job_id := default VNone (job !! "jobNo") in
  if negb (truthy job_id) then Ok job_by_id_map
  else if negb (hashable job_id) then Raise TypeError
  else
    match dict_get job_id job_by_id_map with
    | Some existing_job =>
        let existing_keywords :=
          default (VList []) (existing_job !! "search_keyword") in
        let new_keyword := default VNone (job !! "search_keyword") in
        existing_keywords ← merged_keywords existing_keywords new_keyword;
        Ok (dict_set job_id
              (<["search_keyword" := existing_keywords]> existing_job)
              job_by_id_map)
    | None => Ok (dict_set job_id (keyword_as_list job) job_by_id_map)
    end.

(** [_merge_job_keywords] (processor.py 88-142). *)
Definition _merge_job_keywords (jobs : list Job) : res (list Job) :=
  match jobs with
  | [] => Ok []
  | _ =>
      job_by_id_map ← for_each merge_one [] jobs;
      Ok (dict_values job_by_id_map)
  end.

(** One turn of the loop of [_process_job_status] (processor.py 159-176):
    the record after the turn. *)
Definition status_one (today : string) (existing_jobs : pydict value)
    (job : Job) : res Job :=
  let job_id := default VNone (job !! "jobNo") in
  if negb (truthy job_id) then Ok job
  else if negb (hashable job_id) then Raise TypeError
  else
    match dict_get job_id existing_jobs with
    | Some status =>
        let job := <["last_update_date" := VStr today]> job in
        if py_eq status (VStr JOB_STATUS_INACTIVE)
        then Ok (delete "delisted_date"
                   (<["status" := VStr JOB_STATUS_ACTIVE]> job))
        else Ok job
    | None => Ok (<["last_update_date" := VStr today]> job)
    end.

(** [_process_job_status] (processor.py 144-179); the result is the list
    of records as the call leaves them. *)
Definition _process_job_status (today : string) (jobs : list Job)
    (existing_jobs : pydict value) : res (list Job) :=
  match jobs, existing_jobs with
  | [], _ | _, [] => Ok jobs
  | _, _ => map_each (status_one today existing_jobs) jobs
  end.

(** The protocol prefix of the dict branch (processor.py 206-211):
    [if url and not url.startswith(("http:", "https:")): url = "https:" + url].
    A truthy value that is not a string has no [startswith]. *)
Definition with_protocol (url : value) : res value :=
  if truthy url
  then match url with
       | VStr s => Ok (VStr (if has_protocol s then s else "https:" ++ s))
       | _ => Raise AttributeError
       end
  else Ok url.

Section Fields.

(** [split_link_field] (text_processing.py 79-124) on a string: three
    regular-expression searches and the protocol prefix, total because of
    its [try/except].  Its patterns use the Unicode class [\s]; nothing
    proved below depends on which URLs it extracts, so it is a parameter. *)
Variable split_link_field : string -> string * string * string.

(** The body of the [try] for the [link] field (processor.py 198-214). *)
Definition link_urls (link : value) : res (value * value * value) :=
  match link with
  | VDict d =>
      apply_analyze_url ← with_protocol (default (VStr "") (assoc_get "applyAnalyze" d));
      job_detail_url ← with_protocol (default (VStr "") (assoc_get "job" d));
      company_url ← with_protocol (default (VStr "") (assoc_get "cust" d));
      Ok (apply_analyze_url, job_detail_url, company_url)
  | VStr s =>
      let '(a, j, c) := split_link_field s in Ok (VStr a, VStr j, VStr c)
  | _ =>
      (* [re.search] raises TypeError, which [split_link_field] catches *)
      Ok (VStr "", VStr "", VStr "")
  end.

(** First loop of [_process_job_fields] (processor.py 195-222), for one
    record; an exception is logged and leaves the record as it is. *)
Definition link_one (job : Job) : Job :=
  match job !! "link" with
  | Some link =>
      if truthy link
      then match link_urls link with
           | Ok (apply_analyze_url, job_detail_url, company_url) =>
               <["cust" := company_url]>
                 (<["job" := job_detail_url]>
                    (<["applyAnalyze" := apply_analyze_url]> job))
           | Raise _ => job
           end
      else job
  | None => job
  end.

(** Second loop (processor.py 230-238): [re.match] raises TypeError on a
    value that is not a string, which is logged. *)
Definition address_one (job : Job) : Job :=
  match job !! "jobAddrNoDesc" with
  | Some (VStr address) =>
      if truthy (VStr address)
      then let '(city, district) := split_city_district address in
           <["district" := VStr district]> (<["city" := VStr city]> job)
      else job
  | _ => job
  end.

(** [_process_job_fields] (processor.py 181-240). *)
Definition _process_job_fields (jobs : list Job) : list Job :=
  map address_one (map link_one jobs).

(** [process_jobs] (processor.py 31-60): the returned list. *)
Definition process_jobs (today : string) (jobs : list Job)
    (existing_jobs : pydict value) : res (list Job) :=
  match jobs with
  | [] => Ok []
  | _ =>
      deduplicated_jobs ← _merge_job_keywords jobs;
      deduplicated_jobs ←
        (match existing_jobs with
         | [] => Ok deduplicated_jobs
         | _ => _process_job_status today deduplicated_jobs existing_jobs
         end);
      Ok (_process_job_fields deduplicated_jobs)
  end.

End Fields.

(** [add_metadata] (processor.py 62-86), for one record. *)
Definition add_metadata_one (current_date keyword : string) (job : Job) : Job :=
  let job := <["crawl_date" := VStr current_date]> job in
  let job := <["status" := VStr JOB_STATUS_ACTIVE]> job in
  let job := <["last_update_date" := VStr current_date]> job in
  let job := if truthy (VStr keyword)
             then <["search_keyword" := VStr keyword]> job else job in
  let job := <["area_code" := default (VStr "") (job !! "jobAddrNo")]> job in
  <["area_name" := default (VStr "") (job !! "jobAddrNoDesc")]> job.

Definition add_metadata (current_date : string) (jobs : list Job)
    (keyword : string) : list Job :=
  map (add_metadata_one current_date keyword) jobs.

End JobDataProcessor.

(* ===================================================================== *)
(** * apps/crawler/crawler.py: Crawler (the first version of the crawler) *)
(* ===================================================================== *)

Module Crawler.

(** [job[key]] *)
Definition getitem (job : Job) (key : string) : res value :=
  match job !! key with
  | Some v => Ok v
  | None => Raise KeyError
  end.

(** One turn of the loop of [_merge_job_keywords] (crawler.py 750-772). *)
Definition merge_one (job_by_id_map : pydict Job) (job : Job)
  : res (pydict Job) :=
  job_id ← getitem job "jobNo";
  if negb (hashable job_id) then Raise TypeError
  else
    match dict_get job_id job_by_id_map with
    | Some existing_job =>
        existing_keywords ← getitem existing_job "search_keyword";
        new_keyword ← getitem job "search_keyword";
        let existing_keywords :=
          if is_str existing_keywords then VList [existing_keywords]
          else existing_keywords in
        present ← py_in new_keyword existing_keywords;
        existing_keywords ←
          (if negb present
           then py_append existing_keywords new_keyword
           else Ok existing_keywords);
        Ok (dict_set job_id
              (<["search_keyword" := existing_keywords]> existing_job)
              job_by_id_map)
    | None =>
        search_keyword ← getitem job "search_keyword";
        let job :=
          if is_str search_keyword
          then <["search_keyword" := VList [search_keyword]]> job
          else job in
        Ok (dict_set job_id job job_by_id_map)
    end.

(** [_merge_job_keywords] (crawler.py 733-778). *)
Definition _merge_job_keywords (jobs : list Job) : res (list Job) :=
  match jobs with
  | [] => Ok []
  | _ =>
      job_by_id_map ← for_each merge_one [] jobs;
      Ok (dict_values job_by_id_map)
  end.

(** The loop of [_process_job_status] (crawler.py 708-716) from some
    record on: the records as the loop leaves them, the IDs to reactivate,
    and whether it ran to its end (an exception stops it where it is). *)
Fixpoint status_loop (today : string) (existing_job_dict : pydict value)
    (jobs : list Job) : list Job * list value * bool :=
  match jobs with
  | [] => ([], [], true)
  | job :: jobs' =>
      match job !! "jobNo" with
      | None => (jobs, [], false)
      | Some job_id =>
          if negb (hashable job_id) then (jobs, [], false)
          else
            let '(job, reactivate) :=
              match dict_get job_id existing_job_dict with
              | Some status =>
                  let job := <["last_update_date" := VStr today]> job in
                  if py_eq status (VStr "inactive")
                  then (<["status" := VStr "active"]> job, [job_id])
                  else (job, [])
              | None => (<["last_update_date" := VStr today]> job, [])
              end in
            let '(jobs', reactivate_job_ids, finished) :=
              status_loop today existing_job_dict jobs' in
            (job :: jobs', reactivate ++ reactivate_job_ids, finished)
      end
  end.

(** [_process_job_status] (crawler.py 675-731): the records and the
    collection as the call leaves them; it catches every exception. *)
Definition _process_job_status (today : string) (jobs : list Job)
    (docs : list Job) : list Job * list Job :=
  match jobs with
  | [] => (jobs, docs)
  | _ =>
      let existing_job_dict := MongoDBManager.get_existing_jobs docs in
      match map_each (fun job => getitem job "jobNo") jobs with
      | Raise _ => (jobs, docs)
      | Ok current_job_ids =>
          match existing_job_dict with
          | [] =>
              (map (fun job : Job => <["last_update_date" := VStr today]> job) jobs,
               docs)
          | _ =>
              let docs :=
                MongoDBManager.update_job_status today current_job_ids docs in
              let '(jobs, reactivate_job_ids, finished) :=
                status_loop today existing_job_dict jobs in
              if finished
              then (jobs,
                    MongoDBManager.reactivate_jobs today reactivate_job_ids docs)
              else (jobs, docs)
          end
      end
  end.

Section Pipeline.

Variable split_link_field : string -> string * string * string.

(** [process_jobs_data] (crawler.py 850-906) with [save_to_database]:
    the collection and the merged records as the call leaves them.
    [_process_job_fields] (crawler.py 780-848) is the code of
    [JobDataProcessor._process_job_fields]. *)
Definition process_jobs_data (now : value) (today : string)
    (all_jobs : list Job) (docs : list Job) : res (list Job * list Job) :=
  match all_jobs with
  | [] => Ok (docs, [])
  | _ =>
      deduplicated_jobs ← _merge_job_keywords all_jobs;
      let '(deduplicated_jobs, docs) :=
        _process_job_status today deduplicated_jobs docs in
      let deduplicated_jobs :=
        JobDataProcessor._process_job_fields split_link_field deduplicated_jobs in
      docs ← MongoDBManager.insert_jobs now today deduplicated_jobs docs;
      Ok (docs, MongoDBManager.stamped now deduplicated_jobs)
  end.

End Pipeline.

End Crawler.



(* ===================================================================== *)
(** * apps/crawler/storage.py: FileJobStorage                             *)
(* ===================================================================== *)

Module FileJobStorage.

(** The state is [_jobs_cache], a dict from listing ID to record; the CSV
    and JSON files [save_jobs] writes are never read back. *)

(** [save_jobs] (storage.py 299-336). *)
Definition save_jobs (jobs : list Job) (_jobs_cache : pydict Job)
  : res (pydict Job) :=
  for_each (fun (cache : pydict Job) (job : Job) =>
              match job !! "jobNo" with
              | Some id =>
                  if hashable id then Ok (dict_set id job cache)
                  else Raise TypeError
              | None => Ok cache
              end) _jobs_cache jobs.

(** [job.get("status") == s] *)
Definition status_is (s : string) (job : Job) : bool :=
  py_eq (default VNone (job !! "status")) (VStr s).

(** [update_job_status] (storage.py 359-384). *)
Definition update_job_status (today : string) (current_job_ids : list value)
    (_jobs_cache : pydict Job) : pydict Job :=
  match current_job_ids, _jobs_cache with
  | [], _ | _, [] => _jobs_cache
  | _, _ =>
      map (fun entry : value * Job =>
             let '(job_id, job) := entry in
             if negb (existsb (py_eq job_id) current_job_ids)
                && status_is JOB_STATUS_ACTIVE job
             then (job_id,
                   <["delisted_date" := VStr today]>
                     (<["last_update_date" := VStr today]>
                        (<["status" := VStr JOB_STATUS_INACTIVE]> job)))
             else entry) _jobs_cache
  end.

(** [get_existing_jobs] (storage.py 386-398). *)
Definition get_existing_jobs (_jobs_cache : pydict Job) : pydict value :=
  map (fun entry : value * Job =>
         (entry.1, default (VStr JOB_STATUS_ACTIVE) (entry.2 !! "status")))
      _jobs_cache.

(** [reactivate_jobs] (storage.py 400-429). *)
Definition reactivate_jobs (today : string) (job_ids : list value)
    (_jobs_cache : pydict Job) : res (pydict Job) :=
  for_each (fun (cache : pydict Job) (job_id : value) =>
              if negb (hashable job_id) then Raise TypeError
              else
                match dict_get job_id cache with
                | Some job =>
                    if status_is JOB_STATUS_INACTIVE job
                    then Ok (dict_set job_id
                               (delete "delisted_date"
                                  (<["last_update_date" := VStr today]>
                                     (<["status" := VStr JOB_STATUS_ACTIVE]> job)))
                               cache)
                    else Ok cache
                | None => Ok cache
                end) _jobs_cache job_ids.

(** [l[:limit]]: a negative [limit] counts from the end. *)
Definition slice_to {A : Type} (limit : Z) (l : list A) : list A :=
  if limit <? 0
  then take (Z.to_nat (Z.of_nat (length l) + limit)) l
  else take (Z.to_nat limit) l.

(** [get_jobs] (storage.py 338-357); [filters] is [None] or a dict. *)
Definition get_jobs (filters : option Job) (limit : Z)
    (_jobs_cache : pydict Job) : res (list Job) :=
  match filters ≫= (fun filters : Job => filters !! "jobNo") with
  | Some job_no =>
      if negb (hashable job_no) then Raise TypeError
      else Ok (match dict_get job_no _jobs_cache with
               | Some job => [job]
               | None => []
               end)
  | None => Ok (slice_to limit (dict_values _jobs_cache))
  end.

(** The keys of [_search_results_cache]: the tuples
    [(today, keyword, first_url, crawl_url)]. *)
Definition search_key : Type := (value * value * value * value)%type.

(** [k == k'] and [hash(k)] on tuples. *)
Definition key_eq (k k' : search_key) : bool :=
  let '(a, b, c, d) := k in
  let '(a', b', c', d') := k' in
  py_eq a a' && py_eq b b' && py_eq c c' && py_eq d d'.

Definition key_hashable (k : search_key) : bool :=
  let '(a, b, c, d) := k in
  hashable a && hashable b && hashable c && hashable d.

Definition search_cache : Type := list (search_key * Job).

Fixpoint cache_get (k : search_key) (cache : search_cache) : option Job :=
  match cache with
  | [] => None
  | (k', v) :: cache' => if key_eq k' k then Some v else cache_get k cache'
  end.

Fixpoint cache_set (k : search_key) (v : Job) (cache : search_cache)
  : search_cache :=
  match cache with
  | [] => [(k, v)]
  | (k', v') :: cache' =>
      if key_eq k' k then (k', v) :: cache' else (k', v') :: cache_set k v cache'
  end.

(** The key [save_search_result] builds (storage.py 443-448);
    [result["today"]] and the two URLs raise KeyError when missing. *)
Definition result_key (result : Job) : res search_key :=
  today ← Crawler.getitem result "today";
  first_url ← Crawler.getitem result "first_url";
  crawl_url ← Crawler.getitem result "crawl_url";
  Ok (today, default (VStr "") (result !! "keyword"), first_url, crawl_url).

(** [save_search_result] (storage.py 431-455): the returned flag and the
    cache; every exception is caught and gives [False]. *)
Definition save_search_result (result : Job) (cache : search_cache)
  : bool * search_cache :=
  match result_key result with
  | Ok key =>
      if key_hashable key then (true, cache_set key result cache)
      else (false, cache)
  | Raise _ => (false, cache)
  end.

(** The key [get_search_result] builds (storage.py 469-474). *)
Definition filter_key (filters : Job) : search_key :=
  (default (VStr "") (filters !! "today"),
   default (VStr "") (filters !! "keyword"),
   default (VStr "") (filters !! "first_url"),
   default (VStr "") (filters !! "crawl_url")).

(** [get_search_result] (storage.py 457-480); a caught exception gives
    [None]. *)
Definition get_search_result (filters : Job) (cache : search_cache)
  : option Job :=
  let key := filter_key filters in
  if key_hashable key then cache_get key cache else None.

End FileJobStorage.

(* ===================================================================== *)
(** * apps/crawler/orchestrator.py: CrawlerOrchestrator                   *)
(* ===================================================================== *)

Module CrawlerOrchestrator.

Section Crawl.

Variable split_link_field : string -> string * string * string.

(** Steps 4 to 6 of [crawl] (orchestrator.py 97-114) over the MongoDB
    storage, for an orchestrator built without [output_dir]: its
    [file_storage] is [None] (orchestrator.py 45-47), so the save to files
    of lines 109-111 is skipped.  Read the known listings, process the
    fetched records, save them.  The result is the collection after the
    run and the list returned to the caller, whose records [insert_jobs]
    has stamped.  (With an [output_dir] the save to files comes after the
    save to the collection, on the same records; it is not part of this
    definition.) *)
Definition crawl_save (now : value) (today : string) (all_jobs : list Job)
    (docs : list Job) : res (list Job * list Job) :=
  let existing_jobs := MongoDBManager.get_existing_jobs docs in
  processed_jobs ←
    JobDataProcessor.process_jobs split_link_field today all_jobs existing_jobs;
  docs ← MongoDBManager.insert_jobs now today processed_jobs docs;
  Ok (docs, MongoDBManager.stamped now processed_jobs).

End Crawl.

(** [any(url in c for url in urls)]: it stops at the first URL found. *)
Fixpoint any_url_in (urls : list string) (c : value) : res bool :=
  match urls with
  | [] => Ok false
  | url :: urls =>
      found ← py_in (VStr url) c;
      if found : bool then Ok true else any_url_in urls c
  end.

(** The condition of the comprehension of step 3 of [crawl]
    (orchestrator.py 84-85). *)
Definition belongs_to (keyword : string) (urls : list string) (result : Job)
  : res bool :=
  if py_eq (default VNone (result !! "keyword")) (VStr keyword)
  then Ok true
  else any_url_in urls (default (VStr "") (result !! "url")).

(** [keyword_results] (orchestrator.py 81-86). *)
Fixpoint keyword_results (search_results : list Job) (keyword : string)
    (urls : list string) : res (list Job) :=
  match search_results with
  | [] => Ok []
  | result :: search_results =>
      selected ← belongs_to keyword urls result;
      rest ← keyword_results search_results keyword urls;
      Ok (if selected : bool then result :: rest else rest)
  end.

End CrawlerOrchestrator.

(* ===================================================================== *)
(** * src/utils/http_adapter.py: HttpAdapter                              *)
(* ===================================================================== *)

Module HttpAdapter.

Record adapter : Type := {
  max_retries : nat;
  min_retry_delay : Q;
  max_retry_delay : Q;
  rotate_user_agent : bool
}.

(** [int(response.headers.get("Retry-After", 60))]: the header is missing,
    or holds an integer, or holds text on which [int] raises ValueError. *)
Inductive retry_after : Type :=
| Missing
| Seconds (n : Z)
| Malformed.

(** What an attempt meets: a response with its status code, or an
    exception raised while the request is sent. *)
Inductive answer : Type :=
| Status (status_code : Z) (header : retry_after)
| Failure.

(** What the transport does, in order. *)
Inductive event : Type :=
| Request
| Sleep (seconds : Z)
| SleepUniform (low high : Q)
| UpdateUserAgent.

Inductive result : Type :=
| Payload (attempt : nat)
| ErrorDict
| Raised.

(** [response.raise_for_status()] raises unless the status is 2xx. *)
Definition raises_for_status (status_code : Z) : bool :=
  negb ((200 <=? status_code) && (status_code <? 300)).

(** [wait_time = int(response.headers.get("Retry-After", 60))]
    (http_adapter.py 518); [None] when [int] raises. *)
Definition wait_time (header : retry_after) : option Z :=
  match header with
  | Missing => Some 60
  | Seconds n => Some n
  | Malformed => None
  end.

Section Loop.

Variable self : adapter.

(** The answer the server gives to each attempt, counted from 0. *)
Variable server : nat -> answer.

(** Whether [sleep] refuses a negative duration ([time.sleep] does,
    [asyncio.sleep] returns at once), and what the call ends with when
    the retries are used up. *)
Variable sleep_raises_on_negative : bool.
Variable exhausted : result.

(** The delay before a retry (http_adapter.py 478-483). *)
Definition retry_delay (retries : nat) : list event :=
  if (0 <? retries)%nat
  then [SleepUniform (min_retry_delay self * inject_Z (Z.of_nat retries))
                     (max_retry_delay self * inject_Z (Z.of_nat retries))]
  else [].

(** The [while retries < self.max_retries] loop (http_adapter.py 474-565)
    with [left = max_retries - retries] turns to go: the events from
    here on and the result of the call. *)
Fixpoint attempts (left retries : nat) : list event * result :=
  match left with
  | O => ([], exhausted)
  | S left' =>
      (* the three [except] clauses: retry, or give up on the last turn *)
      let handler (done : list event) :=
        if (retries <? max_retries self - 1)%nat
        then let '(events, r) := attempts left' (S retries) in
             (done ++ events, r)
        else (done, exhausted) in
      let before := retry_delay retries ++ [Request] in
      match server retries with
      | Failure => handler before
      | Status status_code header =>
          if status_code =? 403 then
            let '(events, r) := attempts left' (S retries) in
            (before
               ++ (if rotate_user_agent self then [UpdateUserAgent] else [])
               ++ events, r)
          else if status_code =? 429 then
            match wait_time header with
            | None => handler before
            | Some wait_time =>
                if sleep_raises_on_negative && (wait_time <? 0)
                then handler before
                else
                  let '(events, r) := attempts left' (S retries) in
                  (before ++ [Sleep wait_time] ++ events, r)
            end
          else if raises_for_status status_code then handler before
          else (before, Payload retries)
      end
  end.

End Loop.

(** [async_request] (http_adapter.py 427-565) *)
Definition async_request (self : adapter) (server : nat -> answer)
  : list event * result :=
  attempts self server false ErrorDict (max_retries self) 0.

(** [request] (http_adapter.py 239-373) *)
Definition request (self : adapter) (server : nat -> answer)
  : list event * result :=
  attempts self server true Raised (max_retries self) 0.

(** [s.endswith("/")] *)
Fixpoint ends_with_slash (s : string) : bool :=
  match s with
  | EmptyString => false
  | String a EmptyString => Ascii.eqb a "/"
  | String _ s' => ends_with_slash s'
  end.

(** [url[1:]] *)
Definition drop_first (url : string) : string :=
  match url with
  | EmptyString => EmptyString
  | String _ url' => url'
  end.

(** [_build_url] (http_adapter.py 181-204); [base_url] is
    [self.base_url]. *)
Definition _build_url (base_url url : string) : string :=
  if String.prefix "http://" url || String.prefix "https://" url then url
  else if negb (String.eqb base_url "") then
    if ends_with_slash base_url && String.prefix "/" url
    then base_url ++ drop_first url
    else if negb (ends_with_slash base_url) && negb (String.prefix "/" url)
    then base_url ++ "/" ++ url
    else base_url ++ url
  else url.

End HttpAdapter.

(* ===================================================================== *)
(** * apps/crawler/searcher.py: the concurrency gate of JobSearcher       *)
(* ===================================================================== *)

Module JobSearcher.

(** The two kinds of task that issue requests: [get_first_page]
    (searcher.py 178-268) and [search_with_semaphore] (searcher.py
    339-400).  Both run the same protocol on the one semaphore of the
    searcher: return the cached result if there is one; otherwise enter
    [async with self.semaphore], await the adapter (which sends its
    attempts one after the other), store the outcome, leave. *)
Inductive kind : Type := FirstPage | Page.

Inductive pc : Type :=
| NotStarted
| Blocked                      (* waiting in [semaphore.acquire()] *)
| Holding (in_flight : bool)   (* inside [async with]; a request is out *)
| Finished.

Record state : Type := {
  sem_value : nat;             (* the counter of [asyncio.Semaphore] *)
  tasks : list (kind * pc)
}.

(** [JobSearcher.__init__] (searcher.py 63-65) and a batch of tasks. *)
Definition init (max_concurrency : nat) (batch : list kind) : state :=
  {| sem_value := max_concurrency;
     tasks := map (fun k => (k, NotStarted)) batch |}.

Definition set_pc (i : nat) (k : kind) (p : pc) (s : state) (v : nat) : state :=
  {| sem_value := v; tasks := <[i := (k, p)]> (tasks s) |}.

(** One step of the event loop: some task runs up to its next
    suspension point. *)
Inductive step : state -> state -> Prop :=
| step_cached s i k :
    tasks s !! i = Some (k, NotStarted) ->
    step s (set_pc i k Finished s (sem_value s))
| step_enter s i k v :
    tasks s !! i = Some (k, NotStarted) -> sem_value s = S v ->
    step s (set_pc i k (Holding false) s v)
| step_block s i k :
    tasks s !! i = Some (k, NotStarted) -> sem_value s = O ->
    step s (set_pc i k Blocked s (sem_value s))
| step_wake s i k v :
    tasks s !! i = Some (k, Blocked) -> sem_value s = S v ->
    step s (set_pc i k (Holding false) s v)
| step_send s i k :
    tasks s !! i = Some (k, Holding false) ->
    step s (set_pc i k (Holding true) s (sem_value s))
| step_receive s i k :
    tasks s !! i = Some (k, Holding true) ->
    step s (set_pc i k (Holding false) s (sem_value s))
| step_leave s i k :
    tasks s !! i = Some (k, Holding false) ->
    step s (set_pc i k Finished s (S (sem_value s))).

Inductive reachable (max_concurrency : nat) (batch : list kind)
  : state -> Prop :=
| reach_init : reachable max_concurrency batch (init max_concurrency batch)
| reach_step s s' :
    reachable max_concurrency batch s -> step s s' ->
    reachable max_concurrency batch s'.

Definition is_in_flight (t : kind * pc) : bool :=
  match t.2 with Holding true => true | _ => false end.

Definition is_holding (t : kind * pc) : bool :=
  match t.2 with Holding _ => true | _ => false end.

(** The number of requests in flight. *)
Definition in_flight (s : state) : nat :=
  length (filter (fun t => is_in_flight t = true) (tasks s)).

Definition holders (s : state) : nat :=
  length (filter (fun t => is_holding t = true) (tasks s)).

(** The number of tasks of a list that are inside [async with]. *)
Definition count_holding (l : list (kind * pc)) : nat :=
  length (filter (fun t => is_holding t = true) l).

(** Twelve tasks on the default gate; the first one enters and sends its
    request. *)
(** Twelve tasks on the default gate; the first one enters and sends its
    request. *)
Definition twelve : list kind := replicate 6 FirstPage ++ replicate 6 Page.

Definition first_entered : state :=
  set_pc 0 FirstPage (Holding false) (init MAX_CONCURRENCY twelve) 9.

Definition first_sent : state :=
  set_pc 0 FirstPage (Holding true) first_entered (sem_value first_entered).

(** The filters of the cache lookups of [get_first_page] (searcher.py
    196-198) and of [search_with_semaphore] (searcher.py 351-353). *)
Definition first_page_filter (today first_page_url : string) : Job :=
  list_to_map [("today", VStr today); ("first_url", VStr first_page_url)].

Definition page_filter (today url : string) : Job :=
  list_to_map [("today", VStr today); ("first_url", VStr "");
               ("crawl_url", VStr url)].

(** The results the two functions save (searcher.py 232-241 and 254-263;
    366-374 and 387-395): [status] is ["ok"] or ["error"], [result] the
    page URLs or the response, or [""]. *)
Definition first_page_result (today first_page_url keyword area_code
    area_name status : string) (result : value) : Job :=
  list_to_map [("today", VStr today); ("first_url", VStr first_page_url);
               ("crawl_url", VStr first_page_url); ("keyword", VStr keyword);
               ("area_code", VStr area_code); ("area_name", VStr area_name);
               ("status", VStr status); ("result", result)].

Definition page_result (today url keyword status : string) (result : value)
  : Job :=
  list_to_map [("today", VStr today); ("url", VStr url);
               ("first_url", VStr ""); ("crawl_url", VStr url);
               ("keyword", VStr keyword); ("status", VStr status);
               ("result", result)].

(** ** [build_url] and the page URLs *)

(** [SEARCH_API_URL] (constants.py 9). *)
Definition SEARCH_API_URL : string := "https://www.104.com.tw/jobs/search/list".

(** The bytes [urllib.parse.quote] never quotes: ASCII letters, digits and
    [_.-~]. *)
Definition always_safe (c : ascii) : bool :=
  let n := N_of_ascii c in
  ((65 <=? n) && (n <=? 90) || (97 <=? n) && (n <=? 122)
   || (48 <=? n) && (n <=? 57)
   || (n =? 95) || (n =? 46) || (n =? 45) || (n =? 126))%N.

Definition hex_digit (n : N) : ascii :=
  default "0"%char (String.get (N.to_nat n) "0123456789ABCDEF").

(** [quote(string, safe)]: the UTF-8 bytes of the string, each kept if it
    is always safe or in [safe], and written ['%{:02X}'] otherwise. *)
Fixpoint quote (safe : ascii -> bool) (s : string) : string :=
  match s with
  | "" => ""
  | String c s' =>
      if always_safe c || safe c
      then String c (quote safe s')
      else String "%" (String (hex_digit (N_of_ascii c / 16))
                         (String (hex_digit (N_of_ascii c mod 16))
                            (quote safe s')))
  end.

Definition blank (c : ascii) : bool := Ascii.eqb c " ".

(** [' ' in string] *)
Fixpoint has_blank (s : string) : bool :=
  match s with
  | "" => false
  | String c s' => blank c || has_blank s'
  end.

(** [string.replace(' ', '+')] *)
Fixpoint plus_for_blank (s : string) : string :=
  match s with
  | "" => ""
  | String c s' => String (if blank c then "+"%char else c) (plus_for_blank s')
  end.

(** [quote_plus(string)], with its default [safe='']: without a blank it
    is [quote]; otherwise the blanks are kept by [quote] and then replaced
    by [+]. *)
Definition quote_plus (s : string) : string :=
  if has_blank s then plus_for_blank (quote blank s)
  else quote (fun _ => false) s.

(** ['&'.join(l)] *)
Fixpoint join_amp (l : list string) : string :=
  match l with
  | [] => ""
  | [a] => a
  | a :: l' => (a ++ String "&" (join_amp l'))%string
  end.

(** [urlencode(query)] for a dict of strings, in the order of its items:
    [quote_plus(k) + '=' + quote_plus(v)] for each, joined by [&]. *)
Definition urlencode (query : list (string * string)) : string :=
  join_amp (map (fun kv : string * string =>
                   (quote_plus kv.1 ++ String "=" (quote_plus kv.2))%string)
                query).

(** [build_url] (searcher.py 70-112), for string arguments and an integer
    page, which [urlencode] writes with [str]. *)
Definition build_url (keyword : string) (page : Z)
    (area industry job_category experience education : string) : string :=
  (SEARCH_API_URL ++ String "?"
     (urlencode [("keyword", keyword); ("page", pretty page); ("area", area);
                 ("industry", industry); ("jobCat", job_category);
                 ("exp", experience); ("edu", education); ("mode", "s");
                 ("jobsource", "index")]))%string.

(** The page URLs of [get_first_page] (searcher.py 218-222):
    [for page_number in range(1, total_pages + 1)]. *)
Definition page_urls (keyword area_code : string) (total_pages : Z)
  : list string :=
  map (fun page_number => build_url keyword page_number area_code "" "" "" "")
      (seqZ 1 total_pages).

(** ** The two fetching tasks, run on their own over a [FileJobStorage] *)

(** [v[key]] with a string key: only a dict takes one. *)
Definition subscript (v : value) (key : string) : res value :=
  match v with
  | VDict d =>
      match assoc_get key d with
      | Some x => Ok x
      | None => Raise KeyError
      end
  | _ => Raise TypeError
  end.

(** [len(v)] *)
Definition py_len (v : value) : res nat :=
  match v with
  | VStr s => Ok (length (chars s))
  | VList l => Ok (length l)
  | VDict d => Ok (length d)
  | VNone | VInt _ => Raise TypeError
  end.

(** [v > 0] *)
Definition gt_zero (v : value) : res bool :=
  match v with
  | VInt n => Ok (0 <? n)
  | _ => Raise TypeError
  end.

(** The message of [search_jobs] for a response without [data]
    (searcher.py 135). *)
Definition no_data_message : string := "響應格式不正確，未找到'data'字段".

(** [search_jobs] (searcher.py 114-161) on the outcome of
    [http_adapter.get]; what it logs is evaluated, since evaluating it can
    raise. *)
Definition search_jobs (response : res value) : res value :=
  response_data ← response;
  has_error ← py_in (VStr "error") response_data;
  if has_error : bool
  then _ ← subscript response_data "error"; Ok response_data
  else
    has_data ← py_in (VStr "data") response_data;
    if negb has_data
    then Ok (VDict [("error", VStr no_data_message)])
    else
      data ← subscript response_data "data";
      has_total ← py_in (VStr "totalPage") data;
      _ ← (if has_total : bool then subscript data "totalPage" else Ok VNone);
      has_count ← py_in (VStr "totalCount") data;
      _ ← (if has_count : bool
           then total_jobs_count ← subscript data "totalCount";
                gt_zero total_jobs_count
           else Ok false);
      has_list ← py_in (VStr "list") data;
      _ ← (if has_list : bool
           then page_jobs ← subscript data "list"; py_len page_jobs
           else Ok O);
      Ok response_data.

(** [cached_result and cached_result.get("status") == "ok"]
    (searcher.py 200, 355). *)
Definition cached_ok (cached_result : option Job) : bool :=
  match cached_result with
  | Some r =>
      negb (bool_decide (r = ∅))
      && py_eq (default VNone (r !! "status")) (VStr "ok")
  | None => false
  end.

(** The [try] body of [get_first_page] up to the page list (searcher.py
    207-222); [range] wants an integer. *)
Definition first_page_urls (keyword area_code : string) (response : res value)
  : res (list string) :=
  first_page_response ← search_jobs response;
  data ← subscript first_page_response "data";
  total_pages ← subscript data "totalPage";
  match total_pages with
  | VInt n => Ok (page_urls keyword area_code n)
  | _ => Raise TypeError
  end.

(** [get_first_page] (searcher.py 178-268): the returned result and the
    cache of the storage; [response] is the outcome of the request for the
    first page, which is sent only after a miss. *)
Definition get_first_page (today keyword area_code area_name : string)
    (response : res value) (cache : FileJobStorage.search_cache)
  : Job * FileJobStorage.search_cache :=
  let first_page_url := build_url keyword 1 area_code "" "" "" "" in
  let cached_result :=
    FileJobStorage.get_search_result
      (first_page_filter today first_page_url) cache in
  if cached_ok cached_result
  then (default ∅ cached_result, cache)
  else
    let result :=
      match first_page_urls keyword area_code response with
      | Ok all_page_urls =>
          first_page_result today first_page_url keyword area_code area_name
            "ok" (VList (VStr <$> all_page_urls))
      | Raise _ =>
          first_page_result today first_page_url keyword area_code area_name
            "error" (VStr "")
      end in
    (result, (FileJobStorage.save_search_result result cache).2).

(** [search_with_semaphore] (searcher.py 339-400), likewise. *)
Definition search_with_semaphore (today keyword url : string)
    (response : res value) (cache : FileJobStorage.search_cache)
  : Job * FileJobStorage.search_cache :=
  let cached_result :=
    FileJobStorage.get_search_result (page_filter today url) cache in
  if cached_ok cached_result
  then (default ∅ cached_result, cache)
  else
    let result :=
      match search_jobs response with
      | Ok search_result => page_result today url keyword "ok" search_result
      | Raise _ => page_result today url keyword "error" (VStr "")
      end in
    (result, (FileJobStorage.save_search_result result cache).2).

(** The results [fetch_all_pages] keeps (searcher.py 451-455). *)
Definition successful_results (search_results : list Job) : list Job :=
  filter (fun result : Job =>
            py_eq (default VNone (result !! "status")) (VStr "ok") = true)
         search_results.

(** [v.get(key, fallback)]: only a dict has the method. *)
Definition get_or (v : value) (key : string) (fallback : value) : res value :=
  match v with
  | VDict d => Ok (default fallback (assoc_get key d))
  | _ => Raise AttributeError
  end.

(** [job[key] = x]: an existing key keeps its place. *)
Fixpoint assoc_set (key : string) (x : value) (d : list (string * value))
  : list (string * value) :=
  match d with
  | [] => [(key, x)]
  | (k, v) :: d' =>
      if String.eqb k key then (k, x) :: d' else (k, v) :: assoc_set key x d'
  end.

Definition setitem (job : value) (key : string) (x : value) : res value :=
  match job with
  | VDict d => Ok (VDict (assoc_set key x d))
  | _ => Raise TypeError
  end.

(** [list(v)]: the items a [for] or [extend] goes through. *)
Definition iterate (v : value) : res (list value) :=
  match v with
  | VList l => Ok l
  | VStr s => Ok (VStr <$> chars s)
  | VDict d => Ok ((fun kv : string * value => VStr kv.1) <$> d)
  | VNone | VInt _ => Raise TypeError
  end.

(** [extract_jobs_from_results] (searcher.py 468-500): the returned
    list. *)
Definition extract_jobs_from_results (search_results : list Job)
    (keyword : string) : res (list value) :=
  for_each
    (fun (all_jobs : list value) (result : Job) =>
       response_data ← Ok (default (VDict []) (result !! "result"));
       data ← get_or response_data "data" (VDict []);
       jobs_in_result ← get_or data "list" (VList []);
       if truthy jobs_in_result
       then
         jobs ← iterate jobs_in_result;
         jobs ← (if truthy (VStr keyword)
                 then map_each (fun job =>
                                  setitem job "search_keyword" (VStr keyword))
                               jobs
                 else Ok jobs);
         Ok (all_jobs ++ jobs)
       else Ok all_jobs)
    [] search_results.

End JobSearcher.

(* ===================================================================== *)
(** * Notions of the specification                                        *)
(* ===================================================================== *)

Definition group_of (cls : list string) (g : list string) : Prop :=
  exists p x,
    g = p ++ [x] /\ Forall (fun c => dot c = true) p /\ char_in cls x = true.

Definition city_then_district (address : string) (city district : list string)
  : Prop :=
  exists tail,
    chars address = city ++ district ++ tail /\ at_end tail = true /\
    group_of city_suffix city /\ group_of district_suffix district.

Definition city_only (address : string) (city : list string) : Prop :=
  exists tail,
    chars address = city ++ tail /\ at_end tail = true /\
    group_of city_suffix city.

(** The listing ID of a record: its [jobNo], when that is a non-empty
    string. *)
Definition listing_id (job : Job) : option string :=
  match job !! "jobNo" with
  | Some (VStr s) => if String.eqb s "" then None else Some s
  | _ => None
  end.

(** The keyword a raw record was found under. *)
Definition keyword_of (job : Job) : option string :=
  match job !! "search_keyword" with
  | Some (VStr s) => Some s
  | _ => None
  end.

(** A raw listing, as the fetch step hands it to the merge: [jobNo] is
    missing, [None] or a string; [search_keyword] is missing or the
    non-empty keyword the record was stamped with. *)
Definition raw_listing (job : Job) : bool :=
  match job !! "jobNo" with
  | None | Some VNone | Some (VStr _) => true
  | _ => false
  end &&
  match job !! "search_keyword" with
  | None => true
  | Some (VStr s) => negb (String.eqb s "")
  | _ => false
  end.

(** The records of a batch that carry a given listing ID, in order. *)
Definition group (lid : string) (jobs : list Job) : list Job :=
  filter (fun job => listing_id job = Some lid) jobs.

Definition str_keys {V : Type} (d : pydict V) : Prop :=
  Forall (fun e => is_str e.1 = true) d.

Definition merged_record (pre : list Job) (lid : string) (o : Job) : Prop :=
  exists first rest kws,
    group lid pre = first :: rest /\
    (forall f, f <> "search_keyword" -> o !! f = first !! f) /\
    o !! "search_keyword" = Some (VList (VStr <$> kws)) /\
    NoDup kws /\
    (forall w, w ∈ kws <-> exists j, j ∈ first :: rest /\ keyword_of j = Some w).

Definition merge_inv (pre : list Job) (m : pydict Job) : Prop :=
  Forall (fun e => exists lid, e.1 = VStr lid /\ merged_record pre lid e.2) m /\
  NoDup (dict_keys m) /\
  (forall lid, VStr lid ∈ dict_keys m <-> group lid pre <> []).

(** The keywords of a first-seen record after one more member of its
    group. *)
Definition add_keyword (kws : list string) (j : Job) : list string :=
  match keyword_of j with
  | Some w => if decide (w ∈ kws) then kws else kws ++ [w]
  | None => kws
  end.

(** A stamped listing, as [Crawler.main] hands it to the merge: it has a
    listing ID and the keyword it was found under. *)
Definition stamped_listing (job : Job) : bool :=
  match job !! "jobNo" with
  | Some (VStr s) => negb (String.eqb s "")
  | _ => false
  end &&
  match job !! "search_keyword" with
  | Some (VStr s) => negb (String.eqb s "")
  | _ => false
  end.

Definition raw (lid kw title : string) : Job :=
  <["jobNo" := VStr lid]> (<["search_keyword" := VStr kw]>
    (<["title" := VStr title]> ∅)).

(** [job.get('jobNo')] is truthy: the record carries a listing ID. *)
Definition has_job_id (job : Job) : bool :=
  truthy (default VNone (job !! "jobNo")).

Definition no_id (kw title : string) : Job :=
  <["search_keyword" := VStr kw]> (<["title" := VStr title]> ∅).

(** The coupling of [status] and [delisted_date] in a stored listing. *)
Definition coupled (doc : Job) : bool :=
  Bool.eqb (MongoDBManager.has_status "inactive" doc)
           (bool_decide (is_Some (doc !! "delisted_date")))
  && Bool.eqb (MongoDBManager.has_status "active" doc)
              (negb (bool_decide (is_Some (doc !! "delisted_date")))).

(** What [update_job_status] does to a listing it selects. *)
Definition deactivated (today : string) (doc doc' : Job) : Prop :=
  doc' !! "status" = Some (VStr "inactive") /\
  doc' !! "delisted_date" = Some (VStr today) /\
  doc' !! "last_update_date" = Some (VStr today) /\
  forall f, f <> "status" -> f <> "delisted_date" -> f <> "last_update_date" ->
            doc' !! f = doc !! f.

(** What [reactivate_jobs] does to a listing it selects. *)
Definition reactivated (today : string) (doc doc' : Job) : Prop :=
  doc' !! "status" = Some (VStr "active") /\
  doc' !! "delisted_date" = None /\
  doc' !! "last_update_date" = Some (VStr today) /\
  forall f, f <> "status" -> f <> "delisted_date" -> f <> "last_update_date" ->
            doc' !! f = doc !! f.

(** A record written out field by field. *)
Definition record (fields : list (string * value)) : Job := list_to_map fields.

(** The listing of the scenarios, as the site returns it. *)
Definition site_listing (lid title : string) : Job :=
  <["jobNo" := VStr lid]> (<["jobName" := VStr title]> ∅).

(** A stored listing that was delisted on some day. *)
Definition delisted (day : string) (doc : Job) : Job :=
  <["delisted_date" := VStr day]> (<["status" := VStr "inactive"]> doc).

(** A [split_link_field] for the scenarios, whose listings have no [link]. *)
Definition no_links (s : string) : string * string * string := ("", "", "").

(** The listing A1 as it is stored once a run of 2024-05-01 under the
    keyword python has saved it over a document delisted on 2024-01-01. *)
Definition a1_saved : Job :=
  record [("jobNo", VStr "A1"); ("jobName", VStr "Engineer");
          ("area_code", VStr ""); ("area_name", VStr "");
          ("crawl_date", VStr "2024-05-01");
          ("search_keyword", VList [VStr "python"]);
          ("status", VStr "active");
          ("last_update_date", VStr "2024-05-01");
          ("delisted_date", VStr "2024-01-01");
          ("mongodb_update_time", VStr "2024-05-01T08:00:00")].

(** The listing A1 as a first run under python and java stores it, and
    as a second run under python alone leaves it. *)
Definition a1_first_run : Job :=
  record [("jobNo", VStr "A1"); ("jobName", VStr "Engineer");
          ("area_code", VStr ""); ("area_name", VStr "");
          ("crawl_date", VStr "2024-05-01");
          ("search_keyword", VList [VStr "python"; VStr "java"]);
          ("status", VStr "active");
          ("last_update_date", VStr "2024-05-01");
          ("discovery_date", VStr "2024-05-01");
          ("mongodb_update_time", VStr "2024-05-01T08:00:00")].

Definition a1_second_run : Job :=
  record [("jobNo", VStr "A1"); ("jobName", VStr "Engineer");
          ("area_code", VStr ""); ("area_name", VStr "");
          ("crawl_date", VStr "2024-05-02");
          ("search_keyword", VList [VStr "python"]);
          ("status", VStr "active");
          ("last_update_date", VStr "2024-05-02");
          ("discovery_date", VStr "2024-05-01");
          ("mongodb_update_time", VStr "2024-05-02T08:00:00")].

(** A record as the merge leaves it: it carries a hashable, truthy
    listing ID and a keyword field that is not a bare string. *)
Definition merged_entry (e : value * Job) : Prop :=
  e.2 !! "jobNo" = Some e.1 /\ truthy e.1 = true /\ hashable e.1 = true /\
  exists v, e.2 !! "search_keyword" = Some v /\ is_str v = false.

(** No key equals (in the sense of [==]) a key before it. *)
Fixpoint fresh_keys (seen ks : list value) : Prop :=
  match ks with
  | [] => True
  | k :: ks' =>
      existsb (fun k' => py_eq k' k) seen = false /\ fresh_keys (seen ++ [k]) ks'
  end.

Definition keyed (m : pydict Job) : Prop :=
  Forall merged_entry m /\ fresh_keys [] (dict_keys m).

Definition key_of (o : Job) : value := default VNone (o !! "jobNo").

(** A list of records as a reconciliation returns it: one record per
    listing ID, keywords as lists. *)
Definition reconciled (out : list Job) : Prop :=
  keyed (map (fun o => (key_of o, o)) out).

(** Records that agree on the listing ID and on the keywords. *)
Definition same_identity (o o' : Job) : Prop :=
  o' !! "jobNo" = o !! "jobNo" /\ o' !! "search_keyword" = o !! "search_keyword".

(** The adapter as [JobSearcher] and [Crawler] configure it. *)
Definition crawler_adapter : HttpAdapter.adapter :=
  {| HttpAdapter.max_retries := MAX_RETRIES;
     HttpAdapter.min_retry_delay := 3 # 2;
     HttpAdapter.max_retry_delay := 5 # 1;
     HttpAdapter.rotate_user_agent := true |}.

(** A server that answers 429 with [Retry-After: 10] once, then 200. *)
Definition throttled_once (attempt : nat) : HttpAdapter.answer :=
  match attempt with
  | O => HttpAdapter.Status 429 (HttpAdapter.Seconds 10)
  | _ => HttpAdapter.Status 200 HttpAdapter.Missing
  end.

(** ** The transport *)

Definition is_request (e : HttpAdapter.event) : bool :=
  match e with HttpAdapter.Request => true | _ => false end.

(** The number of requests a trace sends. *)
Definition requests_sent (events : list HttpAdapter.event) : nat :=
  length (filter (fun e => is_request e = true) events).

(** An answer that ends the call with the payload: a response with a 2xx
    status. *)
Definition success (a : HttpAdapter.answer) : bool :=
  match a with
  | HttpAdapter.Status status_code _ =>
      (200 <=? status_code) && (status_code <? 300)
  | HttpAdapter.Failure => false
  end.

(** What the adapter does after a request that it retries: nothing, a new
    User-Agent (403), or the sleep a 429 asks for. *)
Definition reaction (r : list HttpAdapter.event) : Prop :=
  r = [] \/ r = [HttpAdapter.UpdateUserAgent] \/
  exists seconds, r = [HttpAdapter.Sleep seconds].

(** The trace of consecutive attempts, from attempt [k] on: each one is
    the jittered delay of its number (none for the first), the request,
    and the reaction to the answer. *)
Fixpoint rounds (self : HttpAdapter.adapter) (k : nat)
    (reactions : list (list HttpAdapter.event)) : list HttpAdapter.event :=
  match reactions with
  | [] => []
  | r :: reactions' =>
      HttpAdapter.retry_delay self k ++ [HttpAdapter.Request] ++ r
        ++ rounds self (S k) reactions'
  end.



Definition absolute (url : string) : bool :=
  String.prefix "http://" url || String.prefix "https://" url.

(** ** The stores *)

(** Every listing of the in-memory cache of [FileJobStorage] satisfies
    the coupling of [status] and [delisted_date]. *)
Definition coupled_cache (cache : pydict Job) : Prop :=
  Forall (fun entry : value * Job => coupled entry.2 = true) cache.

Definition coupled_docs (docs : list Job) : Prop :=
  Forall (fun doc : Job => coupled doc = true) docs.

(** A stored active listing with no delisted date, and a stored listing
    delisted on 2024-01-01. *)
Definition stored_active : Job :=
  JobDataProcessor.add_metadata_one "2024-04-30" "python"
    (site_listing "A1" "Engineer").

Definition stored_inactive : Job :=
  delisted "2024-01-01"
    (JobDataProcessor.add_metadata_one "2023-12-01" "python"
       (site_listing "B2" "Clerk")).

(** One operation of the bulk write of [insert_jobs]
    (mongodb_manager.py 138-151). *)
Definition upsert_op (today : string) (docs : list Job) (op : value * Job)
  : res (list Job) :=
  let '(id, job) := op in
  match job !! "discovery_date" with
  | Some _ => Raise WriteError
  | None => Ok (MongoDBManager.update_one_upsert today id job docs)
  end.

(** The filter and the record of the operation built for a record. *)
Definition operation_of (job : Job) : res (value * Job) :=
  match job !! "jobNo" with
  | Some id => Ok (id, job)
  | None => Raise KeyError
  end.

(** The collection after a run of 2024-05-02 has saved A1 again and C3
    for the first time. *)
Definition saved_twice : list Job :=
  [record [("jobNo", VStr "A1"); ("jobName", VStr "Engineer");
           ("area_code", VStr ""); ("area_name", VStr "");
           ("crawl_date", VStr "2024-05-02");
           ("search_keyword", VStr "python");
           ("status", VStr "active");
           ("last_update_date", VStr "2024-05-02");
           ("discovery_date", VStr "2024-05-01");
           ("mongodb_update_time", VStr "2024-05-02T08:00:00")];
   record [("jobNo", VStr "C3"); ("jobName", VStr "Analyst");
           ("area_code", VStr ""); ("area_name", VStr "");
           ("crawl_date", VStr "2024-05-02");
           ("search_keyword", VStr "python");
           ("status", VStr "active");
           ("last_update_date", VStr "2024-05-02");
           ("discovery_date", VStr "2024-05-02");
           ("mongodb_update_time", VStr "2024-05-02T08:00:00")]].

(** ** The reconciliation *)

(** The fields [process_jobs] writes: the merged keywords, the three
    status fields and the five derived fields. *)
Definition reconcile_fields : list string :=
  ["search_keyword"; "last_update_date"; "status"; "delisted_date";
   "applyAnalyze"; "job"; "cust"; "city"; "district"].

(** The prior state does not hold the listing as inactive. *)
Definition not_inactive (existing_jobs : pydict value) (lid : string) : Prop :=
  forall status,
    dict_get (VStr lid) existing_jobs = Some status ->
    py_eq status (VStr JOB_STATUS_INACTIVE) = false.

(** A record after the status step: as it was, or as [status_one] leaves
    it. *)
Definition after_status (today : string) (existing_jobs : pydict value)
    (o o1 : Job) : Prop :=
  o1 = o \/ JobDataProcessor.status_one today existing_jobs o = Ok o1.

(** The collection holds a listing with a given ID. *)
Definition stored (lid : string) (docs : list Job) : Prop :=
  exists doc, doc ∈ docs /\ doc !! "jobNo" = Some (VStr lid).

(** A record that a save writes under the listing ID: its [jobNo] is this
    ID. *)
Definition saved_under (lid : string) (job : Job) : bool :=
  match job !! "jobNo" with
  | Some (VStr s) => String.eqb s lid
  | _ => false
  end.

(** The record of a batch that a save writes last under a listing ID,
    if it writes one: the record [FileJobStorage.save_jobs] leaves in its
    cache, and the one whose fields the [$set] of [insert_jobs] leaves in
    the stored listing. *)
Definition last_saved (lid : string) (jobs : list Job) : option Job :=
  last (filter (fun job : Job => saved_under lid job = true) jobs).

(** ** The gate of the searcher *)

Definition all_finished (s : JobSearcher.state) : Prop :=
  Forall (fun t : JobSearcher.kind * JobSearcher.pc => t.2 = JobSearcher.Finished)
         (JobSearcher.tasks s).

(** ** The cache of search results *)

(** A cache of [FileJobStorage] as the searcher fills it: every entry is
    a result of [get_first_page] or of [search_with_semaphore] for a
    keyword and a URL that are not empty. *)
Inductive searcher_cache : FileJobStorage.search_cache -> Prop :=
| searcher_cache_empty : searcher_cache []
| searcher_cache_first_page cache today url keyword area_code area_name
    status result :
    searcher_cache cache -> keyword <> "" -> url <> "" ->
    searcher_cache
      (FileJobStorage.save_search_result
         (JobSearcher.first_page_result today url keyword area_code area_name
            status result) cache).2
| searcher_cache_page cache today url keyword status result :
    searcher_cache cache -> keyword <> "" -> url <> "" ->
    searcher_cache
      (FileJobStorage.save_search_result
         (JobSearcher.page_result today url keyword status result) cache).2.

(** The keyword and the crawl URL of a key are non-empty strings. *)
Definition full_key (k : FileJobStorage.search_key) : Prop :=
  let '(_, keyword, _, crawl_url) := k in
  (exists s, keyword = VStr s /\ s <> "") /\
  (exists s, crawl_url = VStr s /\ s <> "").

(** ** The link field *)

(** What [split_link_field] returns for a key: nothing, or an [https:]
    URL whose part after [https://] is not empty and has no comma and no
    closing brace. *)
Definition extracted_url (url : string) : Prop :=
  url = "" \/
  exists run,
    run <> [] /\ Forall (fun c => url_char c = true) run /\
    url = ("https://" ++ join run)%string.

(** A character of a URL of a well-formed link string: not a comma, a
    closing brace or a quote. *)
Definition plain (c : string) : bool :=
  url_char c && negb (String.eqb c "'").

(** The characters of a link string in the format the site uses:
    [{'applyAnalyze': //..., 'job': //..., 'cust': //...}], with any
    whitespace after the colons. *)
Definition link_chars (sp1 r1 sp2 r2 sp3 r3 : list string) : list string :=
  ["{"] ++ key_literal "applyAnalyze" ++ sp1 ++ "/" :: "/" :: r1 ++
  [","; " "] ++ key_literal "job" ++ sp2 ++ "/" :: "/" :: r2 ++
  [","; " "] ++ key_literal "cust" ++ sp3 ++ "/" :: "/" :: r3 ++ ["}"].

(** The whitespace after a colon, and the part of a URL after its [//]. *)
Definition link_part (sp r : list string) : Prop :=
  Forall (fun c => is_space c = true) sp /\ r <> [] /\
  Forall (fun c => plain c = true) r.

(** A link string of the site, with shortened URLs. *)
Definition link_5znmj : string :=
  "{'applyAnalyze': //www.104.com.tw/jobs/apply/analysis/5znmj, 'job': //www.104.com.tw/job/5znmj, 'cust': //www.104.com.tw/company/oye0i0}".

(** ** Saving and the coupling *)

(** A record as a run hands it to the save: it has a listing ID, it is
    active and it has no delisted date. *)
Definition fresh_record (job : Job) : Prop :=
  (exists lid, job !! "jobNo" = Some (VStr lid)) /\
  job !! "status" = Some (VStr "active") /\
  job !! "delisted_date" = None.

(** No stored listing that a record of the batch will be written over
    carries a delisted date. *)
Definition no_delisted_match (jobs docs : list Job) : Prop :=
  forall doc job,
    doc ∈ docs -> job ∈ jobs -> doc !! "jobNo" = job !! "jobNo" ->
    doc !! "delisted_date" = None.

(** A record as [Crawler.main] stamps it (crawler.py 645-650): it has a
    listing ID and the keyword it was found under, it is active, and the
    site gave it no delisted date. *)
Definition stamped_record (job : Job) : Prop :=
  stamped_listing job = true /\
  job !! "status" = Some (VStr "active") /\
  job !! "delisted_date" = None.

(** The stored listings have string IDs, each its own: the unique index
    on [jobNo] (mongodb_manager.py 101). *)
Definition unique_ids (docs : list Job) : Prop :=
  Forall (fun doc : Job => exists lid, doc !! "jobNo" = Some (VStr lid)) docs /\
  NoDup ((fun doc : Job => doc !! "jobNo") <$> docs).

(** One turn of the loop of [MongoDBManager.get_existing_jobs]
    (mongodb_manager.py 258-263). *)
Definition existing_step (existing_job_dict : pydict value) (job : Job)
  : res (pydict value) :=
  match job !! "jobNo" with
  | Some id =>
      if hashable id
      then Ok (dict_set id (default (VStr "active") (job !! "status"))
                 existing_job_dict)
      else Raise TypeError
  | None => Ok existing_job_dict
  end.

(** ** Reading a search URL back *)

(** The value of a hexadecimal digit as [quote] writes it. *)
Definition hex_value (c : ascii) : N :=
  let n := N_of_ascii c in
  (if n <=? 57 then n - 48 else n - 55)%N.

(** Reading a quoted string back: [+] is a blank, [%XY] the byte [XY]. *)
Fixpoint unquote_plus (s : string) : string :=
  match s with
  | "" => ""
  | String c s' =>
      if Ascii.eqb c "%"
      then match s' with
           | String a (String b s'') =>
               String (ascii_of_N (16 * hex_value a + hex_value b))
                      (unquote_plus s'')
           | _ => s
           end
      else String (if Ascii.eqb c "+" then " "%char else c) (unquote_plus s')
  end.

(** No byte of the string is [&]. *)
Fixpoint amp_free (s : string) : bool :=
  match s with
  | "" => true
  | String c s' => negb (Ascii.eqb c "&") && amp_free s'
  end.

(** A listing that carries the keyword it was found under. *)
Definition found_under (keyword : string) (job : value) : Prop :=
  exists d, job = VDict d /\ assoc_get "search_keyword" d = Some (VStr keyword).

(** No byte of the string is [?]. *)
Fixpoint mark_free (s : string) : bool :=
  match s with
  | "" => true
  | String c s' => negb (Ascii.eqb c "?") && mark_free s'
  end.

(** A result of [search_with_semaphore] for a page of some keyword
    (searcher.py 366-374): it carries the keyword, and as [url] a URL that
    [build_url] made for this keyword. *)
Definition fetched_result (result : Job) : Prop :=
  exists keyword page area industry job_category experience education,
    result !! "keyword" = Some (VStr keyword) /\
    result !! "url" =
      Some (VStr (JobSearcher.build_url keyword page area industry
                    job_category experience education)).

(** A URL that [build_url] made for the keyword. *)
Definition url_of_keyword (keyword url : string) : Prop :=
  exists page area industry job_category experience education,
    url = JobSearcher.build_url keyword page area industry job_category
            experience education.

(** The results whose [keyword] is the keyword. *)
Definition results_of (keyword : string) (search_results : list Job)
  : list Job :=
  filter (fun result : Job =>
            py_eq (default VNone (result !! "keyword")) (VStr keyword) = true)
         search_results.

(* ===================================================================== *)
(** * Properties                                                          *)

(** Closed equations between a run of the model and its result are
    checked by evaluation of both sides. *)
Ltac by_evaluation :=
  cbv zeta; repeat apply conj;
  lazymatch goal with
  | |- @eq ?T _ ?b => vm_cast_no_check (@eq_refl T b)
  end.
(* ===================================================================== *)

(** ** Field normalisation: [split_city_district] *)

Section LazyGroup.

Context {R : Type} (cls : list string)
        (k : list string -> list string -> option R).

Lemma lazy_group_sound (s taken : list string) (r : R) :
  lazy_group cls k taken s = Some r ->
  exists p x rest,
    s = p ++ x :: rest /\
    Forall (fun c => dot c = true) p /\
    char_in cls x = true /\
    k (taken ++ p ++ [x]) rest = Some r /\
    (forall p' x' rest',
        s = p' ++ x' :: rest' -> (length p' < length p)%nat ->
        char_in cls x' = true -> k (taken ++ p' ++ [x']) rest' = None).
Proof.
  revert taken. induction s as [|c s IH]; intros taken H; [discriminate|].
  simpl in H.
  destruct (if char_in cls c then k (taken ++ [c]) s else None) as [r'|] eqn:Hk.
  - injection H as ->. destruct (char_in cls c) eqn:Hc; [|discriminate].
    exists [], c, s. simpl. repeat split; auto.
    intros p' x' rest' _ Hlt. simpl in Hlt. lia.
  - destruct (dot c) eqn:Hd; [|discriminate].
    apply IH in H as (p & x & rest & -> & Hp & Hx & Hkr & Hmin).
    exists (c :: p), x, rest. repeat split; auto.
    + by rewrite <- app_assoc in Hkr.
    + intros p' x' rest' Heq Hlt Hx'.
      destruct p' as [|c' p'].
      * simpl in Heq. injection Heq as <- <-. rewrite Hx' in Hk. exact Hk.
      * simpl in Heq. injection Heq as <- Heq.
        simpl in Hlt. specialize (Hmin p' x' rest' Heq ltac:(lia) Hx').
        by rewrite <- app_assoc in Hmin.
Qed.

Lemma lazy_group_complete (p : list string) (x : string) (rest taken : list string) :
  Forall (fun c => dot c = true) p ->
  char_in cls x = true ->
  is_Some (k (taken ++ p ++ [x]) rest) ->
  is_Some (lazy_group cls k taken (p ++ x :: rest)).
Proof.
  revert taken. induction p as [|c p IH]; intros taken Hp Hx Hk; simpl.
  - rewrite Hx. simpl in Hk. destruct Hk as [r ->]. by eexists.
  - destruct (if char_in cls c then k (taken ++ [c]) (p ++ x :: rest) else None);
      [by eexists|].
    inversion Hp as [|? ? Hc Hp']; subst. rewrite Hc.
    apply IH; auto. by rewrite <- app_assoc.
Qed.

End LazyGroup.

Lemma re_match1_sound (cls : list string) (s : list string) (l : list string) :
  re_match [cls] s = Some l ->
  exists g tail,
    l = [join g] /\ s = g ++ tail /\ at_end tail = true /\ group_of cls g.
Proof.
  intros H. simpl in H.
  apply lazy_group_sound in H as (p & x & rest & -> & Hp & Hx & Hk & _).
  simpl in Hk. destruct (at_end rest) eqn:He; [|discriminate].
  injection Hk as <-.
  exists (p ++ [x]), rest. repeat split; auto.
  - by rewrite <- app_assoc.
  - by exists p, x.
Qed.

Lemma re_match1_complete (cls : list string) (g tail : list string) :
  group_of cls g -> at_end tail = true ->
  exists l, re_match [cls] (g ++ tail) = Some l.
Proof.
  intros (p & x & -> & Hp & Hx) He. simpl.
  rewrite <- app_assoc. simpl.
  apply (lazy_group_complete cls _ p x tail []); auto.
  simpl. rewrite He. by eexists.
Qed.

Lemma re_match2_sound (c1 c2 : list string) (s : list string) (l : list string) :
  re_match [c1; c2] s = Some l ->
  exists g1 g2 tail,
    l = [join g1; join g2] /\ s = g1 ++ g2 ++ tail /\ at_end tail = true /\
    group_of c1 g1 /\ group_of c2 g2 /\
    (forall g1' g2' tail',
        s = g1' ++ g2' ++ tail' -> at_end tail' = true ->
        group_of c1 g1' -> group_of c2 g2' ->
        (length g1 <= length g1')%nat).
Proof.
  intros H. change (re_match [c1; c2] s) with
    (lazy_group c1
       (fun g rest => gs ← re_match [c2] rest; Some (join g :: gs)) [] s) in H.
  apply lazy_group_sound in H as (p & x & rest & -> & Hp & Hx & Hk & Hmin).
  cbv beta in Hk.
  destruct (re_match [c2] rest) as [gs|] eqn:H2; [|discriminate].
  simpl in Hk. injection Hk as <-.
  apply re_match1_sound in H2 as (g2 & tail & -> & -> & He & Hg2).
  exists (p ++ [x]), g2, tail. repeat split; auto.
  - by rewrite <- app_assoc.
  - by exists p, x.
  - intros g1' g2' tail' Heq He' (p' & x' & -> & Hp' & Hx') Hg2'.
    rewrite !length_app. simpl.
    destruct (decide (length p' < length p)%nat) as [Hlt|]; [|lia].
    exfalso. rewrite <- app_assoc in Heq. simpl in Heq.
    specialize (Hmin p' x' (g2' ++ tail') Heq Hlt Hx'). cbv beta in Hmin.
    destruct (re_match1_complete c2 g2' tail' Hg2' He') as [l' Hl'].
    rewrite Hl' in Hmin. discriminate.
Qed.

Lemma re_match2_complete (c1 c2 : list string) (g1 g2 tail : list string) :
  group_of c1 g1 -> group_of c2 g2 -> at_end tail = true ->
  exists l, re_match [c1; c2] (g1 ++ g2 ++ tail) = Some l.
Proof.
  intros (p & x & -> & Hp & Hx) Hg2 He.
  change (re_match [c1; c2] ((p ++ [x]) ++ g2 ++ tail)) with
    (lazy_group c1
       (fun g rest => gs ← re_match [c2] rest; Some (join g :: gs)) []
       ((p ++ [x]) ++ g2 ++ tail)).
  rewrite <- app_assoc. cbn [app].
  apply (lazy_group_complete c1 _ p x (g2 ++ tail) []); auto.
  destruct (re_match1_complete c2 g2 tail Hg2 He) as [l Hl].
  cbv beta. rewrite Hl. by eexists.
Qed.

(** The part of a string before [$] is determined by the string when it
    ends with a character of a class without the newline. *)
Lemma city_only_unique (g g' tail tail' : list string) :
  g ++ tail = g' ++ tail' -> at_end tail = true -> at_end tail' = true ->
  group_of city_suffix g -> group_of city_suffix g' -> g' = g.
Proof.
  intros Heq He He' (p & x & -> & _ & Hx) (p' & x' & -> & _ & Hx').
  assert (Hnl : forall c, char_in city_suffix c = true -> c <> newline).
  { intros c Hc ->. vm_compute in Hc. discriminate. }
  destruct tail as [|t [|? ?]], tail' as [|t' [|? ?]]; try discriminate.
  - rewrite !app_nil_r in Heq. done.
  - simpl in He'. apply String.eqb_eq in He' as ->.
    rewrite app_nil_r in Heq. apply app_inj_tail in Heq as [_ ->].
    by apply Hnl in Hx.
  - simpl in He. apply String.eqb_eq in He as ->.
    rewrite app_nil_r in Heq. symmetry in Heq.
    apply app_inj_tail in Heq as [_ ->]. by apply Hnl in Hx'.
  - apply app_inj_tail in Heq as [Heq _]. done.
Qed.

(** [chars] only groups the bytes: joining the characters gives the
    string back. *)
Lemma join_chars (s : string) : join (chars s) = s.
Proof.
  induction s as [|a s IH]; [done|].
  simpl. destruct (chars s) as [|c cs] eqn:Hc.
  - simpl in IH. by rewrite <- IH.
  - destruct (starts_with_continuation c); simpl in *; by rewrite <- IH.
Qed.

Example split_city_district_examples :
  split_city_district "新竹市東區" = ("新竹市", "東區") /\
  split_city_district "不明地址" = ("", "不明地址") /\
  split_city_district "台北市" = ("台北市", "") /\
  split_city_district "新竹縣竹北市" = ("新竹縣", "竹北市").
Proof. repeat split; reflexivity. Qed.

(** C9.  [split_city_district] is a total function, and on every address:
    when the address reads as a city ending in a city suffix followed by a
    district ending in a district suffix, the result is such a reading (the
    one with the shortest city); when it has no such reading and is a city
    ending in a city suffix, the result is the city and the empty string;
    when it has neither reading, the result is the empty string and the
    address itself.  The two addresses of the specification split as
    stated. *)
Theorem split_city_district_spec (address : string) :
  (forall city district,
      city_then_district address city district ->
      exists c d,
        split_city_district address = (join c, join d) /\
        city_then_district address c d /\ (length c <= length city)%nat) /\
  ((forall city district, ~ city_then_district address city district) ->
   forall city,
     city_only address city ->
     split_city_district address = (join city, "")) /\
  ((forall city district, ~ city_then_district address city district) ->
   (forall city, ~ city_only address city) ->
   split_city_district address = ("", address)) /\
  split_city_district "新竹市東區" = ("新竹市", "東區") /\
  split_city_district "不明地址" = ("", "不明地址").
Proof.
  unfold split_city_district, city_patterns. cbn [split_with].
  split; [|split; [|split; [|split; reflexivity]]].
  - intros city district (tail & Hs & He & Hc & Hd).
    destruct (re_match2_complete _ _ _ _ _ Hc Hd He) as [l Hl].
    rewrite <- Hs in Hl. rewrite Hl.
    apply re_match2_sound in Hl as (g1 & g2 & tail' & -> & Hs' & He' & Hg1 & Hg2 & Hmin).
    exists g1, g2. split; [done|]. split.
    + by exists tail'.
    + by apply (Hmin city district tail).
  - intros Hno city (tail & Hs & He & Hc).
    destruct (re_match [city_suffix; district_suffix] (chars address)) as [l|] eqn:H2.
    { apply re_match2_sound in H2 as (g1 & g2 & tail' & -> & Hs' & He' & Hg1 & Hg2 & _).
      exfalso. apply (Hno g1 g2). by exists tail'. }
    destruct (re_match1_complete _ _ _ Hc He) as [l Hl].
    rewrite <- Hs in Hl. rewrite Hl.
    apply re_match1_sound in Hl as (g & tail' & -> & Hs' & He' & Hg).
    rewrite Hs in Hs'.
    by rewrite (city_only_unique _ _ _ _ Hs' He He' Hc Hg).
  - intros Hno2 Hno1.
    destruct (re_match [city_suffix; district_suffix] (chars address)) as [l|] eqn:H2.
    { apply re_match2_sound in H2 as (g1 & g2 & tail' & -> & Hs' & He' & Hg1 & Hg2 & _).
      exfalso. apply (Hno2 g1 g2). by exists tail'. }
    destruct (re_match [city_suffix] (chars address)) as [l|] eqn:H1; [|done].
    apply re_match1_sound in H1 as (g & tail' & -> & Hs' & He' & Hg).
    exfalso. apply (Hno1 g). by exists tail'.
Qed.

(* ---- spec-level definitions ---- *)

(* ---- lemmas ---- *)

Lemma map_fmap {A B : Type} (f : A -> B) (l : list A) : map f l = f <$> l.
Proof. induction l as [|x l IH]; [done|]. simpl. by rewrite IH. Qed.

Lemma lookup_map {A B : Type} (f : A -> B) (l : list A) (i : nat) (x : A) :
  l !! i = Some x -> map f l !! i = Some (f x).
Proof. intros H. by rewrite map_fmap, list_lookup_fmap, H. Qed.

Lemma py_eq_str (a b : string) : py_eq (VStr a) (VStr b) = bool_decide (a = b).
Proof.
  simpl. destruct (String.eqb_spec a b).
  - by rewrite bool_decide_eq_true_2.
  - by rewrite bool_decide_eq_false_2.
Qed.

Lemma dict_get_str_None {V : Type} (d : pydict V) (lid : string) (v : V) :
  str_keys d -> dict_get (VStr lid) d = None ->
  (VStr lid ∉ dict_keys d) /\ dict_set (VStr lid) v d = d ++ [(VStr lid, v)].
Proof.
  induction d as [|[k o] d IH]; intros Hk Hg; simpl in *.
  - split; [apply not_elem_of_nil|done].
  - inversion Hk as [|? ? Hs Hk']; subst. simpl in Hs.
    destruct k as [| |s| |]; try discriminate.
    rewrite py_eq_str in *. case_bool_decide as Hsid; [discriminate|].
    destruct (IH Hk' Hg) as [Hn ->]. split; [|done].
    rewrite not_elem_of_cons. split; [congruence|done].
Qed.

Lemma dict_get_str_Some {V : Type} (d : pydict V) (lid : string) (o : V) :
  str_keys d -> dict_get (VStr lid) d = Some o ->
  exists d1 d2,
    d = d1 ++ (VStr lid, o) :: d2 /\ (VStr lid ∉ dict_keys d1) /\
    forall v, dict_set (VStr lid) v d = d1 ++ (VStr lid, v) :: d2.
Proof.
  induction d as [|[k o'] d IH]; intros Hk Hg; simpl in *; [discriminate|].
  inversion Hk as [|? ? Hs Hk']; subst. simpl in Hs.
  destruct k as [| |s| |]; try discriminate.
  rewrite py_eq_str in *. case_bool_decide as Hsid.
  - injection Hg as ->. subst s. exists [], d.
    split; [done|]. split; [apply not_elem_of_nil|done].
  - destruct (IH Hk' Hg) as (d1 & d2 & -> & Hn & Hset).
    exists ((VStr s, o') :: d1), d2. split; [done|]. split.
    + simpl. rewrite not_elem_of_cons. split; [congruence|done].
    + intros v. by rewrite Hset.
Qed.

Lemma group_snoc (lid : string) (pre : list Job) (j : Job) :
  group lid (pre ++ [j]) =
  group lid pre ++ (if decide (listing_id j = Some lid) then [j] else []).
Proof.
  unfold group. by rewrite filter_app.
Qed.

Lemma existsb_py_eq_str (w : string) (kws : list string) :
  existsb (py_eq (VStr w)) (VStr <$> kws) = true <-> w ∈ kws.
Proof.
  induction kws as [|k kws IH].
  - split; [discriminate|by intros ?%elem_of_nil].
  - rewrite elem_of_cons, <- IH. cbn [existsb fmap list_fmap].
    rewrite orb_true_iff, py_eq_str, bool_decide_eq_true. done.
Qed.

Lemma merged_record_other (pre : list Job) (j : Job) (lid : string) (o : Job) :
  listing_id j <> Some lid ->
  merged_record pre lid o -> merged_record (pre ++ [j]) lid o.
Proof.
  intros Hne (first & rest & kws & Hg & Hf & Hk & Hnd & Hw).
  exists first, rest, kws. rewrite group_snoc.
  destruct (decide _) as [|_]; [done|]. by rewrite app_nil_r.
Qed.

Lemma raw_listing_id (j : Job) :
  raw_listing j = true ->
  match listing_id j with
  | Some lid => j !! "jobNo" = Some (VStr lid) /\ lid <> ""
  | None => truthy (default VNone (j !! "jobNo")) = false
  end.
Proof.
  unfold raw_listing, listing_id. intros [H1 _]%andb_true_iff.
  destruct (j !! "jobNo") as [[| |s| |]|]; try done.
  simpl. destruct (String.eqb_spec s ""); simpl; [done|]. done.
Qed.

Lemma raw_listing_keyword (j : Job) :
  raw_listing j = true ->
  match keyword_of j with
  | Some w => j !! "search_keyword" = Some (VStr w) /\ w <> ""
  | None => j !! "search_keyword" = None
  end.
Proof.
  unfold raw_listing, keyword_of. intros [_ H2]%andb_true_iff.
  destruct (j !! "search_keyword") as [[| |s| |]|]; try done.
  split; [done|]. intros ->. done.
Qed.

Lemma merge_one_skip (m : pydict Job) (j : Job) :
  truthy (default VNone (j !! "jobNo")) = false ->
  JobDataProcessor.merge_one m j = Ok m.
Proof. intros H. unfold JobDataProcessor.merge_one. by rewrite H. Qed.

Lemma merge_one_existing (m : pydict Job) (j existing : Job) (lid : string)
    (kws : list string) :
  raw_listing j = true ->
  j !! "jobNo" = Some (VStr lid) -> lid <> "" ->
  dict_get (VStr lid) m = Some existing ->
  existing !! "search_keyword" = Some (VList (VStr <$> kws)) ->
  JobDataProcessor.merge_one m j =
  Ok (dict_set (VStr lid)
        (<["search_keyword" := VList (VStr <$> add_keyword kws j)]> existing) m).
Proof.
  intros Hraw Hid Hne Hget Hk. unfold JobDataProcessor.merge_one.
  rewrite Hid. cbn [from_option]; unfold id.
  assert (truthy (VStr lid) = true) as ->.
  { simpl. by destruct (String.eqb_spec lid ""). }
  cbn [negb hashable]. rewrite Hget, Hk. cbn [from_option]; unfold id.
  unfold JobDataProcessor.merged_keywords. cbn [is_str].
  assert ((if negb (truthy (VList (VStr <$> kws))) then VList []
           else VList (VStr <$> kws)) = VList (VStr <$> kws)) as ->.
  { destruct kws; [done|]. done. }
  pose proof (raw_listing_keyword j Hraw) as Hkw. unfold add_keyword.
  destruct (keyword_of j) as [w|].
  - destruct Hkw as [-> Hw]. cbn [from_option]; unfold id.
    assert (truthy (VStr w) = true) as ->.
    { simpl. by destruct (String.eqb_spec w ""). }
    cbn [py_in mbind res_bind].
    destruct (existsb (py_eq (VStr w)) (VStr <$> kws)) eqn:He.
    + apply existsb_py_eq_str in He. by rewrite decide_True.
    + rewrite decide_False.
      * cbn. by rewrite fmap_app.
      * intros Hin. apply existsb_py_eq_str in Hin. congruence.
  - rewrite Hkw. done.
Qed.

Lemma merge_one_new (m : pydict Job) (j : Job) (lid : string) :
  raw_listing j = true ->
  j !! "jobNo" = Some (VStr lid) -> lid <> "" ->
  dict_get (VStr lid) m = None ->
  JobDataProcessor.merge_one m j =
  Ok (dict_set (VStr lid)
        (<["search_keyword" := VList (VStr <$> add_keyword [] j)]> j) m).
Proof.
  intros Hraw Hid Hne Hget. unfold JobDataProcessor.merge_one.
  rewrite Hid. cbn [from_option]; unfold id.
  assert (truthy (VStr lid) = true) as ->.
  { simpl. by destruct (String.eqb_spec lid ""). }
  cbn [negb hashable]. rewrite Hget. unfold JobDataProcessor.keyword_as_list.
  pose proof (raw_listing_keyword j Hraw) as Hkw. unfold add_keyword.
  destruct (keyword_of j) as [w|].
  - destruct Hkw as [-> Hw]. rewrite decide_False; [done|apply not_elem_of_nil].
  - by rewrite Hkw.
Qed.

Lemma add_keyword_spec (kws : list string) (j : Job) :
  NoDup kws ->
  NoDup (add_keyword kws j) /\
  (forall w, w ∈ add_keyword kws j <-> w ∈ kws \/ keyword_of j = Some w).
Proof.
  intros Hnd. unfold add_keyword. destruct (keyword_of j) as [w|].
  - destruct (decide (w ∈ kws)).
    + split; [done|]. intros w'. naive_solver.
    + split.
      * apply NoDup_app. split; [done|]. split; [|apply NoDup_singleton].
        intros x Hx ->%list_elem_of_singleton. done.
      * intros w'. rewrite elem_of_app, list_elem_of_singleton. naive_solver.
  - split; [done|]. naive_solver.
Qed.

Lemma merge_inv_str_keys (pre : list Job) (m : pydict Job) :
  merge_inv pre m -> str_keys m.
Proof.
  intros (Hall & _). eapply Forall_impl; [exact Hall|].
  intros [k o] (lid & Hk & _). simpl in Hk. by rewrite Hk.
Qed.

Lemma listing_id_same_fields (o first : Job) :
  (forall f, f <> "search_keyword" -> o !! f = first !! f) ->
  listing_id o = listing_id first.
Proof. intros H. unfold listing_id. by rewrite H. Qed.

Lemma merge_one_inv (pre : list Job) (m : pydict Job) (j : Job) :
  merge_inv pre m -> raw_listing j = true ->
  exists m', JobDataProcessor.merge_one m j = Ok m' /\ merge_inv (pre ++ [j]) m'.
Proof.
  intros Hinv Hraw. pose proof (merge_inv_str_keys _ _ Hinv) as Hsk.
  destruct Hinv as (Hall & Hnd & Hdom).
  pose proof (raw_listing_id j Hraw) as Hid.
  destruct (listing_id j) as [lid|] eqn:Hlid.
  - destruct Hid as [Hjob Hne].
    destruct (dict_get (VStr lid) m) as [existing|] eqn:Hget.
    + (* the listing has been seen *)
      destruct (dict_get_str_Some m lid existing Hsk Hget)
        as (m1 & m2 & -> & Hn1 & Hset).
      apply Forall_app in Hall as [Hall1 Hall2].
      apply Forall_cons in Hall2 as [(lid' & Hlid' & Hrec) Hall2].
      simpl in Hlid'. injection Hlid' as <-. simpl in Hrec.
      destruct Hrec as (first & rest & kws & Hg & Hf & Hk & Hndk & Hw).
      eexists. split.
      { rewrite (merge_one_existing _ _ _ _ kws Hraw Hjob Hne Hget Hk).
        by rewrite Hset. }
      unfold dict_keys in *. rewrite map_app in Hnd. simpl in Hnd.
      assert (Hother : forall e : value * Job,
                 e ∈ m1 ++ m2 ->
                 (exists lid', e.1 = VStr lid' /\ merged_record pre lid' e.2) ->
                 exists lid', e.1 = VStr lid' /\ merged_record (pre ++ [j]) lid' e.2).
      { intros [k o] Hin (lid' & Hk' & Hrec). simpl in Hk'. subst k.
        exists lid'. split; [done|]. apply merged_record_other; [|done].
        rewrite Hlid. intros [= ->].
        apply NoDup_app in Hnd as (_ & Hdisj & Hnd2).
        apply NoDup_cons in Hnd2 as [Hnot2 _].
        apply elem_of_app in Hin as [Hin|Hin].
        - apply (Hdisj (VStr lid')).
          + apply (list_elem_of_fmap_2 fst) in Hin. exact Hin.
          + apply elem_of_cons. by left.
        - apply Hnot2. apply (list_elem_of_fmap_2 fst) in Hin. exact Hin. }
      split; [|split].
      * apply Forall_app. split.
        { apply Forall_forall. intros e He. apply Hother.
          - apply elem_of_app. by left.
          - by apply (proj1 (Forall_forall _ _) Hall1). }
        apply Forall_cons. split.
        { exists lid. split; [done|]. simpl.
          destruct (add_keyword_spec kws j Hndk) as [Hnd' Hw'].
          exists first, (rest ++ [j]), (add_keyword kws j).
          split; [|split; [|split; [|split]]].
          - rewrite group_snoc, Hg, decide_True by done. done.
          - intros f Hfne. rewrite lookup_insert_ne by done. by apply Hf.
          - by rewrite lookup_insert_eq.
          - done.
          - intros w. rewrite Hw', Hw. rewrite app_comm_cons.
            setoid_rewrite elem_of_app. setoid_rewrite list_elem_of_singleton.
            naive_solver. }
        apply Forall_forall. intros e He. apply Hother.
        { apply elem_of_app. by right. }
        by apply (proj1 (Forall_forall _ _) Hall2).
      * unfold dict_keys. by rewrite map_app.
      * intros lid'. unfold dict_keys. rewrite map_app. simpl. rewrite group_snoc.
        specialize (Hdom lid'). rewrite map_app in Hdom. simpl in Hdom.
        rewrite Hdom. destruct (decide _) as [Heq|]; [|by rewrite app_nil_r].
        rewrite Hlid in Heq. injection Heq as <-. rewrite Hg. simpl. done.
    + (* a new listing *)
      destruct (dict_get_str_None m lid
                  (<["search_keyword" := VList (VStr <$> add_keyword [] j)]> j)
                  Hsk Hget) as [Hnot Hset].
      eexists. split.
      { rewrite (merge_one_new _ _ _ Hraw Hjob Hne Hget). by rewrite Hset. }
      assert (Hgnil : group lid pre = []).
      { destruct (group lid pre) eqn:Hg; [done|]. exfalso. apply Hnot.
        apply Hdom. by rewrite Hg. }
      split; [|split].
      * apply Forall_app. split.
        { eapply Forall_impl; [exact Hall|].
          intros [k o] (lid' & Hk' & Hrec). simpl in *. subst k.
          exists lid'. split; [done|]. apply merged_record_other; [|done].
          rewrite Hlid. intros [= ->].
          destruct Hrec as (? & ? & ? & Hg & _). by rewrite Hgnil in Hg. }
        apply Forall_singleton. exists lid. split; [done|]. simpl.
        destruct (add_keyword_spec [] j (NoDup_nil_2)) as [Hnd' Hw'].
        exists j, [], (add_keyword [] j). split; [|split; [|split; [|split]]].
        -- rewrite group_snoc, Hgnil, decide_True by done. done.
        -- intros f Hfne. by rewrite lookup_insert_ne.
        -- by rewrite lookup_insert_eq.
        -- done.
        -- intros w. rewrite Hw'. setoid_rewrite list_elem_of_singleton.
           split.
           ++ intros [?%elem_of_nil|?]; [done|]. by exists j.
           ++ intros (? & -> & ?). by right.
      * unfold dict_keys. rewrite map_app. simpl. apply NoDup_app.
        split; [done|]. split; [|apply NoDup_singleton].
        intros x Hx ->%list_elem_of_singleton. done.
      * intros lid'. unfold dict_keys. rewrite map_app, elem_of_app. simpl.
        rewrite list_elem_of_singleton, group_snoc.
        specialize (Hdom lid'). unfold dict_keys in Hdom. rewrite Hdom.
        destruct (decide _) as [Heq|Hneq].
        -- rewrite Hlid in Heq. injection Heq as <-. rewrite Hgnil. simpl.
           split; [done|]. by right.
        -- rewrite app_nil_r. split; [|by left].
           intros [?|[= ->]]; [done|]. by rewrite Hlid in Hneq.
  - (* no listing ID: the record is dropped *)
    exists m. split; [by apply merge_one_skip|].
    split; [|split].
    + eapply Forall_impl; [exact Hall|].
      intros [k o] (lid' & Hk' & Hrec). exists lid'. split; [done|].
      apply merged_record_other; [|done]. by rewrite Hlid.
    + done.
    + intros lid'. rewrite group_snoc, Hlid.
      rewrite decide_False by done. rewrite app_nil_r. apply Hdom.
Qed.

Lemma for_each_merge_inv (l pre : list Job) (m : pydict Job) :
  merge_inv pre m -> Forall (fun j => raw_listing j = true) l ->
  exists m',
    for_each JobDataProcessor.merge_one m l = Ok m' /\ merge_inv (pre ++ l) m'.
Proof.
  revert pre m. induction l as [|j l IH]; intros pre m Hinv Hraw.
  - exists m. by rewrite app_nil_r.
  - apply Forall_cons in Hraw as [Hj Hl].
    destruct (merge_one_inv pre m j Hinv Hj) as (m1 & Hm1 & Hinv1).
    destruct (IH (pre ++ [j]) m1 Hinv1 Hl) as (m' & Hm' & Hinv').
    exists m'. simpl. rewrite Hm1. simpl. split; [done|].
    by rewrite <- app_assoc in Hinv'.
Qed.

Lemma merge_inv_nil : merge_inv [] [].
Proof.
  split; [constructor|]. split; [constructor|].
  intros lid. split; [by intros ?%elem_of_nil|done].
Qed.

Lemma merged_record_listing_id (pre : list Job) (lid : string) (o : Job) :
  merged_record pre lid o -> listing_id o = Some lid.
Proof.
  intros (first & rest & kws & Hg & Hf & _).
  rewrite (listing_id_same_fields o first Hf).
  assert (Hin : first ∈ group lid pre) by (rewrite Hg; apply elem_of_cons; by left).
  unfold group in Hin. by apply list_elem_of_filter in Hin as [? _].
Qed.

Lemma merge_inv_ids (pre : list Job) (m : pydict Job) :
  merge_inv pre m ->
  exists ids,
    dict_keys m = VStr <$> ids /\ listing_id <$> dict_values m = Some <$> ids.
Proof.
  intros (Hall & _). induction Hall as [|[k o] m (lid & Hk & Hrec) _ IH].
  - by exists [].
  - destruct IH as (ids & Hks & Hvs). simpl in Hk. subst k.
    exists (lid :: ids). unfold dict_keys, dict_values in *. simpl in *.
    rewrite Hks. split; [done|].
    f_equal; [by apply (merged_record_listing_id pre)|exact Hvs].
Qed.

Lemma stamped_raw (j : Job) : stamped_listing j = true -> raw_listing j = true.
Proof.
  unfold stamped_listing, raw_listing. intros [H1 H2]%andb_true_iff.
  destruct (j !! "jobNo") as [[| |s| |]|]; try done.
  destruct (j !! "search_keyword") as [[| |w| |]|]; done.
Qed.

Lemma crawler_merge_one_agrees (pre : list Job) (m : pydict Job) (j : Job) :
  merge_inv pre m -> stamped_listing j = true ->
  Crawler.merge_one m j = JobDataProcessor.merge_one m j.
Proof.
  intros (Hall & _) Hst. unfold stamped_listing in Hst.
  apply andb_true_iff in Hst as [H1 H2].
  destruct (j !! "jobNo") as [[| |lid| |]|] eqn:Hid; try done.
  destruct (j !! "search_keyword") as [[| |w| |]|] eqn:Hkw; try done.
  unfold Crawler.merge_one, JobDataProcessor.merge_one, Crawler.getitem,
    JobDataProcessor.keyword_as_list.
  rewrite Hid, Hkw. cbn [from_option mbind res_bind]; unfold id.
  cbn [truthy]. rewrite H1. cbn [negb hashable].
  destruct (dict_get (VStr lid) m) as [existing|] eqn:Hget; [|done].
  assert (exists kws, existing !! "search_keyword" = Some (VList (VStr <$> kws)))
    as [kws Hk].
  { clear -Hall Hget. induction Hall as [|[k o] m (lid' & Hk & Hrec) _ IH];
      [done|]. simpl in *. destruct (py_eq k (VStr lid)).
    - injection Hget as <-. destruct Hrec as (? & ? & kws & _ & _ & ? & _).
      by exists kws.
    - by apply IH. }
  rewrite Hk. cbn [from_option is_str]; unfold id.
  unfold JobDataProcessor.merged_keywords. cbn [is_str truthy]. rewrite H2.
  assert ((if negb (negb (bool_decide (VStr <$> kws = []))) then VList []
           else VList (VStr <$> kws)) = VList (VStr <$> kws)) as ->.
  { by destruct kws. }
  cbn [is_str py_in mbind res_bind]. by destruct (existsb _ _).
Qed.

Lemma for_each_crawler_agrees (l pre : list Job) (m : pydict Job) :
  merge_inv pre m -> Forall (fun j => stamped_listing j = true) l ->
  for_each Crawler.merge_one m l = for_each JobDataProcessor.merge_one m l.
Proof.
  revert pre m. induction l as [|j l IH]; intros pre m Hinv Hst; [done|].
  apply Forall_cons in Hst as [Hj Hl]. simpl.
  rewrite (crawler_merge_one_agrees pre m j Hinv Hj).
  destruct (merge_one_inv pre m j Hinv (stamped_raw j Hj)) as (m1 & -> & Hinv1).
  simpl. by apply (IH (pre ++ [j])).
Qed.

#[local] Instance VStr_inj : Inj (=) (=) VStr.
Proof. by intros ?? [=]. Qed.

(** C1.  On a batch of raw listings the merge step of [JobDataProcessor]
    returns, and so does the one of [Crawler] with the same records when
    every record carries its listing ID and keyword: one record for each
    listing ID of the batch and no other, each the first record of its
    group with every field but [search_keyword] unchanged, and with
    [search_keyword] the duplicate-free list of the keywords of the
    group. *)
Theorem merge_job_keywords_groups (jobs : list Job) :
  Forall (fun j => raw_listing j = true) jobs ->
  exists out,
    JobDataProcessor._merge_job_keywords jobs = Ok out /\
    (Forall (fun j => stamped_listing j = true) jobs ->
     Crawler._merge_job_keywords jobs = Ok out) /\
    NoDup (listing_id <$> out) /\
    (forall lid,
        Some lid ∈ (listing_id <$> out) <->
        exists j, j ∈ jobs /\ listing_id j = Some lid) /\
    (forall o, o ∈ out -> exists lid, merged_record jobs lid o).
Proof.
  intros Hraw.
  destruct (for_each_merge_inv jobs [] [] merge_inv_nil Hraw) as (m & Hm & Hinv).
  simpl in Hinv. exists (dict_values m).
  assert (Hproc : JobDataProcessor._merge_job_keywords jobs = Ok (dict_values m)).
  { unfold JobDataProcessor._merge_job_keywords. rewrite Hm.
    destruct jobs; [|done]. simpl in Hm. by injection Hm as <-. }
  split; [done|]. split.
  { intros Hst. rewrite <- Hproc.
    unfold Crawler._merge_job_keywords, JobDataProcessor._merge_job_keywords.
    destruct jobs; [done|].
    by rewrite (for_each_crawler_agrees _ [] [] merge_inv_nil Hst). }
  destruct (merge_inv_ids _ _ Hinv) as (ids & Hks & Hvs).
  destruct Hinv as (Hall & Hnd & Hdom).
  split; [|split].
  - rewrite Hvs. apply (NoDup_fmap_2 Some). rewrite Hks in Hnd.
    by apply NoDup_fmap_1 in Hnd.
  - intros lid. rewrite Hvs. rewrite (list_elem_of_fmap_inj Some).
    rewrite <- (list_elem_of_fmap_inj VStr), <- Hks, Hdom.
    unfold group. split.
    + intros Hne. destruct (filter _ jobs) as [|j g] eqn:Hg; [done|].
      assert (Hin : j ∈ filter (fun job => listing_id job = Some lid) jobs)
        by (rewrite Hg; apply elem_of_cons; by left).
      apply list_elem_of_filter in Hin as [? ?]. by exists j.
    + intros (j & Hin & Hj) Hnil.
      assert (Hin' : j ∈ filter (fun job => listing_id job = Some lid) jobs)
        by (by apply list_elem_of_filter).
      rewrite Hnil in Hin'. by apply elem_of_nil in Hin'.
  - intros o Ho. unfold dict_values in Ho.
    apply list_elem_of_In, in_map_iff in Ho as ([k o'] & <- & Hin).
    apply list_elem_of_In in Hin.
    destruct (proj1 (Forall_forall _ _) Hall _ Hin) as (lid & _ & Hrec).
    by exists lid.
Qed.

Example merge_two_keywords :
  JobDataProcessor._merge_job_keywords
    [raw "A1" "python" "Engineer"; raw "A1" "java" "Engineer"] =
  Ok [<["search_keyword" := VList [VStr "python"; VStr "java"]]>
        (raw "A1" "python" "Engineer")].
Proof. by_evaluation. Qed.

Lemma merge_job_keywords_groups_witness :
  let jobs := [raw "A1" "python" "Engineer"; raw "A1" "java" "Engineer"] in
  Forall (fun j => raw_listing j = true) jobs /\
  exists out,
    JobDataProcessor._merge_job_keywords jobs = Ok out /\
    (Forall (fun j => stamped_listing j = true) jobs ->
     Crawler._merge_job_keywords jobs = Ok out) /\
    NoDup (listing_id <$> out) /\
    (forall lid,
        Some lid ∈ (listing_id <$> out) <->
        exists j, j ∈ jobs /\ listing_id j = Some lid) /\
    (forall o, o ∈ out -> exists lid, merged_record jobs lid o).
Proof.
  intros jobs.
  assert (H : Forall (fun j => raw_listing j = true) jobs)
    by (repeat constructor).
  split; [exact H|]. exact (merge_job_keywords_groups jobs H).
Defined.

(** A record without a listing ID leaves the map of the merge as it is,
    whatever else the batch holds. *)
Lemma for_each_merge_filter (jobs : list Job) (m : pydict Job) :
  for_each JobDataProcessor.merge_one m
    (filter (fun j => has_job_id j = true) jobs) =
  for_each JobDataProcessor.merge_one m jobs.
Proof.
  revert m. induction jobs as [|j jobs IH]; intros m; [done|].
  rewrite filter_cons. destruct (decide (has_job_id j = true)) as [Hj|Hj].
  - simpl. destruct (JobDataProcessor.merge_one m j); [|done]. simpl. apply IH.
  - apply not_true_is_false in Hj. simpl.
    rewrite (merge_one_skip m j Hj). simpl. apply IH.
Qed.

Lemma processor_merge_drops_records_without_id (jobs : list Job) :
  JobDataProcessor._merge_job_keywords jobs =
  JobDataProcessor._merge_job_keywords
    (filter (fun j => has_job_id j = true) jobs).
Proof.
  unfold JobDataProcessor._merge_job_keywords.
  rewrite <- (for_each_merge_filter jobs []).
  destruct jobs as [|j jobs]; [done|].
  destruct (filter _ (j :: jobs)); done.
Qed.

Lemma processor_merge_returns (jobs : list Job) :
  Forall (fun j => raw_listing j = true) jobs ->
  exists out, JobDataProcessor._merge_job_keywords jobs = Ok out.
Proof.
  intros H. unfold JobDataProcessor._merge_job_keywords.
  destruct (for_each_merge_inv jobs [] [] merge_inv_nil H) as (m' & Hm & _).
  rewrite Hm. destruct jobs; by eexists.
Qed.

(** C7 (the code breaks it).  [JobDataProcessor._merge_job_keywords]
    gives on every batch the result it gives on the records that carry a
    listing ID; on the batch of one well-formed record and one record
    without [jobNo], [Crawler._merge_job_keywords] raises [KeyError], and
    [JobDataProcessor._merge_job_keywords] returns the well-formed
    record. *)
Theorem crawler_merge_raises_without_job_id :
  (forall jobs : list Job,
      JobDataProcessor._merge_job_keywords jobs =
      JobDataProcessor._merge_job_keywords
        (filter (fun j => has_job_id j = true) jobs)) /\
  Crawler._merge_job_keywords
    [raw "A1" "python" "Engineer"; no_id "python" "Clerk"] = Raise KeyError /\
  JobDataProcessor._merge_job_keywords
    [raw "A1" "python" "Engineer"; no_id "python" "Clerk"] =
  Ok [<["search_keyword" := VList [VStr "python"]]>
        (raw "A1" "python" "Engineer")].
Proof.
  split; [exact processor_merge_drops_records_without_id|by_evaluation].
Qed.

Lemma deactivated_insert (today : string) (doc : Job) :
  deactivated today doc
    (<["delisted_date" := VStr today]>
       (<["last_update_date" := VStr today]>
          (<["status" := VStr "inactive"]> doc))).
Proof.
  repeat split.
  - by rewrite !lookup_insert_ne by done; rewrite lookup_insert_eq.
  - by rewrite lookup_insert_eq.
  - by rewrite lookup_insert_ne by done; rewrite lookup_insert_eq.
  - intros f H1 H2 H3. by rewrite !lookup_insert_ne by done.
Qed.

Lemma reactivated_insert (today : string) (doc : Job) :
  reactivated today doc
    (delete "delisted_date"
       (<["last_update_date" := VStr today]>
          (<["status" := VStr "active"]> doc))).
Proof.
  repeat split.
  - rewrite lookup_delete_ne by done. rewrite lookup_insert_ne by done.
    by rewrite lookup_insert_eq.
  - by rewrite lookup_delete_eq.
  - rewrite lookup_delete_ne by done. by rewrite lookup_insert_eq.
  - intros f H1 H2 H3. rewrite lookup_delete_ne by done.
    by rewrite !lookup_insert_ne by done.
Qed.

Lemma deactivated_coupled (today : string) (doc doc' : Job) :
  deactivated today doc doc' -> coupled doc' = true.
Proof.
  intros (Hs & Hd & _). unfold coupled, MongoDBManager.has_status.
  rewrite Hs, Hd. by vm_compute.
Qed.

Lemma reactivated_coupled (today : string) (doc doc' : Job) :
  reactivated today doc doc' -> coupled doc' = true.
Proof.
  intros (Hs & Hd & _). unfold coupled, MongoDBManager.has_status.
  rewrite Hs, Hd. by vm_compute.
Qed.

(** Marking the missing listings and reactivating keep the coupling. *)
Lemma update_job_status_coupled (today : string) (ids : list value)
    (docs : list Job) :
  Forall (fun doc => coupled doc = true) docs ->
  Forall (fun doc => coupled doc = true)
         (MongoDBManager.update_job_status today ids docs).
Proof.
  intros H. unfold MongoDBManager.update_job_status.
  destruct ids as [|v ids]; [done|].
  apply Forall_forall. intros doc' Hin.
  apply list_elem_of_In, in_map_iff in Hin as (doc & <- & Hin).
  apply list_elem_of_In in Hin.
  destruct (_ && _).
  - eapply deactivated_coupled, deactivated_insert.
  - by apply (proj1 (Forall_forall _ _) H).
Qed.

Lemma reactivate_jobs_coupled (today : string) (ids : list value)
    (docs : list Job) :
  Forall (fun doc => coupled doc = true) docs ->
  Forall (fun doc => coupled doc = true)
         (MongoDBManager.reactivate_jobs today ids docs).
Proof.
  intros H. unfold MongoDBManager.reactivate_jobs.
  destruct ids as [|v ids]; [done|].
  apply Forall_forall. intros doc' Hin.
  apply list_elem_of_In, in_map_iff in Hin as (doc & <- & Hin).
  apply list_elem_of_In in Hin.
  destruct (_ && _).
  - eapply reactivated_coupled, reactivated_insert.
  - by apply (proj1 (Forall_forall _ _) H).
Qed.

(** C2 (the code breaks it).  The listing A1 is stored inactive with its
    delisted date, and a run sees it again: after the save of
    [CrawlerOrchestrator.crawl] the stored listing is active and still
    carries the delisted date. *)
Theorem save_leaves_delisted_date_on_reactivated_listing :
  let stored :=
    delisted "2024-01-01"
      (JobDataProcessor.add_metadata_one "2023-12-01" "python"
         (site_listing "A1" "Engineer")) in
  let all_jobs :=
    JobDataProcessor.add_metadata "2024-05-01"
      [site_listing "A1" "Engineer"] "python" in
  coupled stored = true /\
  CrawlerOrchestrator.crawl_save no_links (VStr "2024-05-01T08:00:00")
    "2024-05-01" all_jobs [stored]
    = Ok ([a1_saved], [delete "delisted_date" a1_saved]) /\
  a1_saved !! "status" = Some (VStr "active") /\
  a1_saved !! "delisted_date" = Some (VStr "2024-01-01") /\
  coupled a1_saved = false.
Proof. by_evaluation. Qed.

(** The first version of the crawler reactivates the stored listing
    before it saves, and keeps the coupling on the same input. *)
Example crawler_reactivates_before_save :
  let stored :=
    delisted "2024-01-01"
      (JobDataProcessor.add_metadata_one "2023-12-01" "python"
         (site_listing "A1" "Engineer")) in
  let all_jobs :=
    JobDataProcessor.add_metadata "2024-05-01"
      [site_listing "A1" "Engineer"] "python" in
  Crawler.process_jobs_data no_links (VStr "2024-05-01T08:00:00")
    "2024-05-01" all_jobs [stored]
    = Ok ([delete "delisted_date" a1_saved], [delete "delisted_date" a1_saved]) /\
  coupled (delete "delisted_date" a1_saved) = true.
Proof. by_evaluation. Qed.

(** C3, as stated: fails on the empty list of discovered IDs. *)
Lemma update_job_status_empty_ids_keeps_active :
  let doc := JobDataProcessor.add_metadata_one "2024-04-30" "python"
               (site_listing "A1" "Engineer") in
  MongoDBManager.has_status "active" doc = true /\
  MongoDBManager.jobNo_nin [] doc = true /\
  MongoDBManager.update_job_status "2024-05-01" [] [doc] = [doc] /\
  FileJobStorage.update_job_status "2024-05-01" [] [(VStr "A1", doc)] =
    [(VStr "A1", doc)].
Proof. repeat split; by vm_compute. Qed.

(** C3 (amended).  When the list of discovered IDs is not empty,
    [update_job_status], of [MongoDBManager] and of [FileJobStorage], sets
    on every stored listing that is active and whose ID is not in the list
    the status inactive, the delisted date and the last update date to
    today, and leaves every other stored listing, the inactive ones among
    them, as it is. *)
Theorem update_job_status_marks_missing (today : string)
    (current_job_ids : list value) :
  current_job_ids <> [] ->
  (forall (docs : list Job) (i : nat) (doc : Job),
      docs !! i = Some doc ->
      exists doc',
        MongoDBManager.update_job_status today current_job_ids docs !! i
          = Some doc' /\
        if MongoDBManager.jobNo_nin current_job_ids doc
           && MongoDBManager.has_status "active" doc
        then deactivated today doc doc'
        else doc' = doc) /\
  (forall (cache : pydict Job) (i : nat) (job_id : value) (job : Job),
      cache !! i = Some (job_id, job) ->
      exists job',
        FileJobStorage.update_job_status today current_job_ids cache !! i
          = Some (job_id, job') /\
        if negb (existsb (py_eq job_id) current_job_ids)
           && FileJobStorage.status_is "active" job
        then deactivated today job job'
        else job' = job).
Proof.
  intros Hne. split.
  - intros docs i doc Hi. unfold MongoDBManager.update_job_status.
    destruct current_job_ids as [|v ids]; [done|].
    eexists. split; [by apply lookup_map|]. cbv beta.
    destruct (_ && _); [apply deactivated_insert|done].
  - intros cache i job_id job Hi. unfold FileJobStorage.update_job_status.
    destruct current_job_ids as [|v ids]; [done|].
    destruct cache as [|e cache]; [done|].
    set (c := e :: cache) in *.
    match goal with
    | |- context [map ?f c] => pose proof (lookup_map f c i _ Hi) as H
    end.
    cbv beta iota in H.
    destruct (_ && _); eexists; (split; [exact H|]);
      [apply deactivated_insert|done].
Qed.

Lemma update_job_status_marks_missing_witness :
  let doc := JobDataProcessor.add_metadata_one "2024-04-30" "python"
               (site_listing "A1" "Engineer") in
  [VStr "B2"] <> [] /\
  exists doc',
    MongoDBManager.update_job_status "2024-05-01" [VStr "B2"] [doc] !! 0%nat
      = Some doc' /\
    if MongoDBManager.jobNo_nin [VStr "B2"] doc
       && MongoDBManager.has_status "active" doc
    then deactivated "2024-05-01" doc doc'
    else doc' = doc.
Proof.
  intros doc.
  assert (H : [VStr "B2"] <> []) by discriminate.
  split; [exact H|].
  exact (proj1 (update_job_status_marks_missing "2024-05-01" [VStr "B2"] H)
           [doc] 0%nat doc eq_refl).
Defined.

Section FieldsFrame.

Variable split_link_field : string -> string * string * string.

(** The field step only writes the five derived fields. *)
Lemma link_one_lookup (job : Job) (f : string) :
  f <> "cust" -> f <> "job" -> f <> "applyAnalyze" ->
  JobDataProcessor.link_one split_link_field job !! f = job !! f.
Proof.
  intros H1 H2 H3. unfold JobDataProcessor.link_one.
  destruct (job !! "link") as [link|]; [|done].
  destruct (truthy link); [|done].
  destruct (JobDataProcessor.link_urls split_link_field link) as [[[a j] c]|];
    [|done].
  by rewrite !lookup_insert_ne by done.
Qed.

Lemma address_one_lookup (job : Job) (f : string) :
  f <> "district" -> f <> "city" ->
  JobDataProcessor.address_one job !! f = job !! f.
Proof.
  intros H1 H2. unfold JobDataProcessor.address_one.
  destruct (job !! "jobAddrNoDesc") as [[| |address| |]|]; try done.
  destruct (truthy (VStr address)); [|done].
  destruct (split_city_district address) as [city district].
  by rewrite !lookup_insert_ne by done.
Qed.

Lemma fields_one_lookup (job : Job) (f : string) :
  f <> "cust" -> f <> "job" -> f <> "applyAnalyze" ->
  f <> "district" -> f <> "city" ->
  JobDataProcessor.address_one
    (JobDataProcessor.link_one split_link_field job) !! f = job !! f.
Proof.
  intros. rewrite address_one_lookup by done. by apply link_one_lookup.
Qed.

End FieldsFrame.

(** The status step on a record that carries a listing ID. *)
Lemma status_one_listing (today : string) (existing : pydict value)
    (job : Job) (lid : string) :
  listing_id job = Some lid ->
  exists job',
    JobDataProcessor.status_one today existing job = Ok job' /\
    job' !! "last_update_date" = Some (VStr today) /\
    (forall f, f <> "last_update_date" -> f <> "status" ->
               f <> "delisted_date" -> job' !! f = job !! f) /\
    (dict_get (VStr lid) existing = Some (VStr "inactive") ->
     job' !! "status" = Some (VStr "active") /\
     job' !! "delisted_date" = None).
Proof.
  unfold listing_id. intros Hid.
  destruct (job !! "jobNo") as [[| |s| |]|] eqn:Hj; try done.
  destruct (String.eqb_spec s "") as [|Hne]; [done|]. injection Hid as ->.
  unfold JobDataProcessor.status_one. rewrite Hj.
  cbn [from_option]; unfold id.
  assert (truthy (VStr lid) = true) as ->.
  { simpl. by destruct (String.eqb_spec lid ""). }
  cbn [negb hashable].
  destruct (dict_get (VStr lid) existing) as [status|] eqn:Hget.
  - destruct (py_eq status (VStr JOB_STATUS_INACTIVE)) eqn:Hst.
    + eexists. split; [reflexivity|]. split; [|split].
      * rewrite lookup_delete_ne by done. rewrite lookup_insert_ne by done.
        by rewrite lookup_insert_eq.
      * intros f H1 H2 H3. rewrite lookup_delete_ne by done.
        by rewrite !lookup_insert_ne by done.
      * intros _. split.
        -- rewrite lookup_delete_ne by done. by rewrite lookup_insert_eq.
        -- by rewrite lookup_delete_eq.
    + eexists. split; [reflexivity|]. split; [|split].
      * by rewrite lookup_insert_eq.
      * intros f H1 H2 H3. by rewrite lookup_insert_ne.
      * intros [= ->]. simpl in Hst. discriminate.
  - eexists. split; [reflexivity|]. split; [|split].
    + by rewrite lookup_insert_eq.
    + intros f H1 H2 H3. by rewrite lookup_insert_ne.
    + done.
Qed.

Lemma map_each_Forall2 {A B : Type} (f : A -> res B) (l : list A) :
  Forall (fun x => exists y, f x = Ok y) l ->
  exists l', map_each f l = Ok l' /\ Forall2 (fun x y => f x = Ok y) l l'.
Proof.
  induction 1 as [|x l [y Hy] _ (l' & Hl' & IH)].
  - exists []. split; [done|constructor].
  - exists (y :: l'). simpl. rewrite Hy, Hl'. split; [done|by constructor].
Qed.

Lemma merge_inv_lookup (pre : list Job) (m : pydict Job) (lid : string) :
  merge_inv pre m -> group lid pre <> [] ->
  exists o, o ∈ dict_values m /\ merged_record pre lid o.
Proof.
  intros (Hall & _ & Hdom) Hg. apply Hdom in Hg.
  unfold dict_keys in Hg. apply list_elem_of_In, in_map_iff in Hg as ([k o] & Hk & Hin).
  simpl in Hk. subst k. apply list_elem_of_In in Hin.
  destruct (proj1 (Forall_forall _ _) Hall _ Hin) as (lid' & Hk & Hrec).
  simpl in *. injection Hk as <-. exists o. split; [|done].
  unfold dict_values. apply list_elem_of_In, in_map_iff.
  exists (VStr lid, o). split; [done|]. by apply list_elem_of_In.
Qed.

Lemma merge_inv_all_ids (pre : list Job) (m : pydict Job) :
  merge_inv pre m ->
  Forall (fun o => exists lid, listing_id o = Some lid) (dict_values m).
Proof.
  intros (Hall & _). unfold dict_values. apply Forall_forall. intros o Ho.
  apply list_elem_of_In, in_map_iff in Ho as ([k o'] & <- & Hin).
  apply list_elem_of_In in Hin.
  destruct (proj1 (Forall_forall _ _) Hall _ Hin) as (lid & _ & Hrec).
  exists lid. by apply (merged_record_listing_id pre).
Qed.

Lemma group_nonempty (jobs : list Job) (j : Job) (lid : string) :
  j ∈ jobs -> listing_id j = Some lid -> group lid jobs <> [].
Proof.
  intros Hin Hj Hnil.
  assert (H : j ∈ group lid jobs) by (by apply list_elem_of_filter).
  rewrite Hnil in H. by apply elem_of_nil in H.
Qed.

(** C4, as stated, fails: the listing A1 is stored inactive with the
    keyword java and a run finds it under python; the reconciled record
    and the stored listing carry python alone. *)
Lemma reactivated_listing_loses_prior_keyword :
  let stored :=
    delisted "2024-01-01"
      (<["search_keyword" := VList [VStr "java"]]>
         (JobDataProcessor.add_metadata_one "2023-12-01" ""
            (site_listing "A1" "Engineer"))) in
  let all_jobs :=
    JobDataProcessor.add_metadata "2024-05-01"
      [site_listing "A1" "Engineer"] "python" in
  stored !! "search_keyword" = Some (VList [VStr "java"]) /\
  CrawlerOrchestrator.crawl_save no_links (VStr "2024-05-01T08:00:00")
    "2024-05-01" all_jobs [stored]
    = Ok ([a1_saved], [delete "delisted_date" a1_saved]) /\
  a1_saved !! "search_keyword" = Some (VList [VStr "python"]).
Proof. by_evaluation. Qed.

(** C4 (amended).  For a listing that the prior state holds as inactive and
    that the batch of raw listings contains, [process_jobs] returns a
    record that is active, has no [delisted_date], has [last_update_date]
    today, and whose [search_keyword] holds the keywords of this batch for
    the listing and no other; [reactivate_jobs] sets a stored inactive
    listing of its list active, removes its [delisted_date], sets its
    [last_update_date] to today and changes no other field. *)
Theorem reconcile_reactivates (split_link_field : string -> string * string * string)
    (today : string) :
  (forall (jobs : list Job) (existing_jobs : pydict value) (lid : string),
      Forall (fun j => raw_listing j = true) jobs ->
      (exists j, j ∈ jobs /\ listing_id j = Some lid) ->
      dict_get (VStr lid) existing_jobs = Some (VStr "inactive") ->
      exists out o kws,
        JobDataProcessor.process_jobs split_link_field today jobs existing_jobs
          = Ok out /\
        o ∈ out /\ listing_id o = Some lid /\
        o !! "status" = Some (VStr "active") /\
        o !! "delisted_date" = None /\
        o !! "last_update_date" = Some (VStr today) /\
        o !! "search_keyword" = Some (VList (VStr <$> kws)) /\
        (forall w, w ∈ kws <->
                   exists j, j ∈ jobs /\ listing_id j = Some lid /\
                             keyword_of j = Some w)) /\
  (forall (job_ids : list value) (docs : list Job) (i : nat) (doc : Job),
      docs !! i = Some doc ->
      MongoDBManager.jobNo_in job_ids doc = true ->
      MongoDBManager.has_status "inactive" doc = true ->
      exists doc',
        MongoDBManager.reactivate_jobs today job_ids docs !! i = Some doc' /\
        reactivated today doc doc').
Proof.
  split.
  - intros jobs existing lid Hraw (j & Hj & Hlid) Hex.
    destruct (for_each_merge_inv jobs [] [] merge_inv_nil Hraw)
      as (m & Hm & Hinv). simpl in Hinv.
    pose proof (group_nonempty _ _ _ Hj Hlid) as Hg.
    destruct (merge_inv_lookup _ _ _ Hinv Hg) as (o0 & Ho0 & Hrec).
    pose proof (merge_inv_all_ids _ _ Hinv) as Hids.
    destruct (map_each_Forall2 (JobDataProcessor.status_one today existing)
                (dict_values m)) as (out1 & Hout1 & HF2).
    { eapply Forall_impl; [exact Hids|]. intros o (lid' & Hl').
      destruct (status_one_listing today existing o lid' Hl') as (o' & Ho' & _).
      by exists o'. }
    apply list_elem_of_lookup in Ho0 as [i Hi].
    destruct (Forall2_lookup_l _ _ _ _ _ HF2 Hi) as (o1 & Hi1 & Hst).
    pose proof (merged_record_listing_id _ _ _ Hrec) as Hl0.
    destruct (status_one_listing today existing o0 lid Hl0)
      as (o1' & Ho1' & Hlud & Hframe & Hact).
    rewrite Hst in Ho1'. injection Ho1' as <-.
    destruct (Hact Hex) as [Hstatus Hdel].
    destruct Hrec as (first & rest & kws & Hgrp & Hf & Hk & _ & Hw).
    exists (JobDataProcessor._process_job_fields split_link_field out1),
           (JobDataProcessor.address_one
              (JobDataProcessor.link_one split_link_field o1)), kws.
    split; [|split; [|split; [|split; [|split; [|split; [|split]]]]]].
    + unfold JobDataProcessor.process_jobs,
        JobDataProcessor._merge_job_keywords,
        JobDataProcessor._process_job_status.
      destruct jobs as [|j0 jobs]; [by apply elem_of_nil in Hj|].
      rewrite Hm. cbn [mbind res_bind].
      destruct existing as [|e existing]; [done|].
      destruct (dict_values m) as [|x xs] eqn:Hv; [done|].
      rewrite Hout1. done.
    + unfold JobDataProcessor._process_job_fields.
      apply list_elem_of_In, in_map. apply in_map. apply list_elem_of_In.
      by apply list_elem_of_lookup_2 in Hi1.
    + unfold listing_id. rewrite fields_one_lookup by done.
      rewrite Hframe by done. exact Hl0.
    + by rewrite fields_one_lookup by done.
    + by rewrite fields_one_lookup by done.
    + by rewrite fields_one_lookup by done.
    + rewrite fields_one_lookup by done. by rewrite Hframe by done.
    + intros w. rewrite Hw, <- Hgrp. unfold group.
      setoid_rewrite list_elem_of_filter. naive_solver.
  - intros ids docs i doc Hi Hin Hst.
    unfold MongoDBManager.reactivate_jobs.
    destruct ids as [|v ids].
    { unfold MongoDBManager.jobNo_in in Hin. by destruct (doc !! "jobNo"). }
    eexists. split; [by apply lookup_map|]. cbv beta.
    rewrite Hin, Hst. apply reactivated_insert.
Qed.

Lemma reconcile_reactivates_witness :
  exists out o kws,
    JobDataProcessor.process_jobs no_links "2024-05-01"
      [raw "A1" "python" "Engineer"] [(VStr "A1", VStr "inactive")] = Ok out /\
    o ∈ out /\ listing_id o = Some "A1" /\
    o !! "status" = Some (VStr "active") /\
    o !! "delisted_date" = None /\
    o !! "last_update_date" = Some (VStr "2024-05-01") /\
    o !! "search_keyword" = Some (VList (VStr <$> kws)) /\
    (forall w, w ∈ kws <->
               exists j, j ∈ [raw "A1" "python" "Engineer"] /\
                         listing_id j = Some "A1" /\ keyword_of j = Some w).
Proof.
  apply (proj1 (reconcile_reactivates no_links "2024-05-01")).
  - repeat constructor.
  - exists (raw "A1" "python" "Engineer"). split; [apply elem_of_cons; by left|done].
  - reflexivity.
Defined.

(** C5, as stated, fails: a first run finds A1 under python and java, a
    second run under python alone; the save of the second run overwrites
    the stored keywords and java is gone. *)
Lemma second_run_drops_keyword :
  let run1 :=
    JobDataProcessor.add_metadata "2024-05-01" [site_listing "A1" "Engineer"] "python"
    ++ JobDataProcessor.add_metadata "2024-05-01" [site_listing "A1" "Engineer"] "java" in
  let run2 :=
    JobDataProcessor.add_metadata "2024-05-02" [site_listing "A1" "Engineer"] "python" in
  CrawlerOrchestrator.crawl_save no_links (VStr "2024-05-01T08:00:00")
    "2024-05-01" run1 []
    = Ok ([a1_first_run], [delete "discovery_date" a1_first_run]) /\
  a1_first_run !! "search_keyword" = Some (VList [VStr "python"; VStr "java"]) /\
  CrawlerOrchestrator.crawl_save no_links (VStr "2024-05-02T08:00:00")
    "2024-05-02" run2 [a1_first_run]
    = Ok ([a1_second_run], [delete "discovery_date" a1_second_run]) /\
  a1_second_run !! "search_keyword" = Some (VList [VStr "python"]).
Proof. by_evaluation. Qed.

Lemma update_one_upsert_lookup (today : string) (id : value) (job : Job)
    (docs : list Job) (i : nat) (doc : Job) :
  docs !! i = Some doc ->
  MongoDBManager.update_one_upsert today id job docs !! i = Some doc \/
  MongoDBManager.update_one_upsert today id job docs !! i = Some (job ∪ doc).
Proof.
  revert i. induction docs as [|d docs IH]; intros i Hi; [done|].
  simpl. destruct (MongoDBManager.matches_jobNo id d).
  - destruct i as [|i]; simpl in *; [|by left]. injection Hi as ->. by right.
  - destruct i as [|i]; simpl in *; [by left|]. by apply IH.
Qed.

Lemma upsert_ops_keywords (today : string) (ops : list (value * Job))
    (docs docs' : list Job) (i : nat) (doc : Job) :
  for_each (fun docs (op : value * Job) =>
              let '(id, job) := op in
              match job !! "discovery_date" with
              | Some _ => Raise WriteError
              | None => Ok (MongoDBManager.update_one_upsert today id job docs)
              end) docs ops = Ok docs' ->
  docs !! i = Some doc ->
  exists doc',
    docs' !! i = Some doc' /\
    (doc' !! "search_keyword" = doc !! "search_keyword" \/
     exists op, op ∈ ops /\ is_Some (op.2 !! "search_keyword") /\
                doc' !! "search_keyword" = op.2 !! "search_keyword").
Proof.
  revert docs doc. induction ops as [|[id job] ops IH]; intros docs doc H Hi.
  - simpl in H. injection H as <-. exists doc. split; [done|by left].
  - simpl in H. destruct (job !! "discovery_date"); [done|]. simpl in H.
    destruct (update_one_upsert_lookup today id job docs i doc Hi) as [H1|H1].
    + destruct (IH _ _ H H1) as (doc' & Hd' & [Hsame|(op & Hop & Hs & Heq)]).
      * exists doc'. split; [done|by left].
      * exists doc'. split; [done|]. right. exists op.
        split; [by apply elem_of_cons; right|done].
    + destruct (IH _ _ H H1) as (doc' & Hd' & [Hsame|(op & Hop & Hs & Heq)]).
      * exists doc'. split; [done|].
        destruct (job !! "search_keyword") as [kw|] eqn:Hkw.
        -- right. exists (id, job). split; [apply elem_of_cons; by left|].
           simpl. rewrite Hkw. split; [by eexists|].
           rewrite Hsame. by apply lookup_union_Some_l.
        -- left. rewrite Hsame. by rewrite lookup_union_r.
      * exists doc'. split; [done|]. right. exists op.
        split; [by apply elem_of_cons; right|done].
Qed.

Lemma insert_jobs_operations (now : value) (jobs : list Job)
    (ops : list (value * Job)) :
  map_each (fun job : Job =>
              match job !! "jobNo" with
              | Some id => Ok (id, job)
              | None => Raise KeyError
              end)
           (MongoDBManager.stamped now jobs)
    = Ok ops ->
  forall op, op ∈ ops ->
    exists job, job ∈ jobs /\ op.2 = <["mongodb_update_time" := now]> job.
Proof.
  unfold MongoDBManager.stamped.
  revert ops. induction jobs as [|job jobs IH]; intros ops H op Hop; simpl in H.
  - injection H as <-. by apply elem_of_nil in Hop.
  - destruct (_ !! "jobNo") as [id|]; [|done]. simpl in H.
    destruct (map_each _ _) as [ops'|] eqn:Hops; [|done]. simpl in H.
    injection H as <-. apply elem_of_cons in Hop as [->|Hop].
    + exists job. split; [apply elem_of_cons; by left|done].
    + destruct (IH ops' eq_refl op Hop) as (job' & Hin & Heq).
      exists job'. split; [by apply elem_of_cons; right|done].
Qed.

Lemma py_eq_str_l (lid : string) (v : value) :
  py_eq (VStr lid) v = true -> v = VStr lid.
Proof.
  destruct v; simpl; try done. by intros ->%String.eqb_eq.
Qed.

Lemma py_eq_str_r (lid : string) (v : value) :
  py_eq v (VStr lid) = true -> v = VStr lid.
Proof.
  destruct v; simpl; try done. by intros ->%String.eqb_eq.
Qed.

Lemma py_eq_str_refl (lid : string) : py_eq (VStr lid) (VStr lid) = true.
Proof. simpl. apply String.eqb_refl. Qed.

(** The filter on a listing ID finds the stored listing with this ID when
    no listing before it has the ID: that one gets the fields of the
    record, and the listings before it keep their IDs. *)
Lemma update_one_upsert_first (today : string) (id : value) (job : Job)
    (pre post : list Job) (doc : Job) (lid : string) :
  Forall (fun d => MongoDBManager.matches_jobNo (VStr lid) d = false) pre ->
  doc !! "jobNo" = Some (VStr lid) ->
  job !! "jobNo" = Some id ->
  exists pre' post',
    MongoDBManager.update_one_upsert today id job (pre ++ doc :: post)
      = pre' ++ (if py_eq (VStr lid) id then job ∪ doc else doc) :: post' /\
    length pre' = length pre /\
    Forall (fun d => MongoDBManager.matches_jobNo (VStr lid) d = false) pre'.
Proof.
  intros Hpre Hdoc Hjob. induction Hpre as [|d pre Hd Hpre IH].
  - cbn [app MongoDBManager.update_one_upsert].
    unfold MongoDBManager.matches_jobNo at 1. rewrite Hdoc.
    destruct (py_eq (VStr lid) id).
    + by exists [], post.
    + by exists [], (MongoDBManager.update_one_upsert today id job post).
  - cbn [app MongoDBManager.update_one_upsert].
    destruct (MongoDBManager.matches_jobNo id d) eqn:Hm.
    + assert (Hne : id <> VStr lid).
      { intros ->. by rewrite Hm in Hd. }
      assert (Hid : py_eq (VStr lid) id = false).
      { destruct (py_eq (VStr lid) id) eqn:E; [|done].
        by apply py_eq_str_l in E. }
      rewrite Hid. exists (job ∪ d :: pre), post.
      split; [done|]. split; [done|]. apply List.Forall_cons; [|done].
      unfold MongoDBManager.matches_jobNo.
      rewrite (lookup_union_Some_l _ _ _ _ Hjob).
      destruct (py_eq id (VStr lid)) eqn:E; [|done].
      by apply py_eq_str_r in E.
    + destruct IH as (pre' & post' & -> & Hlen & Hall).
      exists (d :: pre'), post'. split; [done|]. split.
      * cbn [length]. by rewrite Hlen.
      * by apply List.Forall_cons.
Qed.

Lemma saved_under_py_eq (lid : string) (job : Job) (id : value) :
  job !! "jobNo" = Some id -> saved_under lid job = py_eq (VStr lid) id.
Proof.
  intros H. unfold saved_under. rewrite H.
  destruct id; try done. cbn [py_eq]. apply String.eqb_sym.
Qed.

(** The bulk write of [insert_jobs], followed on one stored listing: its
    [search_keyword] ends as the one of the record saved last under its
    ID, and as it was when the batch saves no record under its ID. *)
Lemma upsert_ops_replace (now : value) (today lid : string) (jobs : list Job) :
  forall (ops : list (value * Job)) (pre post docs' : list Job) (doc : Job),
    map_each (fun job : Job =>
                match job !! "jobNo" with
                | Some id => Ok (id, job)
                | None => Raise KeyError
                end)
             (MongoDBManager.stamped now jobs) = Ok ops ->
    for_each (fun docs (op : value * Job) =>
                let '(id, job) := op in
                match job !! "discovery_date" with
                | Some _ => Raise WriteError
                | None => Ok (MongoDBManager.update_one_upsert today id job docs)
                end) (pre ++ doc :: post) ops = Ok docs' ->
    Forall (fun d => MongoDBManager.matches_jobNo (VStr lid) d = false) pre ->
    doc !! "jobNo" = Some (VStr lid) ->
    exists pre' doc' post',
      docs' = pre' ++ doc' :: post' /\ length pre' = length pre /\
      (forall job kw,
          last_saved lid jobs = Some job ->
          job !! "search_keyword" = Some kw ->
          doc' !! "search_keyword" = Some kw) /\
      (last_saved lid jobs = None ->
       doc' !! "search_keyword" = doc !! "search_keyword").
Proof.
  unfold MongoDBManager.stamped, last_saved.
  induction jobs as [|job0 jobs IH]; intros ops pre post docs' doc Hops Hrun Hpre Hdoc.
  { injection Hops as <-. injection Hrun as <-. exists pre, doc, post.
    split; [done|]. split; [done|]. split; [done|done]. }
  cbn [map map_each] in Hops.
  rewrite lookup_insert_ne in Hops by done.
  destruct (job0 !! "jobNo") as [id|] eqn:Hid; [|done].
  cbn [mbind res_bind] in Hops.
  destruct (map_each _ (map _ jobs)) as [ops'|] eqn:Hops'; [|done].
  cbn [mbind res_bind] in Hops. injection Hops as <-.
  cbn [for_each] in Hrun.
  destruct (<["mongodb_update_time":=now]> job0 !! "discovery_date") eqn:Hdd;
    [done|].
  cbn [mbind res_bind] in Hrun.
  destruct (update_one_upsert_first today id
              (<["mongodb_update_time":=now]> job0) pre post doc lid Hpre Hdoc)
    as (pre1 & post1 & Hstep & Hlen1 & Hpre1).
  { by rewrite lookup_insert_ne by done. }
  rewrite Hstep in Hrun.
  rewrite filter_cons, (saved_under_py_eq lid job0 id Hid).
  destruct (py_eq (VStr lid) id) eqn:Hsaved.
  - apply py_eq_str_l in Hsaved. subst id.
    destruct (IH ops' pre1 post1 docs' _ eq_refl Hrun Hpre1)
      as (pre' & doc' & post' & -> & Hlen & Hlast & Hnone).
    { apply lookup_union_Some_l. by rewrite lookup_insert_ne by done. }
    exists pre', doc', post'. split; [done|]. split; [congruence|].
    rewrite decide_True by done. rewrite last_cons. split.
    + intros job kw Hjob Hkw.
      destruct (last (filter _ jobs)) as [j|] eqn:Hl.
      * injection Hjob as ->. by apply (Hlast job kw).
      * injection Hjob as ->. rewrite (Hnone eq_refl).
        apply lookup_union_Some_l. by rewrite lookup_insert_ne by done.
    + by destruct (last (filter _ jobs)).
  - destruct (IH ops' pre1 post1 docs' doc eq_refl Hrun Hpre1 Hdoc)
      as (pre' & doc' & post' & -> & Hlen & Hlast & Hnone).
    exists pre', doc', post'. split; [done|]. split; [congruence|].
    by rewrite decide_False by done.
Qed.

(** A stored listing is the first with its ID when the IDs are distinct. *)
Lemma unique_first (docs : list Job) (i : nat) (doc : Job) (lid : string) :
  NoDup ((fun d : Job => d !! "jobNo") <$> docs) ->
  docs !! i = Some doc -> doc !! "jobNo" = Some (VStr lid) ->
  Forall (fun d => MongoDBManager.matches_jobNo (VStr lid) d = false)
         (take i docs).
Proof.
  intros Hnd Hi Hdoc. apply Forall_forall. intros d Hd.
  apply list_elem_of_lookup in Hd as [j Hj].
  assert (Hlt : (j < i)%nat).
  { apply lookup_lt_Some in Hj. rewrite length_take in Hj. lia. }
  rewrite lookup_take_lt in Hj by done.
  unfold MongoDBManager.matches_jobNo.
  destruct (d !! "jobNo") as [v|] eqn:Hv; [|done].
  destruct (py_eq v (VStr lid)) eqn:E; [|done].
  apply py_eq_str_r in E. subst v. exfalso.
  assert (j = i); [|lia].
  apply (NoDup_lookup _ j i (Some (VStr lid)) Hnd).
  - by rewrite list_lookup_fmap, Hj; cbn; rewrite Hv.
  - by rewrite list_lookup_fmap, Hi; cbn; rewrite Hdoc.
Qed.

Lemma insert_jobs_keyword (now : value) (today : string)
    (jobs docs docs' : list Job) (i : nat) (doc : Job) (lid : string) :
  MongoDBManager.insert_jobs now today jobs docs = Ok docs' ->
  NoDup ((fun d : Job => d !! "jobNo") <$> docs) ->
  docs !! i = Some doc -> doc !! "jobNo" = Some (VStr lid) ->
  exists doc',
    docs' !! i = Some doc' /\
    (forall job kw,
        last_saved lid jobs = Some job ->
        job !! "search_keyword" = Some kw ->
        doc' !! "search_keyword" = Some kw) /\
    (last_saved lid jobs = None ->
     doc' !! "search_keyword" = doc !! "search_keyword").
Proof.
  intros H Hnd Hi Hdoc. unfold MongoDBManager.insert_jobs in H.
  destruct jobs as [|j0 jobs].
  { injection H as <-. exists doc. split; [done|]. split; [done|done]. }
  set (js := j0 :: jobs) in *.
  destruct (map_each _ (MongoDBManager.stamped now js)) as [ops|] eqn:Hops;
    [|done].
  cbn [mbind res_bind] in H.
  rewrite <- (take_drop_middle docs i doc Hi) in H.
  destruct (upsert_ops_replace now today lid js ops (take i docs)
              (drop (S i) docs) docs' doc Hops H
              (unique_first docs i doc lid Hnd Hi Hdoc) Hdoc)
    as (pre' & doc' & post' & -> & Hlen & Hlast & Hnone).
  exists doc'. split; [|by split].
  apply list_lookup_middle. rewrite Hlen, length_take.
  apply lookup_lt_Some in Hi. lia.
Qed.

(** C5 (amended).  [update_job_status] and [reactivate_jobs] leave
    [search_keyword] of every stored listing as it is.  [insert_jobs]
    replaces it: after a save a stored listing has the [search_keyword] it
    had or the one of a record of the batch; where the IDs of the stored
    listings are distinct (the unique index of mongodb_manager.py 101),
    a stored listing under whose ID the batch saves a record has the
    [search_keyword] of the record saved last under this ID, whatever it
    had before, and a stored listing under whose ID the batch saves no
    record keeps its own. *)
Theorem keywords_after_lifecycle_operations (today : string) :
  (forall (current_job_ids : list value) (docs : list Job) (i : nat) (doc : Job),
      docs !! i = Some doc ->
      exists doc',
        MongoDBManager.update_job_status today current_job_ids docs !! i
          = Some doc' /\
        doc' !! "search_keyword" = doc !! "search_keyword") /\
  (forall (job_ids : list value) (docs : list Job) (i : nat) (doc : Job),
      docs !! i = Some doc ->
      exists doc',
        MongoDBManager.reactivate_jobs today job_ids docs !! i = Some doc' /\
        doc' !! "search_keyword" = doc !! "search_keyword") /\
  (forall (now : value) (jobs docs docs' : list Job) (i : nat) (doc : Job),
      MongoDBManager.insert_jobs now today jobs docs = Ok docs' ->
      docs !! i = Some doc ->
      exists doc',
        docs' !! i = Some doc' /\
        (doc' !! "search_keyword" = doc !! "search_keyword" \/
         exists job,
           job ∈ jobs /\ is_Some (job !! "search_keyword") /\
           doc' !! "search_keyword" = job !! "search_keyword")) /\
  (forall (now : value) (jobs docs docs' : list Job) (i : nat) (doc : Job)
          (lid : string) (job : Job) (kw : value),
      MongoDBManager.insert_jobs now today jobs docs = Ok docs' ->
      NoDup ((fun d : Job => d !! "jobNo") <$> docs) ->
      docs !! i = Some doc -> doc !! "jobNo" = Some (VStr lid) ->
      last_saved lid jobs = Some job ->
      job !! "search_keyword" = Some kw ->
      exists doc',
        docs' !! i = Some doc' /\ doc' !! "search_keyword" = Some kw) /\
  (forall (now : value) (jobs docs docs' : list Job) (i : nat) (doc : Job)
          (lid : string),
      MongoDBManager.insert_jobs now today jobs docs = Ok docs' ->
      NoDup ((fun d : Job => d !! "jobNo") <$> docs) ->
      docs !! i = Some doc -> doc !! "jobNo" = Some (VStr lid) ->
      last_saved lid jobs = None ->
      exists doc',
        docs' !! i = Some doc' /\
        doc' !! "search_keyword" = doc !! "search_keyword").
Proof.
  split; [|split; [|split; [|split]]].
  - intros ids docs i doc Hi. unfold MongoDBManager.update_job_status.
    destruct ids as [|v ids]; [by exists doc|].
    eexists. split; [by apply lookup_map|]. cbv beta.
    destruct (_ && _); [|done]. by rewrite !lookup_insert_ne by done.
  - intros ids docs i doc Hi. unfold MongoDBManager.reactivate_jobs.
    destruct ids as [|v ids]; [by exists doc|].
    eexists. split; [by apply lookup_map|]. cbv beta.
    destruct (_ && _); [|done]. rewrite lookup_delete_ne by done.
    by rewrite !lookup_insert_ne by done.
  - intros now jobs docs docs' i doc H Hi. unfold MongoDBManager.insert_jobs in H.
    destruct jobs as [|j0 jobs].
    { injection H as <-. exists doc. split; [done|by left]. }
    set (js := j0 :: jobs) in *.
    destruct (map_each _ (MongoDBManager.stamped now js)) as [ops|] eqn:Hops; [|done].
    cbn [mbind res_bind] in H.
    destruct (upsert_ops_keywords today ops docs docs' i doc H Hi)
      as (doc' & Hd' & [Hsame|(op & Hop & Hs & Heq)]).
    + exists doc'. split; [done|by left].
    + exists doc'. split; [done|]. right.
      destruct (insert_jobs_operations now js ops Hops op Hop) as (job & Hin & Hjob).
      exists job. rewrite Hjob in Hs, Heq.
      rewrite lookup_insert_ne in Hs, Heq by done. done.
  - intros now jobs docs docs' i doc lid job kw H Hnd Hi Hdoc Hlast Hkw.
    destruct (insert_jobs_keyword now today jobs docs docs' i doc lid
                H Hnd Hi Hdoc) as (doc' & Hd' & Hrep & _).
    exists doc'. split; [done|]. by apply (Hrep job kw).
  - intros now jobs docs docs' i doc lid H Hnd Hi Hdoc Hlast.
    destruct (insert_jobs_keyword now today jobs docs docs' i doc lid
                H Hnd Hi Hdoc) as (doc' & Hd' & _ & Hkeep).
    exists doc'. split; [done|]. by apply Hkeep.
Qed.

Lemma keywords_after_lifecycle_operations_witness :
  let job := <["search_keyword" := VList [VStr "python"]]>
               (raw "A1" "python" "Engineer") in
  let doc := <["search_keyword" := VList [VStr "python"; VStr "java"]]>
               (raw "A1" "python" "Engineer") in
  exists doc',
    [<["mongodb_update_time" := VNone]> job ∪ doc] !! 0%nat = Some doc' /\
    doc' !! "search_keyword" = Some (VList [VStr "python"]).
Proof.
  intros job doc.
  apply (proj1 (proj2 (proj2 (proj2
           (keywords_after_lifecycle_operations "2024-05-02"))))
           VNone [job] [doc] _ 0%nat doc "A1" job (VList [VStr "python"])).
  - lazymatch goal with
    | |- @eq ?T _ ?b => vm_cast_no_check (@eq_refl T b)
    end.
  - vm_compute. repeat constructor. set_solver.
  - reflexivity.
  - vm_compute. reflexivity.
  - lazymatch goal with
    | |- @eq ?T _ ?b => vm_cast_no_check (@eq_refl T b)
    end.
  - vm_compute. reflexivity.
Defined.

(** ** Idempotence of the reconciliation *)

Lemma dict_get_None_keys {V : Type} (k : value) (d : pydict V) :
  dict_get k d = None <-> existsb (fun k' => py_eq k' k) (dict_keys d) = false.
Proof.
  induction d as [|[k' v] d IH]; simpl; [done|].
  destruct (py_eq k' k); simpl; [split; discriminate|done].
Qed.

Lemma dict_set_None {V : Type} (k : value) (v : V) (d : pydict V) :
  dict_get k d = None -> dict_set k v d = d ++ [(k, v)].
Proof.
  induction d as [|[k' v'] d IH]; simpl; [done|].
  destruct (py_eq k' k); [discriminate|]. intros H. by rewrite IH.
Qed.

Lemma dict_set_Some_keys {V : Type} (k : value) (v old : V) (d : pydict V) :
  dict_get k d = Some old -> dict_keys (dict_set k v d) = dict_keys d.
Proof.
  induction d as [|[k' v'] d IH]; simpl; [done|].
  destruct (py_eq k' k); [done|]. intros H. simpl. by rewrite IH.
Qed.

Lemma dict_set_Some_Forall {V : Type} (P : value * V -> Prop) (k : value)
    (v old : V) (d : pydict V) :
  dict_get k d = Some old -> Forall P d ->
  (forall k', P (k', old) -> P (k', v)) ->
  Forall P (dict_set k v d).
Proof.
  intros Hget Hall HP. induction d as [|[k' v'] d IH]; simpl in *; [done|].
  apply Forall_cons in Hall as [He Hall].
  destruct (py_eq k' k).
  - injection Hget as ->. apply Forall_cons. split; [by apply HP|done].
  - apply Forall_cons. split; [done|]. by apply IH.
Qed.

Lemma fresh_keys_snoc (seen ks : list value) (k : value) :
  fresh_keys seen ks ->
  existsb (fun k' => py_eq k' k) (seen ++ ks) = false ->
  fresh_keys seen (ks ++ [k]).
Proof.
  revert seen. induction ks as [|k0 ks IH]; intros seen Hf Hk; simpl in *.
  - rewrite app_nil_r in Hk. done.
  - destruct Hf as [H0 Hf]. split; [done|]. apply IH; [done|].
    by rewrite <- app_assoc.
Qed.

Lemma dict_get_entry {V : Type} (P : value * V -> Prop) (k : value) (v : V)
    (d : pydict V) :
  dict_get k d = Some v -> Forall P d -> exists k', P (k', v).
Proof.
  induction d as [|[k' v'] d IH]; simpl; [done|]. intros Hget Hall.
  apply Forall_cons in Hall as [He Hall]. destruct (py_eq k' k).
  - injection Hget as ->. by exists k'.
  - by apply IH.
Qed.

Lemma merged_keywords_not_str (existing_keywords new_keyword v : value) :
  JobDataProcessor.merged_keywords existing_keywords new_keyword = Ok v ->
  is_str v = false.
Proof.
  unfold JobDataProcessor.merged_keywords.
  set (ek := if is_str _ then _ else _).
  assert (Hek : is_str ek = false).
  { subst ek. destruct (is_str existing_keywords) eqn:Hs; [done|].
    by destruct (negb (truthy _)). }
  destruct (truthy new_keyword); [|by intros [= <-]].
  destruct (py_in new_keyword ek) as [present|]; [|done]. simpl.
  destruct present; simpl; [by intros [= <-]|].
  destruct ek; simpl; try done. by intros [= <-].
Qed.

Lemma keyword_as_list_entry (j : Job) (k : value) :
  j !! "jobNo" = Some k -> truthy k = true -> hashable k = true ->
  merged_entry (k, JobDataProcessor.keyword_as_list j).
Proof.
  intros Hk Ht Hh. unfold merged_entry, JobDataProcessor.keyword_as_list. simpl.
  destruct (j !! "search_keyword") as [v|] eqn:Hv.
  - destruct v; (split; [|split; [done|split; [done|]]]);
      try (by rewrite ?lookup_insert_ne by done);
      try (eexists; split; [exact Hv|done]).
    eexists. split; [apply lookup_insert_eq|done].
  - split; [by rewrite lookup_insert_ne|]. split; [done|]. split; [done|].
    eexists. split; [apply lookup_insert_eq|done].
Qed.

(** The merge keeps its map keyed, whatever the batch holds. *)
Lemma merge_one_keyed (m m' : pydict Job) (j : Job) :
  keyed m -> JobDataProcessor.merge_one m j = Ok m' -> keyed m'.
Proof.
  intros [Hall Hfresh]. unfold JobDataProcessor.merge_one.
  destruct (j !! "jobNo") as [k|] eqn:Hk; cbn [from_option]; unfold id;
    [|by intros [= <-]].
  destruct (truthy k) eqn:Ht; cbn [negb]; [|by intros [= <-]].
  destruct (hashable k) eqn:Hh; cbn [negb]; [|done].
  destruct (dict_get k m) as [existing|] eqn:Hget.
  - destruct (JobDataProcessor.merged_keywords _ _) as [kws|] eqn:Hkws; [|done].
    cbn [mbind res_bind]. intros [= <-].
    apply merged_keywords_not_str in Hkws. split.
    + eapply dict_set_Some_Forall; [exact Hget|exact Hall|].
      intros k' (Hj & Ht' & Hh' & _). unfold merged_entry. simpl in *.
      split; [by rewrite lookup_insert_ne|]. split; [done|]. split; [done|].
      exists kws. split; [apply lookup_insert_eq|done].
    + by rewrite (dict_set_Some_keys _ _ _ _ Hget).
  - intros [= <-]. rewrite (dict_set_None _ _ _ Hget). split.
    + apply Forall_app. split; [done|]. apply Forall_singleton.
      by apply keyword_as_list_entry.
    + unfold dict_keys. rewrite map_app. simpl.
      apply fresh_keys_snoc; [done|]. by apply dict_get_None_keys.
Qed.

Lemma for_each_merge_keyed (jobs : list Job) (m m' : pydict Job) :
  keyed m -> for_each JobDataProcessor.merge_one m jobs = Ok m' -> keyed m'.
Proof.
  revert m. induction jobs as [|j jobs IH]; intros m Hm H; simpl in H.
  - by injection H as <-.
  - destruct (JobDataProcessor.merge_one m j) as [m1|] eqn:H1; [|done].
    simpl in H. eapply IH; [|exact H]. by eapply merge_one_keyed.
Qed.

(** Merging the records of a keyed map again rebuilds the map. *)
Lemma remerge_from (m2 m1 : pydict Job) :
  Forall merged_entry m2 -> fresh_keys (dict_keys m1) (dict_keys m2) ->
  for_each JobDataProcessor.merge_one m1 (dict_values m2) = Ok (m1 ++ m2).
Proof.
  revert m1. induction m2 as [|[k o] m2 IH]; intros m1 Hall Hfresh.
  - simpl. by rewrite app_nil_r.
  - apply Forall_cons in Hall as [(Hj & Ht & Hh & v & Hv & Hs) Hall].
    destruct Hfresh as [Hk Hfresh]. cbn [fst snd] in *.
    apply dict_get_None_keys in Hk.
    assert (Hone : JobDataProcessor.merge_one m1 o = Ok (m1 ++ [(k, o)])).
    { unfold JobDataProcessor.merge_one. rewrite Hj.
      cbn [from_option]; unfold id. rewrite Ht, Hh. cbn [negb].
      rewrite Hk, (dict_set_None _ _ _ Hk).
      unfold JobDataProcessor.keyword_as_list. rewrite Hv. by destruct v. }
    change (dict_values ((k, o) :: m2)) with (o :: dict_values m2).
    cbn [for_each]. rewrite Hone. cbn [mbind res_bind].
    rewrite IH; [by rewrite <- app_assoc|done|].
    unfold dict_keys in *. by rewrite map_app.
Qed.

Lemma keyed_values (m : pydict Job) :
  Forall merged_entry m -> map (fun o => (key_of o, o)) (dict_values m) = m.
Proof.
  induction 1 as [|[k o] m (Hj & _) _ IH]; [done|].
  simpl in *. unfold key_of at 1. rewrite Hj. simpl. by rewrite IH.
Qed.

Lemma merge_output_reconciled (jobs out : list Job) :
  JobDataProcessor._merge_job_keywords jobs = Ok out -> reconciled out.
Proof.
  unfold JobDataProcessor._merge_job_keywords. intros H.
  assert (Hnil : keyed []) by (split; [constructor|done]).
  destruct jobs as [|j jobs]; [by injection H as <-|].
  destruct (for_each _ _ _) as [m|] eqn:Hm; [|done]. simpl in H.
  injection H as <-. pose proof (for_each_merge_keyed _ _ _ Hnil Hm) as Hk.
  unfold reconciled. by rewrite (keyed_values m (proj1 Hk)).
Qed.

Lemma reconciled_remerge (out : list Job) :
  reconciled out -> JobDataProcessor._merge_job_keywords out = Ok out.
Proof.
  intros [Hall Hfresh]. unfold JobDataProcessor._merge_job_keywords.
  destruct out as [|o out]; [done|].
  pose proof (remerge_from _ [] Hall Hfresh) as H.
  assert (Hv : forall l : list Job,
             dict_values (map (fun o => (key_of o, o)) l) = l).
  { intros l. unfold dict_values. rewrite map_map. simpl. apply map_id. }
  rewrite Hv in H. rewrite H. simpl. by rewrite Hv.
Qed.

Lemma reconciled_ext (out out' : list Job) :
  Forall2 same_identity out out' -> reconciled out -> reconciled out'.
Proof.
  intros HF [Hall Hfresh]. split.
  - clear Hfresh. induction HF as [|o o' out out' [Hj Hk] _ IH]; [constructor|].
    simpl in *. apply Forall_cons in Hall as [(H1 & H2 & H3 & v & H4 & H5) Hall].
    apply Forall_cons. split; [|by apply IH].
    unfold merged_entry, key_of in *. simpl in *. rewrite Hj, Hk. eauto 10.
  - assert (Hkeys : dict_keys (map (fun o => (key_of o, o)) out') =
                    dict_keys (map (fun o => (key_of o, o)) out)).
    { clear -HF. induction HF as [|o o' out out' [Hj Hk] _ IH]; [done|].
      simpl. unfold key_of at 1 3. rewrite Hj. by f_equal. }
    by rewrite Hkeys.
Qed.

Lemma status_one_frame (today : string) (existing : pydict value) (r r' : Job) :
  JobDataProcessor.status_one today existing r = Ok r' ->
  forall f, f <> "last_update_date" -> f <> "status" -> f <> "delisted_date" ->
            r' !! f = r !! f.
Proof.
  unfold JobDataProcessor.status_one.
  destruct (negb (truthy _)); [by intros [= <-]|].
  destruct (negb (hashable _)); [done|].
  destruct (dict_get _ existing) as [status|].
  - destruct (py_eq status _); intros [= <-] f H1 H2 H3.
    + rewrite lookup_delete_ne by done. by rewrite !lookup_insert_ne by done.
    + by rewrite lookup_insert_ne.
  - intros [= <-] f H1 H2 H3. by rewrite lookup_insert_ne.
Qed.

(** A record that already carries what the status step writes is left as
    it is. *)
Lemma status_one_settles (today : string) (existing : pydict value)
    (r r' x : Job) :
  JobDataProcessor.status_one today existing r = Ok r' ->
  x !! "jobNo" = r !! "jobNo" ->
  x !! "last_update_date" = r' !! "last_update_date" ->
  x !! "status" = r' !! "status" ->
  x !! "delisted_date" = r' !! "delisted_date" ->
  JobDataProcessor.status_one today existing x = Ok x.
Proof.
  unfold JobDataProcessor.status_one. intros H Hj Hl Hs Hd. rewrite Hj.
  destruct (negb (truthy _)); [done|].
  destruct (negb (hashable _)); [done|].
  destruct (dict_get _ existing) as [status|].
  - destruct (py_eq status _); injection H as <-; f_equal.
    + rewrite lookup_delete_ne, lookup_insert_ne, lookup_insert_eq in Hl by done.
      rewrite lookup_delete_ne, lookup_insert_eq in Hs by done.
      rewrite lookup_delete_eq in Hd.
      rewrite (insert_id x "last_update_date") by done.
      rewrite (insert_id x "status") by done.
      by apply delete_id.
    + rewrite lookup_insert_eq in Hl. by apply insert_id.
  - injection H as <-. f_equal. rewrite lookup_insert_eq in Hl.
    by apply insert_id.
Qed.

Section FieldsIdempotent.

Variable split_link_field : string -> string * string * string.

#[local] Abbreviation link_one := (JobDataProcessor.link_one split_link_field).
#[local] Abbreviation fields_one :=
  (fun r => JobDataProcessor.address_one (link_one r)).

Lemma link_one_settles (r x : Job) :
  x !! "link" = r !! "link" ->
  x !! "applyAnalyze" = link_one r !! "applyAnalyze" ->
  x !! "job" = link_one r !! "job" ->
  x !! "cust" = link_one r !! "cust" ->
  link_one x = x.
Proof.
  unfold JobDataProcessor.link_one. intros Hl Ha Hj Hc. rewrite Hl.
  destruct (r !! "link") as [link|]; [|done].
  destruct (truthy link); [|done].
  destruct (JobDataProcessor.link_urls split_link_field link)
    as [[[a j] c]|]; [|done].
  rewrite !lookup_insert_ne, lookup_insert_eq in Ha by done.
  rewrite lookup_insert_ne, lookup_insert_eq in Hj by done.
  rewrite lookup_insert_eq in Hc.
  rewrite (insert_id x "applyAnalyze") by done.
  rewrite (insert_id x "job") by done.
  by apply insert_id.
Qed.

Lemma address_one_settles (r x : Job) :
  x !! "jobAddrNoDesc" = r !! "jobAddrNoDesc" ->
  x !! "city" = JobDataProcessor.address_one r !! "city" ->
  x !! "district" = JobDataProcessor.address_one r !! "district" ->
  JobDataProcessor.address_one x = x.
Proof.
  unfold JobDataProcessor.address_one. intros Ha Hc Hd. rewrite Ha.
  destruct (r !! "jobAddrNoDesc") as [[| |address| |]|]; try done.
  destruct (truthy (VStr address)); [|done].
  destruct (split_city_district address) as [city district].
  rewrite lookup_insert_ne, lookup_insert_eq in Hc by done.
  rewrite lookup_insert_eq in Hd.
  rewrite (insert_id x "city") by done. by apply insert_id.
Qed.

Lemma fields_one_idempotent (r : Job) : fields_one (fields_one r) = fields_one r.
Proof.
  cbv beta.
  rewrite (link_one_settles r (JobDataProcessor.address_one (link_one r))).
  - apply (address_one_settles (link_one r)); [|done|done].
    by rewrite address_one_lookup.
  - rewrite address_one_lookup by done. by apply link_one_lookup.
  - by rewrite address_one_lookup.
  - by rewrite address_one_lookup.
  - by rewrite address_one_lookup.
Qed.

Lemma process_job_fields_idempotent (jobs : list Job) :
  JobDataProcessor._process_job_fields split_link_field
    (JobDataProcessor._process_job_fields split_link_field jobs) =
  JobDataProcessor._process_job_fields split_link_field jobs.
Proof.
  unfold JobDataProcessor._process_job_fields. rewrite !map_map.
  apply map_ext. intros r. apply fields_one_idempotent.
Qed.

Lemma cons_neq_nil {A : Type} (x : A) (l : list A) : x :: l <> [].
Proof. done. Qed.

Lemma map_each_Forall2_inv {A B : Type} (f : A -> res B) (l : list A)
    (l' : list B) :
  map_each f l = Ok l' -> Forall2 (fun x y => f x = Ok y) l l'.
Proof.
  revert l'. induction l as [|x l IH]; intros l' H; simpl in H.
  - injection H as <-. constructor.
  - destruct (f x) as [y|] eqn:Hy; [|done]. simpl in H.
    destruct (map_each f l) as [ys|]; [|done]. simpl in H.
    injection H as <-. constructor; [done|]. by apply IH.
Qed.

Lemma map_each_fixed {A : Type} (f : A -> res A) (l : list A) :
  Forall (fun x => f x = Ok x) l -> map_each f l = Ok l.
Proof.
  induction 1 as [|x l Hx _ IH]; [done|]. simpl. by rewrite Hx, IH.
Qed.

Lemma process_job_status_Forall2 (today : string) (jobs jobs' : list Job)
    (existing : pydict value) :
  existing <> [] ->
  JobDataProcessor._process_job_status today jobs existing = Ok jobs' ->
  Forall2 (fun r r' => JobDataProcessor.status_one today existing r = Ok r')
          jobs jobs'.
Proof.
  intros Hne H. unfold JobDataProcessor._process_job_status in H.
  destruct jobs as [|j jobs]; [injection H as <-; constructor|].
  destruct existing as [|e existing]; [done|].
  by apply map_each_Forall2_inv.
Qed.

Lemma process_job_status_fixed (today : string) (jobs : list Job)
    (existing : pydict value) :
  Forall (fun r => JobDataProcessor.status_one today existing r = Ok r) jobs ->
  JobDataProcessor._process_job_status today jobs existing = Ok jobs.
Proof.
  intros H. unfold JobDataProcessor._process_job_status.
  destruct jobs as [|j jobs]; [done|].
  destruct existing as [|e existing]; [done|].
  by apply map_each_fixed.
Qed.

(** C6.  [process_jobs] is idempotent: applied to its own result against
    the same prior state, it returns that result again, and it raises on
    the second application only what it raised on the first. *)
Theorem process_jobs_idempotent (today : string) (jobs : list Job)
    (existing_jobs : pydict value) :
  (out ← JobDataProcessor.process_jobs split_link_field today jobs existing_jobs;
   JobDataProcessor.process_jobs split_link_field today out existing_jobs) =
  JobDataProcessor.process_jobs split_link_field today jobs existing_jobs.
Proof.
  destruct (JobDataProcessor.process_jobs split_link_field today jobs
              existing_jobs) as [out|e] eqn:Hfirst; [|done].
  cbn [mbind res_bind].
  unfold JobDataProcessor.process_jobs in Hfirst.
  destruct jobs as [|j0 jobs']; [by injection Hfirst as <-|].
  set (jobs := j0 :: jobs') in *.
  destruct (JobDataProcessor._merge_job_keywords jobs) as [out0|] eqn:Hmerge;
    [|done].
  cbn [mbind res_bind] in Hfirst.
  pose proof (merge_output_reconciled _ _ Hmerge) as Hrec0.
  assert (Hstep : exists out1,
             out = JobDataProcessor._process_job_fields split_link_field out1 /\
             Forall2 same_identity out0 out1 /\
             (existing_jobs <> [] ->
              Forall2 (fun r r' =>
                         JobDataProcessor.status_one today existing_jobs r = Ok r')
                      out0 out1)).
  { destruct existing_jobs as [|e existing'].
    - injection Hfirst as <-. exists out0. split; [done|]. split; [|done].
      clear. induction out0; constructor; done.
    - destruct (JobDataProcessor._process_job_status today out0 (e :: existing'))
        as [out1|] eqn:Hst; [|done].
      injection Hfirst as <-. exists out1. split; [done|].
      assert (HF := process_job_status_Forall2 _ _ _ _ (@cons_neq_nil _ e existing') Hst).
      split; [|done].
      eapply Forall2_impl; [exact HF|]. intros r r' Hr.
      split; by apply (status_one_frame _ _ _ _ Hr). }
  destruct Hstep as (out1 & -> & Hid & Hstatus).
  set (out := JobDataProcessor._process_job_fields split_link_field out1).
  assert (Hfields : Forall2 same_identity out1 out).
  { subst out. unfold JobDataProcessor._process_job_fields. rewrite map_map.
    clear. induction out1 as [|r out1 IH]; constructor; [|done].
    split; by apply fields_one_lookup. }
  assert (Hrec : reconciled out).
  { eapply reconciled_ext; [exact Hfields|].
    eapply reconciled_ext; [exact Hid|done]. }
  unfold JobDataProcessor.process_jobs.
  destruct out as [|o out'] eqn:Hout; [done|]. rewrite <- Hout in *.
  rewrite (reconciled_remerge out Hrec). cbn [mbind res_bind].
  assert (Hst2 : (match existing_jobs with
                  | [] => Ok out
                  | _ :: _ =>
                      JobDataProcessor._process_job_status today out existing_jobs
                  end) = Ok out).
  { destruct existing_jobs as [|e existing']; [done|].
    apply process_job_status_fixed.
    specialize (Hstatus (@cons_neq_nil _ e existing')).
    set (existing := e :: existing') in *.
    subst out. unfold JobDataProcessor._process_job_fields. rewrite map_map.
    clear -Hstatus.
    induction Hstatus as [|r r' out0 out1 Hr _ IH]; constructor; [|done].
    apply (status_one_settles today existing r r'); [done| | | |].
    - rewrite fields_one_lookup by done.
      by apply (status_one_frame _ _ _ _ Hr).
    - by rewrite fields_one_lookup.
    - by rewrite fields_one_lookup.
    - by rewrite fields_one_lookup. }
  rewrite Hst2. cbn [mbind res_bind].
  subst out. by rewrite process_job_fields_idempotent.
Qed.

End FieldsIdempotent.

(** ** The transport: HTTP 429 *)

(** C8, as stated: the retry after a 429 also waits the jittered delay. *)
Lemma retry_after_429_also_waits_backoff :
  HttpAdapter.async_request crawler_adapter throttled_once =
    ([HttpAdapter.Request; HttpAdapter.Sleep 10;
      HttpAdapter.SleepUniform (3 # 2) (5 # 1); HttpAdapter.Request],
     HttpAdapter.Payload 1) /\
  HttpAdapter.request crawler_adapter throttled_once =
    ([HttpAdapter.Request; HttpAdapter.Sleep 10;
      HttpAdapter.SleepUniform (3 # 2) (5 # 1); HttpAdapter.Request],
     HttpAdapter.Payload 1).
Proof. split; reflexivity. Qed.

Section Throttled.

Variable self : HttpAdapter.adapter.
Variable server : nat -> HttpAdapter.answer.
Variable sleep_raises_on_negative : bool.
Variable exhausted : HttpAdapter.result.

#[local] Abbreviation attempts :=
  (HttpAdapter.attempts self server sleep_raises_on_negative exhausted).

(** C8 (amended).  When the answer to a request is 429 with a readable
    [Retry-After] (60 when the header is absent), the adapter sleeps that
    time, counts the attempt as a retry, and, when an attempt is left,
    sleeps the jittered delay of the new retry count as well before it
    sends the next request; when no attempt is left it stops. *)
Theorem retry_after_then_backoff (left retries : nat)
    (header : HttpAdapter.retry_after) (wait : Z) :
  server retries = HttpAdapter.Status 429 header ->
  HttpAdapter.wait_time header = Some wait ->
  sleep_raises_on_negative && (wait <? 0)%Z = false ->
  attempts (S left) retries =
    (HttpAdapter.retry_delay self retries
       ++ [HttpAdapter.Request; HttpAdapter.Sleep wait]
       ++ (attempts left (S retries)).1,
     (attempts left (S retries)).2) /\
  match left with
  | O => attempts left (S retries) = ([], exhausted)
  | S _ =>
      exists events,
        (attempts left (S retries)).1 =
        HttpAdapter.SleepUniform
          (HttpAdapter.min_retry_delay self * inject_Z (Z.of_nat (S retries)))
          (HttpAdapter.max_retry_delay self * inject_Z (Z.of_nat (S retries)))
        :: HttpAdapter.Request :: events
  end.
Proof.
  intros Hs Hw Hneg. split.
  - cbn [HttpAdapter.attempts]. rewrite Hs. cbn [Z.eqb Pos.eqb].
    rewrite Hw, Hneg. destruct (attempts left (S retries)) as [events r].
    by rewrite <- app_assoc.
  - destruct left as [|left]; [done|].
    cbn [HttpAdapter.attempts]. unfold HttpAdapter.retry_delay at 1. simpl Nat.ltb.
    cbv iota.
    destruct (server (S retries)) as [code h|].
    + repeat (match goal with
              | |- context [if ?c then _ else _] => destruct c
              | |- context [match ?c with Some _ => _ | None => _ end] => destruct c
              | |- context [let '(_, _) := ?c in _] => destruct c
              end; simpl); by eexists.
    + repeat (match goal with
              | |- context [if ?c then _ else _] => destruct c
              | |- context [let '(_, _) := ?c in _] => destruct c
              end; simpl); by eexists.
Qed.

End Throttled.

Lemma retry_after_then_backoff_witness :
  HttpAdapter.attempts crawler_adapter throttled_once false HttpAdapter.ErrorDict 3 0 =
    (HttpAdapter.retry_delay crawler_adapter 0
       ++ [HttpAdapter.Request; HttpAdapter.Sleep 10]
       ++ (HttpAdapter.attempts crawler_adapter throttled_once false
             HttpAdapter.ErrorDict 2 1).1,
     (HttpAdapter.attempts crawler_adapter throttled_once false
        HttpAdapter.ErrorDict 2 1).2) /\
  exists events,
    (HttpAdapter.attempts crawler_adapter throttled_once false
       HttpAdapter.ErrorDict 2 1).1 =
    HttpAdapter.SleepUniform
      (HttpAdapter.min_retry_delay crawler_adapter * inject_Z (Z.of_nat 1))
      (HttpAdapter.max_retry_delay crawler_adapter * inject_Z (Z.of_nat 1))
    :: HttpAdapter.Request :: events.
Proof.
  apply (retry_after_then_backoff crawler_adapter throttled_once false
           HttpAdapter.ErrorDict 2 0 (HttpAdapter.Seconds 10) 10);
    reflexivity.
Defined.

(** ** The transport: the retry loop and the URLs *)

Section Attempts.

Variable self : HttpAdapter.adapter.
Variable server : nat -> HttpAdapter.answer.
Variable sleep_raises_on_negative : bool.
Variable exhausted : HttpAdapter.result.

#[local] Abbreviation attempts' :=
  (HttpAdapter.attempts self server sleep_raises_on_negative exhausted).

Lemma requests_sent_app (l l' : list HttpAdapter.event) :
  requests_sent (l ++ l') = (requests_sent l + requests_sent l')%nat.
Proof. unfold requests_sent. by rewrite filter_app, length_app. Qed.

Lemma requests_sent_retry_delay (k : nat) :
  requests_sent (HttpAdapter.retry_delay self k) = 0%nat.
Proof. unfold HttpAdapter.retry_delay. by destruct (0 <? k)%nat. Qed.

Lemma requests_sent_rounds (k : nat) (rs : list (list HttpAdapter.event)) :
  Forall reaction rs -> requests_sent (rounds self k rs) = length rs.
Proof.
  intros H. revert k. induction H as [|r rs Hr _ IH]; intros k; [done|].
  cbn [rounds length]. rewrite !requests_sent_app, requests_sent_retry_delay, IH.
  destruct Hr as [->|[->|[w ->]]]; reflexivity.
Qed.

Lemma attempts_rounds (left retries : nat) :
  exists rs,
    (attempts' left retries).1 = rounds self retries rs /\
    (length rs <= left)%nat /\ Forall reaction rs.
Proof.
  revert retries. induction left as [|left IH]; intros retries.
  { exists []. by repeat split. }
  destruct (IH (S retries)) as (rs & Hrs & Hlen & Hall).
  assert (Hone : forall r, reaction r ->
            exists rs',
              HttpAdapter.retry_delay self retries ++ [HttpAdapter.Request] ++ r
                = rounds self retries rs' /\
              (length rs' <= S left)%nat /\ Forall reaction rs').
  { intros r Hr. exists [r]. cbn [rounds length]. rewrite app_nil_r.
    repeat split; [lia|by constructor]. }
  assert (Hmore : forall r, reaction r ->
            exists rs',
              (HttpAdapter.retry_delay self retries ++ [HttpAdapter.Request]) ++ r
                ++ (attempts' left (S retries)).1
                = rounds self retries rs' /\
              (length rs' <= S left)%nat /\ Forall reaction rs').
  { intros r Hr. exists (r :: rs). cbn [rounds length]. rewrite Hrs, <- !app_assoc.
    repeat split; [lia|by constructor]. }
  assert (Hnil : reaction []) by (by left).
  assert (Hhandler :
            exists rs',
              (if (retries <? HttpAdapter.max_retries self - 1)%nat
               then let '(events, r) := attempts' left (S retries) in
                    ((HttpAdapter.retry_delay self retries ++ [HttpAdapter.Request])
                       ++ events, r)
               else (HttpAdapter.retry_delay self retries ++ [HttpAdapter.Request],
                     exhausted)).1
                = rounds self retries rs' /\
              (length rs' <= S left)%nat /\ Forall reaction rs').
  { destruct (retries <? _)%nat.
    - destruct (Hmore [] Hnil) as (rs' & H1 & H2).
      exists rs'. destruct (attempts' left (S retries)) as [ev r]. by split.
    - destruct (Hone [] Hnil) as (rs' & H1 & H2). exists rs'.
      split; [|done]. cbn [fst]. rewrite <- H1. reflexivity. }
  cbn [HttpAdapter.attempts].
  destruct (server retries) as [code header|]; [|exact Hhandler].
  destruct (code =? 403).
  { destruct (Hmore (if HttpAdapter.rotate_user_agent self
                     then [HttpAdapter.UpdateUserAgent] else []))
      as (rs' & H1 & H2).
    { destruct (HttpAdapter.rotate_user_agent self); [right; by left|by left]. }
    exists rs'. destruct (attempts' left (S retries)) as [ev r]. by split. }
  destruct (code =? 429).
  { destruct (HttpAdapter.wait_time header) as [w|]; [|exact Hhandler].
    destruct (sleep_raises_on_negative && (w <? 0)); [exact Hhandler|].
    destruct (Hmore [HttpAdapter.Sleep w]) as (rs' & H1 & H2).
    { right; right. by exists w. }
    exists rs'. destruct (attempts' left (S retries)) as [ev r]. by split. }
  destruct (HttpAdapter.raises_for_status code); [exact Hhandler|].
  destruct (Hone [] Hnil) as (rs' & H1 & H2). exists rs'.
  split; [|done]. cbn [fst]. rewrite <- H1. reflexivity.
Qed.

Lemma attempts_success (left retries : nat) :
  success (server retries) = true ->
  (attempts' (S left) retries).2 = HttpAdapter.Payload retries.
Proof.
  intros H. cbn [HttpAdapter.attempts].
  destruct (server retries) as [code header|]; [|done]. cbn [success] in H.
  apply andb_true_iff in H as [H1 H2].
  assert (H403 : (code =? 403) = false) by lia.
  assert (H429 : (code =? 429) = false) by lia.
  rewrite H403, H429. unfold HttpAdapter.raises_for_status. by rewrite H1, H2.
Qed.

Lemma attempts_retry (left retries : nat) :
  (S left + retries)%nat = HttpAdapter.max_retries self ->
  success (server retries) = false ->
  (attempts' (S left) retries).2 = (attempts' left (S retries)).2.
Proof.
  intros Hmax H.
  assert (Hhandler : forall done : list HttpAdapter.event,
            (if (retries <? HttpAdapter.max_retries self - 1)%nat
             then let '(events, r) := attempts' left (S retries) in
                  (done ++ events, r)
             else (done, exhausted)).2 = (attempts' left (S retries)).2).
  { intros done. destruct (retries <? _)%nat eqn:Hlt.
    - by destruct (attempts' left (S retries)).
    - apply Nat.ltb_ge in Hlt. assert (left = 0%nat) as -> by lia. done. }
  cbn [HttpAdapter.attempts].
  destruct (server retries) as [code header|]; [|apply Hhandler].
  destruct (code =? 403); [by destruct (attempts' left (S retries))|].
  destruct (code =? 429).
  { destruct (HttpAdapter.wait_time header) as [w|]; [|apply Hhandler].
    destruct (sleep_raises_on_negative && (w <? 0)); [apply Hhandler|].
    by destruct (attempts' left (S retries)). }
  unfold HttpAdapter.raises_for_status. cbn [success] in H. rewrite H.
  apply Hhandler.
Qed.

Lemma attempts_payload (left retries k : nat) :
  (forall n, exhausted <> HttpAdapter.Payload n) ->
  (left + retries)%nat = HttpAdapter.max_retries self ->
  (attempts' left retries).2 = HttpAdapter.Payload k <->
  (retries <= k < HttpAdapter.max_retries self)%nat /\
  success (server k) = true /\
  (forall i, (retries <= i < k)%nat -> success (server i) = false).
Proof.
  intros Hex. revert retries. induction left as [|left IH]; intros retries Hmax.
  { cbn [HttpAdapter.attempts snd]. split; [by intros ?%Hex|lia]. }
  destruct (success (server retries)) eqn:Hs.
  - rewrite (attempts_success left retries Hs). split.
    + intros [= <-]. split; [lia|]. split; [done|]. intros i Hi. lia.
    + intros (Hk & _ & Hbefore).
      destruct (decide (k = retries)) as [->|Hne]; [done|].
      rewrite (Hbefore retries) in Hs by lia. done.
  - rewrite (attempts_retry left retries Hmax Hs).
    rewrite (IH (S retries)) by lia. split.
    + intros (Hk & Hsk & Hbefore). split; [lia|]. split; [done|].
      intros i Hi. destruct (decide (i = retries)) as [->|Hne]; [done|].
      apply Hbefore. lia.
    + intros (Hk & Hsk & Hbefore).
      assert (k <> retries) by (intros ->; congruence).
      split; [lia|]. split; [done|]. intros i Hi. apply Hbefore. lia.
Qed.

End Attempts.

(** X1.  Whatever the server answers, a call of [async_request] or of
    [request] sends its requests one attempt after the other, at most
    [max_retries] of them: before every attempt but the first it sleeps
    the jittered delay of that attempt's number, and after a request it
    retries it does nothing, or picks a new User-Agent, or sleeps the time
    a 429 asks for. *)
Theorem request_trace_shape (self : HttpAdapter.adapter)
    (server : nat -> HttpAdapter.answer) :
  (exists reactions,
      (HttpAdapter.async_request self server).1 = rounds self 0 reactions /\
      Forall reaction reactions /\
      requests_sent (HttpAdapter.async_request self server).1 = length reactions /\
      (length reactions <= HttpAdapter.max_retries self)%nat) /\
  (exists reactions,
      (HttpAdapter.request self server).1 = rounds self 0 reactions /\
      Forall reaction reactions /\
      requests_sent (HttpAdapter.request self server).1 = length reactions /\
      (length reactions <= HttpAdapter.max_retries self)%nat).
Proof.
  unfold HttpAdapter.async_request, HttpAdapter.request. split.
  - destruct (attempts_rounds self server false HttpAdapter.ErrorDict
                (HttpAdapter.max_retries self) 0) as (rs & H & Hlen & Hall).
    exists rs. rewrite H. by rewrite requests_sent_rounds.
  - destruct (attempts_rounds self server true HttpAdapter.Raised
                (HttpAdapter.max_retries self) 0) as (rs & H & Hlen & Hall).
    exists rs. rewrite H. by rewrite requests_sent_rounds.
Qed.

(** X2.  A call of [async_request] or of [request] ends with the payload
    of attempt [k] exactly when [k] is below [max_retries], the answer to
    attempt [k] is a 2xx response, and no earlier answer is: 403, 429,
    other statuses and failed requests all use up one attempt. *)
Theorem request_returns_first_success (self : HttpAdapter.adapter)
    (server : nat -> HttpAdapter.answer) (k : nat) :
  ((HttpAdapter.async_request self server).2 = HttpAdapter.Payload k <->
   (k < HttpAdapter.max_retries self)%nat /\ success (server k) = true /\
   (forall i, (i < k)%nat -> success (server i) = false)) /\
  ((HttpAdapter.request self server).2 = HttpAdapter.Payload k <->
   (k < HttpAdapter.max_retries self)%nat /\ success (server k) = true /\
   (forall i, (i < k)%nat -> success (server i) = false)).
Proof.
  unfold HttpAdapter.async_request, HttpAdapter.request. split.
  - rewrite attempts_payload; [|done|lia].
    split; intros (H1 & H2 & H3); (split; [lia|]); (split; [done|]);
      intros i Hi; apply H3; lia.
  - rewrite attempts_payload; [|done|lia].
    split; intros (H1 & H2 & H3); (split; [lia|]); (split; [done|]);
      intros i Hi; apply H3; lia.
Qed.

Lemma append_cons (a : ascii) (s t : string) :
  (String a s ++ t)%string = String a (s ++ t).
Proof. reflexivity. Qed.




Lemma string_app_assoc (a b c : string) :
  ((a ++ b) ++ c = a ++ b ++ c)%string.
Proof. induction a as [|x a IH]; [done|]. by rewrite !append_cons, IH. Qed.

Lemma prefix_app (p s t : string) :
  String.prefix p s = true -> String.prefix p (s ++ t) = true.
Proof.
  revert s. induction p as [|a p IH]; intros s.
  { intros _. by destruct (s ++ t)%string. }
  destruct s as [|b s]; [done|]. rewrite append_cons. cbn [String.prefix].
  destruct (Ascii.ascii_dec a b); [apply IH|done].
Qed.


(** X4.  With an absolute base URL, [_build_url] always returns an
    absolute URL, and building the URL of its result changes nothing. *)
Theorem build_url_absolute_stable (base_url url : string) :
  absolute base_url = true ->
  absolute (HttpAdapter._build_url base_url url) = true /\
  HttpAdapter._build_url base_url (HttpAdapter._build_url base_url url) =
  HttpAdapter._build_url base_url url.
Proof.
  intros Hbase.
  assert (Habs : absolute (HttpAdapter._build_url base_url url) = true).
  { unfold HttpAdapter._build_url.
    destruct (String.prefix "http://" url || String.prefix "https://" url)
      eqn:Hurl; [exact Hurl|].
    assert (Hne : String.eqb base_url "" = false)
      by (destruct base_url; [discriminate Hbase|done]).
    rewrite Hne. cbn [negb].
    assert (Happ : forall t, absolute (base_url ++ t) = true).
    { intros t. unfold absolute in *.
      apply orb_true_iff in Hbase as [H|H];
        apply orb_true_iff; [left|right]; by apply prefix_app. }
    repeat (match goal with |- context [if ?c then _ else _] => destruct c end);
      apply Happ. }
  split; [exact Habs|].
  unfold HttpAdapter._build_url at 1. unfold absolute in Habs. by rewrite Habs.
Qed.

Lemma build_url_absolute_stable_witness :
  absolute "https://www.104.com.tw/" = true /\
  absolute (HttpAdapter._build_url "https://www.104.com.tw/" "/jobs/search/list")
    = true /\
  HttpAdapter._build_url "https://www.104.com.tw/"
    (HttpAdapter._build_url "https://www.104.com.tw/" "/jobs/search/list") =
  HttpAdapter._build_url "https://www.104.com.tw/" "/jobs/search/list".
Proof.
  split; [reflexivity|].
  apply (build_url_absolute_stable "https://www.104.com.tw/" "/jobs/search/list").
  reflexivity.
Defined.

(** ** The stores: the coupling of status and delisted date *)

Lemma status_is_has_status (s : string) (job : Job) :
  FileJobStorage.status_is s job = MongoDBManager.has_status s job.
Proof.
  unfold FileJobStorage.status_is, MongoDBManager.has_status.
  by destruct (job !! "status").
Qed.

Lemma dict_set_Forall_snd {V : Type} (P : V -> Prop) (k : value) (v : V)
    (d : pydict V) :
  P v -> Forall (fun e => P e.2) d -> Forall (fun e => P e.2) (dict_set k v d).
Proof.
  intros Hv Hall. induction d as [|[k' v'] d IH]; simpl.
  - by repeat constructor.
  - apply Forall_cons in Hall as [He Hall].
    destruct (py_eq k' k); apply Forall_cons; split; auto.
Qed.

Lemma dict_get_Forall_snd {V : Type} (P : V -> Prop) (k : value) (v : V)
    (d : pydict V) :
  Forall (fun e => P e.2) d -> dict_get k d = Some v -> P v.
Proof.
  intros Hall. induction d as [|[k' v'] d IH]; simpl; [done|].
  apply Forall_cons in Hall as [He Hall].
  destruct (py_eq k' k); [by intros [= <-]|by apply IH].
Qed.

Lemma file_reactivate_jobs_coupled (today : string) (job_ids : list value)
    (cache cache' : pydict Job) :
  FileJobStorage.reactivate_jobs today job_ids cache = Ok cache' ->
  coupled_cache cache -> coupled_cache cache'.
Proof.
  unfold FileJobStorage.reactivate_jobs, coupled_cache.
  revert cache. induction job_ids as [|job_id ids IH]; intros cache H Hc.
  { by injection H as <-. }
  cbn [for_each] in H.
  destruct (negb (hashable job_id)); [done|].
  destruct (dict_get job_id cache) as [job|] eqn:Hget;
    cbn [mbind res_bind] in H; [|by apply (IH cache)].
  destruct (FileJobStorage.status_is JOB_STATUS_INACTIVE job);
    cbn [mbind res_bind] in H; [|by apply (IH cache)].
  apply (IH _ H). apply (dict_set_Forall_snd (fun j => coupled j = true)); [|done].
  eapply reactivated_coupled, reactivated_insert.
Qed.

(** X5.  [update_job_status], of [MongoDBManager] and of
    [FileJobStorage], keeps the coupling: when every stored listing is
    inactive exactly when it has a delisted date, the same holds after the
    call, whatever the list of discovered IDs. *)
Theorem update_job_status_keeps_coupling (today : string)
    (current_job_ids : list value) :
  (forall docs : list Job,
      coupled_docs docs ->
      coupled_docs (MongoDBManager.update_job_status today current_job_ids docs)) /\
  (forall cache : pydict Job,
      coupled_cache cache ->
      coupled_cache (FileJobStorage.update_job_status today current_job_ids cache)).
Proof.
  split.
  - intros docs. apply update_job_status_coupled.
  - intros cache H. unfold FileJobStorage.update_job_status, coupled_cache.
    destruct current_job_ids as [|v ids]; [done|].
    destruct cache as [|e cache']; [done|].
    apply Forall_forall. intros e' Hin.
    apply list_elem_of_In, in_map_iff in Hin as ([job_id job] & <- & Hin).
    apply list_elem_of_In in Hin.
    destruct (_ && _).
    + eapply deactivated_coupled, deactivated_insert.
    + by apply (proj1 (Forall_forall _ _) H (job_id, job)).
Qed.

(** X6.  [reactivate_jobs], of [MongoDBManager] and of [FileJobStorage],
    keeps the coupling of every stored listing, whatever the list of IDs;
    the one of [FileJobStorage] raises only on an unhashable ID. *)
Theorem reactivate_jobs_keeps_coupling (today : string) (job_ids : list value) :
  (forall docs : list Job,
      coupled_docs docs ->
      coupled_docs (MongoDBManager.reactivate_jobs today job_ids docs)) /\
  (forall cache : pydict Job,
      coupled_cache cache ->
      match FileJobStorage.reactivate_jobs today job_ids cache with
      | Ok cache' => coupled_cache cache'
      | Raise e => e = TypeError /\ Exists (fun id => hashable id = false) job_ids
      end).
Proof.
  split.
  - intros docs. apply reactivate_jobs_coupled.
  - intros cache H.
    destruct (FileJobStorage.reactivate_jobs today job_ids cache)
      as [cache'|e] eqn:Hr.
    + by apply (file_reactivate_jobs_coupled today job_ids cache).
    + clear H. unfold FileJobStorage.reactivate_jobs in Hr. revert cache Hr.
      induction job_ids as [|job_id ids IH]; intros cache Hr; [done|].
      cbn [for_each] in Hr.
      destruct (hashable job_id) eqn:Hh; cbn [negb] in Hr.
      * assert (Hrest : exists c, for_each
                  (fun (cache : pydict Job) (job_id : value) =>
                     if negb (hashable job_id) then Raise TypeError
                     else
                       match dict_get job_id cache with
                       | Some job =>
                           if FileJobStorage.status_is JOB_STATUS_INACTIVE job
                           then Ok (dict_set job_id
                                      (delete "delisted_date"
                                         (<["last_update_date" := VStr today]>
                                            (<["status" := VStr JOB_STATUS_ACTIVE]> job)))
                                      cache)
                           else Ok cache
                       | None => Ok cache
                       end) c ids = Raise e).
        { destruct (dict_get job_id cache) as [job|];
            [destruct (FileJobStorage.status_is JOB_STATUS_INACTIVE job)|];
            cbn [mbind res_bind] in Hr; by eexists. }
        destruct Hrest as (c & Hc). destruct (IH c Hc) as [-> Hex].
        split; [done|]. by apply Exists_cons_tl.
      * cbn [mbind res_bind] in Hr. injection Hr as <-.
        split; [done|]. by apply Exists_cons_hd.
Qed.

(** X7.  [Crawler._process_job_status], which marks the missing listings
    and reactivates the ones found again, keeps the coupling of every
    stored listing, also when it stops on an exception. *)
Theorem crawler_process_job_status_keeps_coupling (today : string)
    (jobs docs : list Job) :
  coupled_docs docs ->
  coupled_docs (Crawler._process_job_status today jobs docs).2.
Proof.
  intros H. unfold Crawler._process_job_status.
  destruct jobs as [|j0 jobs']; [done|].
  destruct (map_each _ _) as [ids|]; [|done].
  destruct (MongoDBManager.get_existing_jobs docs); [done|].
  pose proof (update_job_status_coupled today ids docs H) as Hu.
  destruct (Crawler.status_loop _ _ _) as [[js re] fin].
  destruct fin; [|done]. by apply reactivate_jobs_coupled.
Qed.

Lemma crawler_process_job_status_keeps_coupling_witness :
  coupled_docs [stored_active; stored_inactive] /\
  coupled_docs
    (Crawler._process_job_status "2024-05-01"
       [JobDataProcessor.add_metadata_one "2024-05-01" "python"
          (site_listing "B2" "Clerk")]
       [stored_active; stored_inactive]).2.
Proof.
  assert (H : coupled_docs [stored_active; stored_inactive]).
  { repeat (apply List.Forall_cons; [vm_compute; reflexivity|]).
    apply List.Forall_nil. }
  split; [exact H|].
  exact (crawler_process_job_status_keeps_coupling "2024-05-01" _ _ H).
Defined.

(** ** The stores: saving a batch *)

Lemma insert_jobs_unfold (now : value) (today : string) (jobs docs : list Job) :
  MongoDBManager.insert_jobs now today jobs docs =
  (operations ← map_each operation_of (MongoDBManager.stamped now jobs);
   for_each (upsert_op today) docs operations).
Proof. by destruct jobs. Qed.

Lemma update_one_upsert_discovery (today : string) (id : value) (job : Job)
    (docs : list Job) :
  job !! "discovery_date" = None ->
  (forall i doc, docs !! i = Some doc ->
     exists doc1,
       MongoDBManager.update_one_upsert today id job docs !! i = Some doc1 /\
       doc1 !! "discovery_date" = doc !! "discovery_date") /\
  (forall i doc1,
     MongoDBManager.update_one_upsert today id job docs !! i = Some doc1 ->
     (length docs <= i)%nat ->
     doc1 !! "discovery_date" = Some (VStr today)).
Proof.
  intros Hjob. split.
  - intros i doc Hi.
    destruct (update_one_upsert_lookup today id job docs i doc Hi) as [H|H];
      eexists; (split; [exact H|]); [done|].
    by apply lookup_union_r.
  - induction docs as [|d docs IH]; intros i doc1 Hi Hlen.
    + destruct i as [|i]; [|done]. simpl in Hi. injection Hi as <-.
      by rewrite lookup_insert_eq.
    + simpl in Hi. destruct (MongoDBManager.matches_jobNo id d).
      * apply lookup_lt_Some in Hi. simpl in *. lia.
      * destruct i as [|i]; simpl in *; [lia|]. apply (IH i); [done|lia].
Qed.

Lemma upsert_ops_discovery (today : string) (ops : list (value * Job))
    (docs docs' : list Job) (n : nat) :
  for_each (upsert_op today) docs ops = Ok docs' ->
  (forall i doc, docs !! i = Some doc -> (n <= i)%nat ->
                 doc !! "discovery_date" = Some (VStr today)) ->
  (forall i doc, docs !! i = Some doc ->
     exists doc', docs' !! i = Some doc' /\
                  doc' !! "discovery_date" = doc !! "discovery_date") /\
  (forall i doc', docs' !! i = Some doc' -> (n <= i)%nat ->
                  doc' !! "discovery_date" = Some (VStr today)).
Proof.
  revert docs. induction ops as [|[id job] ops IH]; intros docs H Hnew.
  { injection H as <-. split; [by eauto|done]. }
  cbn [for_each upsert_op] in H.
  destruct (job !! "discovery_date") eqn:Hjob; [done|].
  cbn [mbind res_bind] in H.
  destruct (update_one_upsert_discovery today id job docs Hjob) as [Hold Hfresh].
  destruct (IH _ H) as [Hold' Hnew'].
  { intros i doc1 Hi Hn.
    destruct (docs !! i) as [doc|] eqn:Hdoc.
    - destruct (Hold i doc Hdoc) as (doc1' & Hi' & Heq).
      rewrite Hi in Hi'. injection Hi' as <-. rewrite Heq. by apply (Hnew i).
    - apply (Hfresh i doc1 Hi). by apply lookup_ge_None. }
  split; [|done].
  intros i doc Hi. destruct (Hold i doc Hi) as (doc1 & Hi1 & Heq1).
  destruct (Hold' i doc1 Hi1) as (doc' & Hi' & Heq').
  exists doc'. split; [done|]. by rewrite Heq'.
Qed.

(** X8.  A save never removes a stored listing and never changes the
    discovery date of one: after [insert_jobs] every document is still
    at its place with the [discovery_date] it had (or still none), and
    every document the save has added carries today's. *)
Theorem insert_jobs_keeps_discovery_date (now : value) (today : string)
    (jobs docs docs' : list Job) :
  MongoDBManager.insert_jobs now today jobs docs = Ok docs' ->
  (length docs <= length docs')%nat /\
  (forall i doc, docs !! i = Some doc ->
     exists doc', docs' !! i = Some doc' /\
                  doc' !! "discovery_date" = doc !! "discovery_date") /\
  (forall i doc', docs' !! i = Some doc' -> (length docs <= i)%nat ->
                  doc' !! "discovery_date" = Some (VStr today)).
Proof.
  rewrite insert_jobs_unfold. intros H.
  destruct (map_each operation_of _) as [ops|]; [|done].
  cbn [mbind res_bind] in H.
  destruct (upsert_ops_discovery today ops docs docs' (length docs) H)
    as [Hold Hnew].
  { intros i doc Hi Hlen. apply lookup_lt_Some in Hi. lia. }
  split; [|by split].
  destruct (decide (length docs <= length docs')%nat) as [|Hlt]; [done|].
  destruct (lookup_lt_is_Some_2 docs (length docs')) as [doc Hdoc]; [lia|].
  destruct (Hold _ _ Hdoc) as (doc' & Hd' & _).
  apply lookup_lt_Some in Hd'. lia.
Qed.

Lemma insert_jobs_keeps_discovery_date_witness :
  MongoDBManager.insert_jobs (VStr "2024-05-02T08:00:00") "2024-05-02"
    [JobDataProcessor.add_metadata_one "2024-05-02" "python"
       (site_listing "A1" "Engineer");
     JobDataProcessor.add_metadata_one "2024-05-02" "python"
       (site_listing "C3" "Analyst")]
    [a1_first_run] = Ok saved_twice /\
  (length [a1_first_run] <= length saved_twice)%nat /\
  (forall i doc, [a1_first_run] !! i = Some doc ->
     exists doc', saved_twice !! i = Some doc' /\
                  doc' !! "discovery_date" = doc !! "discovery_date") /\
  (forall i doc', saved_twice !! i = Some doc' ->
                  (length [a1_first_run] <= i)%nat ->
                  doc' !! "discovery_date" = Some (VStr "2024-05-02")).
Proof.
  assert (H : MongoDBManager.insert_jobs (VStr "2024-05-02T08:00:00") "2024-05-02"
    [JobDataProcessor.add_metadata_one "2024-05-02" "python"
       (site_listing "A1" "Engineer");
     JobDataProcessor.add_metadata_one "2024-05-02" "python"
       (site_listing "C3" "Analyst")]
    [a1_first_run] = Ok saved_twice) by by_evaluation.
  split; [exact H|].
  exact (insert_jobs_keeps_discovery_date _ _ _ _ _ H).
Defined.

(** ** The reconciliation as a whole *)

Lemma status_one_not_inactive (today : string) (existing : pydict value)
    (job job' : Job) (lid : string) :
  JobDataProcessor.status_one today existing job = Ok job' ->
  listing_id job = Some lid -> not_inactive existing lid ->
  job' !! "status" = job !! "status" /\
  job' !! "delisted_date" = job !! "delisted_date".
Proof.
  intros H Hid Hnot. unfold listing_id in Hid.
  destruct (job !! "jobNo") as [[| |s| |]|] eqn:Hj; try done.
  destruct (String.eqb_spec s "") as [|Hne]; [done|]. injection Hid as ->.
  unfold JobDataProcessor.status_one in H. rewrite Hj in H.
  cbn [from_option] in H; unfold id in H.
  destruct (negb (truthy (VStr lid))); [by injection H as <-|].
  cbn [negb hashable] in H.
  destruct (dict_get (VStr lid) existing) as [status|] eqn:Hget.
  - rewrite (Hnot status Hget) in H. injection H as <-.
    by rewrite !lookup_insert_ne by done.
  - injection H as <-. by rewrite !lookup_insert_ne by done.
Qed.

Lemma Forall2_fmap_eq {A A' B : Type} (f : A -> B) (g : A' -> B)
    (l : list A) (l' : list A') :
  Forall2 (fun x y => g y = f x) l l' -> g <$> l' = f <$> l.
Proof. induction 1; [done|]. cbn. by f_equal. Qed.

Section Reconcile.

Variable split_link_field : string -> string * string * string.

#[local] Abbreviation fields_one :=
  (fun o : Job =>
     JobDataProcessor.address_one
       (JobDataProcessor.link_one split_link_field o)).

(** The three steps of [process_jobs] on a batch of raw listings: the
    merge returns a map [m] that satisfies [merge_inv], the status step
    returns, and the result is the field step of its records. *)
Lemma process_jobs_steps (today : string) (jobs : list Job)
    (existing : pydict value) :
  Forall (fun j => raw_listing j = true) jobs ->
  exists m l1,
    merge_inv jobs m /\
    Forall2 (after_status today existing) (dict_values m) l1 /\
    JobDataProcessor.process_jobs split_link_field today jobs existing =
      Ok (map fields_one l1).
Proof.
  intros Hraw.
  destruct (for_each_merge_inv jobs [] [] merge_inv_nil Hraw)
    as (m & Hm & Hinv). simpl in Hinv.
  pose proof (merge_inv_all_ids _ _ Hinv) as Hids.
  destruct existing as [|e existing'].
  - exists m, (dict_values m). split; [done|]. split.
    { apply Forall2_same_length_lookup_2; [done|].
      intros i x y Hx Hy. rewrite Hx in Hy. injection Hy as <-. by left. }
    unfold JobDataProcessor.process_jobs, JobDataProcessor._merge_job_keywords.
    destruct jobs as [|j0 jobs'].
    { injection Hm as <-. done. }
    rewrite Hm. cbn [mbind res_bind].
    unfold JobDataProcessor._process_job_fields. by rewrite map_map.
  - destruct (map_each_Forall2
                (JobDataProcessor.status_one today (e :: existing'))
                (dict_values m)) as (l1 & Hl1 & HF2).
    { eapply Forall_impl; [exact Hids|]. intros o (lid' & Hl').
      destruct (status_one_listing today (e :: existing') o lid' Hl')
        as (o' & Ho' & _).
      by exists o'. }
    exists m, l1. split; [done|]. split.
    { eapply Forall2_impl; [exact HF2|]. intros x y Hxy. by right. }
    unfold JobDataProcessor.process_jobs, JobDataProcessor._merge_job_keywords,
      JobDataProcessor._process_job_status.
    destruct jobs as [|j0 jobs'].
    { injection Hm as <-. simpl in Hl1. by injection Hl1 as <-. }
    rewrite Hm. cbn [mbind res_bind].
    destruct (dict_values m) as [|x xs] eqn:Hv.
    { simpl in Hl1. injection Hl1 as <-. done. }
    rewrite Hl1. cbn [mbind res_bind].
    unfold JobDataProcessor._process_job_fields. by rewrite map_map.
Qed.

Lemma after_status_frame (today : string) (existing : pydict value)
    (o o1 : Job) (f : string) :
  after_status today existing o o1 ->
  f <> "last_update_date" -> f <> "status" -> f <> "delisted_date" ->
  o1 !! f = o !! f.
Proof.
  intros [->|H]; [done|]. by apply (status_one_frame today existing).
Qed.

(** X9.  On a batch of raw listings [process_jobs] returns, with one
    record for each listing ID of the batch and no other.  Each record
    has the values of the first record of its group in every field that
    is not a keyword, status or derived field; and when the prior state
    does not hold the listing as inactive, its [status] and
    [delisted_date] are those of that first record as well. *)
Theorem process_jobs_frame (today : string) (jobs : list Job)
    (existing_jobs : pydict value) :
  Forall (fun j => raw_listing j = true) jobs ->
  exists out,
    JobDataProcessor.process_jobs split_link_field today jobs existing_jobs
      = Ok out /\
    NoDup (listing_id <$> out) /\
    (forall lid,
        Some lid ∈ (listing_id <$> out) <->
        exists j, j ∈ jobs /\ listing_id j = Some lid) /\
    (forall o, o ∈ out ->
       exists lid first rest,
         listing_id o = Some lid /\ group lid jobs = first :: rest /\
         (forall f, f ∉ reconcile_fields -> o !! f = first !! f) /\
         (not_inactive existing_jobs lid ->
          o !! "status" = first !! "status" /\
          o !! "delisted_date" = first !! "delisted_date")).
Proof.
  intros Hraw.
  destruct (process_jobs_steps today jobs existing_jobs Hraw)
    as (m & l1 & Hinv & HF2 & Hout).
  exists (map fields_one l1). split; [exact Hout|].
  assert (Hsame : listing_id <$> map fields_one l1
                  = listing_id <$> dict_values m).
  { change (map fields_one l1) with (fields_one <$> l1).
    rewrite <- list_fmap_compose. apply Forall2_fmap_eq.
    eapply Forall2_impl; [exact HF2|]. intros o o1 Hst. cbn.
    unfold listing_id. rewrite fields_one_lookup by done.
    by rewrite (after_status_frame today existing_jobs o o1 "jobNo" Hst). }
  destruct (merge_inv_ids _ _ Hinv) as (ids & Hks & Hvs).
  pose proof Hinv as (Hall & Hnd & Hdom).
  rewrite Hsame. split; [|split].
  - rewrite Hvs. apply (NoDup_fmap_2 Some). rewrite Hks in Hnd.
    by apply NoDup_fmap_1 in Hnd.
  - intros lid. rewrite Hvs. rewrite (list_elem_of_fmap_inj Some).
    rewrite <- (list_elem_of_fmap_inj VStr), <- Hks, Hdom.
    split.
    + intros Hne. destruct (group lid jobs) as [|j g] eqn:Hg; [done|].
      assert (Hin : j ∈ group lid jobs) by (rewrite Hg; apply elem_of_cons; by left).
      apply list_elem_of_filter in Hin as [? ?]. by exists j.
    + intros (j & Hin & Hj). by apply (group_nonempty jobs j).
  - intros o Ho. apply list_elem_of_lookup in Ho as [i Hi].
    change (map fields_one l1) with (fields_one <$> l1) in Hi.
    rewrite list_lookup_fmap in Hi.
    destruct (l1 !! i) as [o1|] eqn:Hi1; [|done]. injection Hi as <-.
    destruct (Forall2_lookup_r _ _ _ _ _ HF2 Hi1) as (o0 & Hi0 & Hst).
    assert (Hin0 : o0 ∈ dict_values m) by (by apply list_elem_of_lookup_2 in Hi0).
    unfold dict_values in Hin0.
    apply list_elem_of_In, in_map_iff in Hin0 as ([k o'] & Heq & Hin).
    simpl in Heq. subst o'. apply list_elem_of_In in Hin.
    destruct (proj1 (Forall_forall _ _) Hall _ Hin) as (lid & _ & Hrec).
    pose proof (merged_record_listing_id _ _ _ Hrec) as Hl0.
    destruct Hrec as (first & rest & kws & Hgrp & Hf & _).
    exists lid, first, rest.
    split; [|split; [exact Hgrp|split]].
    + unfold listing_id. rewrite fields_one_lookup by done.
      by rewrite (after_status_frame today existing_jobs o0 o1 "jobNo" Hst).
    + intros f Hnot. unfold reconcile_fields in Hnot.
      repeat (apply not_elem_of_cons in Hnot as [? Hnot]).
      rewrite fields_one_lookup by done.
      rewrite (after_status_frame today existing_jobs o0 o1 f Hst) by done.
      by apply Hf.
    + intros Hnotin. rewrite !fields_one_lookup by done.
      destruct Hst as [->|Hst].
      * split; by apply Hf.
      * destruct (status_one_not_inactive today existing_jobs o0 o1 lid
                    Hst Hl0 Hnotin) as [-> ->].
        split; by apply Hf.
Qed.

End Reconcile.

Lemma process_jobs_frame_witness :
  let jobs := [raw "A1" "python" "Engineer"; raw "A1" "java" "Engineer"] in
  Forall (fun j => raw_listing j = true) jobs /\
  exists out,
    JobDataProcessor.process_jobs no_links "2024-05-01" jobs
      [(VStr "A1", VStr "active")] = Ok out /\
    NoDup (listing_id <$> out) /\
    (forall lid,
        Some lid ∈ (listing_id <$> out) <->
        exists j, j ∈ jobs /\ listing_id j = Some lid) /\
    (forall o, o ∈ out ->
       exists lid first rest,
         listing_id o = Some lid /\ group lid jobs = first :: rest /\
         (forall f, f ∉ reconcile_fields -> o !! f = first !! f) /\
         (not_inactive [(VStr "A1", VStr "active")] lid ->
          o !! "status" = first !! "status" /\
          o !! "delisted_date" = first !! "delisted_date")).
Proof.
  intros jobs.
  assert (H : Forall (fun j => raw_listing j = true) jobs).
  { repeat (apply List.Forall_cons; [vm_compute; reflexivity|]).
    apply List.Forall_nil. }
  split; [exact H|]. exact (process_jobs_frame no_links "2024-05-01" jobs _ H).
Defined.

(** ** A run of the orchestrator *)

Lemma update_one_upsert_stores (today lid : string) (job : Job)
    (docs : list Job) :
  job !! "jobNo" = Some (VStr lid) ->
  stored lid (MongoDBManager.update_one_upsert today (VStr lid) job docs).
Proof.
  intros Hjob. induction docs as [|d docs IH]; simpl.
  - eexists. split; [apply elem_of_cons; by left|].
    rewrite lookup_insert_ne by done. by apply lookup_union_Some_l.
  - destruct (MongoDBManager.matches_jobNo (VStr lid) d).
    + eexists. split; [apply elem_of_cons; by left|].
      by apply lookup_union_Some_l.
    + destruct IH as (doc & Hin & Hdoc). exists doc.
      split; [by apply elem_of_cons; right|done].
Qed.

Lemma update_one_upsert_keeps_stored (today lid : string) (id : value)
    (job : Job) (docs : list Job) :
  job !! "jobNo" = Some id ->
  stored lid docs ->
  stored lid (MongoDBManager.update_one_upsert today id job docs).
Proof.
  intros Hjob (doc & Hin & Hdoc). induction docs as [|d docs IH]; simpl.
  { by apply elem_of_nil in Hin. }
  destruct (MongoDBManager.matches_jobNo id d) eqn:Hm.
  - apply elem_of_cons in Hin as [<-|Hin].
    + unfold MongoDBManager.matches_jobNo in Hm. rewrite Hdoc in Hm.
      apply py_eq_str_l in Hm. subst id.
      eexists. split; [apply elem_of_cons; by left|].
      by apply lookup_union_Some_l.
    + exists doc. split; [by apply elem_of_cons; right|done].
  - apply elem_of_cons in Hin as [<-|Hin].
    + exists doc. split; [apply elem_of_cons; by left|done].
    + destruct (IH Hin) as (doc' & Hin' & Hdoc'). exists doc'.
      split; [by apply elem_of_cons; right|done].
Qed.

Lemma update_one_upsert_length (today : string) (id : value) (job : Job)
    (docs : list Job) :
  (length docs <= length (MongoDBManager.update_one_upsert today id job docs))%nat.
Proof.
  induction docs as [|d docs IH]; simpl; [lia|].
  destruct (MongoDBManager.matches_jobNo id d); simpl; lia.
Qed.

Lemma upsert_ops_store (today : string) (ops : list (value * Job))
    (docs : list Job) :
  Forall (fun op : value * Job =>
            op.2 !! "jobNo" = Some op.1 /\ op.2 !! "discovery_date" = None) ops ->
  exists docs',
    for_each (upsert_op today) docs ops = Ok docs' /\
    (length docs <= length docs')%nat /\
    (forall lid, stored lid docs -> stored lid docs') /\
    (forall lid, (exists op, op ∈ ops /\ op.1 = VStr lid) -> stored lid docs').
Proof.
  intros H. revert docs. induction H as [|[id job] ops [Hid Hdd] _ IH];
    intros docs.
  { exists docs. split; [done|]. split; [done|]. split; [done|].
    intros lid (op & Hin & _). by apply elem_of_nil in Hin. }
  simpl in Hid, Hdd. cbn [for_each upsert_op]. rewrite Hdd.
  cbn [mbind res_bind].
  destruct (IH (MongoDBManager.update_one_upsert today id job docs))
    as (docs' & Hok & Hlen & Hkeep & Hadd).
  exists docs'. split; [done|]. split.
  { pose proof (update_one_upsert_length today id job docs). lia. }
  split.
  - intros lid Hs. apply Hkeep. by apply update_one_upsert_keeps_stored.
  - intros lid (op & Hin & Hop). apply elem_of_cons in Hin as [->|Hin].
    + simpl in Hop. subst id. apply Hkeep. by apply update_one_upsert_stores.
    + apply Hadd. by exists op.
Qed.

Lemma operations_of_stamped (now : value) (jobs : list Job) :
  Forall (fun job : Job =>
            is_Some (job !! "jobNo") /\ job !! "discovery_date" = None) jobs ->
  exists ops,
    map_each operation_of (MongoDBManager.stamped now jobs) = Ok ops /\
    Forall (fun op : value * Job =>
              op.2 !! "jobNo" = Some op.1 /\ op.2 !! "discovery_date" = None) ops /\
    (forall job id, job ∈ jobs -> job !! "jobNo" = Some id ->
                    exists op, op ∈ ops /\ op.1 = id).
Proof.
  induction 1 as [|job jobs [[id Hid] Hdd] _ (ops & Hops & Hall & Hin)].
  { exists []. split; [done|]. split; [done|].
    intros job id Hj. by apply elem_of_nil in Hj. }
  exists ((id, <["mongodb_update_time" := now]> job) :: ops).
  assert (Hop : operation_of (<["mongodb_update_time" := now]> job)
                 = Ok (id, <["mongodb_update_time" := now]> job)).
  { unfold operation_of. rewrite lookup_insert_ne by done. by rewrite Hid. }
  change (MongoDBManager.stamped now (job :: jobs))
    with (<["mongodb_update_time" := now]> job :: MongoDBManager.stamped now jobs).
  cbn [map_each]. rewrite Hop, Hops. cbn [mbind res_bind].
  split; [done|]. split.
  - apply Forall_cons. split; [|done]. simpl.
    by rewrite !lookup_insert_ne by done.
  - intros job' id' Hj Hid'. apply elem_of_cons in Hj as [->|Hj].
    + rewrite Hid in Hid'. injection Hid' as <-.
      eexists. split; [apply elem_of_cons; by left|done].
    + destruct (Hin job' id' Hj Hid') as (op & Hop' & Heq).
      exists op. split; [by apply elem_of_cons; right|done].
Qed.

Lemma insert_jobs_ok_inv (now : value) (today : string)
    (jobs docs docs' : list Job) :
  MongoDBManager.insert_jobs now today jobs docs = Ok docs' ->
  Forall (fun job : Job =>
            is_Some (job !! "jobNo") /\ job !! "discovery_date" = None) jobs.
Proof.
  rewrite insert_jobs_unfold. revert docs.
  induction jobs as [|job jobs IH]; intros docs H; [done|].
  change (MongoDBManager.stamped now (job :: jobs))
    with (<["mongodb_update_time" := now]> job :: MongoDBManager.stamped now jobs)
    in H.
  cbn [map_each] in H.
  destruct (job !! "jobNo") as [id|] eqn:Hid.
  - assert (Hop : operation_of (<["mongodb_update_time" := now]> job)
                  = Ok (id, <["mongodb_update_time" := now]> job)).
    { unfold operation_of. rewrite lookup_insert_ne by done. by rewrite Hid. }
    rewrite Hop in H. cbn [mbind res_bind] in H.
    destruct (map_each operation_of (MongoDBManager.stamped now jobs))
      as [ops|] eqn:Hops; [|done].
    cbn [mbind res_bind for_each upsert_op] in H.
    rewrite lookup_insert_ne in H by done.
    destruct (job !! "discovery_date") eqn:Hdd; [done|].
    cbn [mbind res_bind] in H.
    apply List.Forall_cons; [by split; [eexists|]|].
    apply (IH (MongoDBManager.update_one_upsert today id
                 (<["mongodb_update_time" := now]> job) docs)).
    exact H.
  - assert (Hop : operation_of (<["mongodb_update_time" := now]> job)
                  = Raise KeyError).
    { unfold operation_of. rewrite lookup_insert_ne by done. by rewrite Hid. }
    by rewrite Hop in H.
Qed.

Section Run.

Variable split_link_field : string -> string * string * string.

(** X10.  A run over raw listings that completes loses no stored listing
    and stores every listing it has found: the collection does not
    shrink, every listing ID stored before is stored after, and so is the
    ID of every record of the run. *)
Theorem crawl_save_stores_found (now : value) (today : string)
    (all_jobs docs docs' processed_jobs : list Job) :
  Forall (fun j => raw_listing j = true) all_jobs ->
  CrawlerOrchestrator.crawl_save split_link_field now today all_jobs docs
    = Ok (docs', processed_jobs) ->
  (length docs <= length docs')%nat /\
  (forall lid, stored lid docs -> stored lid docs') /\
  (forall lid j, j ∈ all_jobs -> listing_id j = Some lid -> stored lid docs').
Proof.
  intros Hraw H. unfold CrawlerOrchestrator.crawl_save in H.
  destruct (process_jobs_frame split_link_field today all_jobs
              (MongoDBManager.get_existing_jobs docs) Hraw)
    as (out & Hout & _ & Hids & Hframe).
  rewrite Hout in H. cbn [mbind res_bind] in H.
  destruct (MongoDBManager.insert_jobs now today out docs) as [saved|] eqn:Hsave;
    [|done].
  cbn [mbind res_bind] in H. injection H as <- _.
  destruct (operations_of_stamped now out
              (insert_jobs_ok_inv now today out docs saved Hsave))
    as (ops & Hops & Hall & Hin).
  destruct (upsert_ops_store today ops docs Hall)
    as (docs' & Hok & Hlen & Hkeep & Hadd).
  assert (docs' = saved) as ->.
  { rewrite insert_jobs_unfold, Hops in Hsave. cbn [mbind res_bind] in Hsave.
    congruence. }
  split; [exact Hlen|]. split; [exact Hkeep|].
  intros lid j Hj Hlid. apply Hadd.
  assert (Helem : Some lid ∈ listing_id <$> out) by (apply Hids; by exists j).
  apply list_elem_of_fmap in Helem as (o & Ho & Hino).
  assert (Hjob : o !! "jobNo" = Some (VStr lid)).
  { unfold listing_id in Ho. destruct (o !! "jobNo") as [[| |s| |]|]; try done.
    destruct (String.eqb s ""); [done|]. by injection Ho as ->. }
  by apply (Hin o).
Qed.

End Run.

Lemma crawl_save_stores_found_witness :
  let all_jobs :=
    JobDataProcessor.add_metadata "2024-05-01"
      [site_listing "A1" "Engineer"] "python" in
  Forall (fun j => raw_listing j = true) all_jobs /\
  exists docs' processed_jobs,
    CrawlerOrchestrator.crawl_save no_links (VStr "2024-05-01T08:00:00")
      "2024-05-01" all_jobs [stored_inactive] = Ok (docs', processed_jobs) /\
    (length [stored_inactive] <= length docs')%nat /\
    (forall lid, stored lid [stored_inactive] -> stored lid docs') /\
    (forall lid j, j ∈ all_jobs -> listing_id j = Some lid -> stored lid docs').
Proof.
  intros all_jobs.
  assert (H1 : Forall (fun j => raw_listing j = true) all_jobs).
  { repeat (apply List.Forall_cons; [vm_compute; reflexivity|]).
    apply List.Forall_nil. }
  split; [exact H1|].
  assert (Hok : match CrawlerOrchestrator.crawl_save no_links
                        (VStr "2024-05-01T08:00:00") "2024-05-01" all_jobs
                        [stored_inactive]
                with Ok _ => true | Raise _ => false end = true).
  { vm_compute. reflexivity. }
  destruct (CrawlerOrchestrator.crawl_save no_links
              (VStr "2024-05-01T08:00:00") "2024-05-01" all_jobs
              [stored_inactive])
    as [[docs' processed_jobs]|e] eqn:Hrun; [|discriminate Hok].
  exists docs', processed_jobs. split; [reflexivity|].
  exact (crawl_save_stores_found no_links (VStr "2024-05-01T08:00:00")
           "2024-05-01" all_jobs [stored_inactive] docs' processed_jobs
           H1 Hrun).
Defined.

(** ** Field normalisation: the split loses nothing *)

Lemma join_app (a b : list string) : join (a ++ b) = (join a ++ join b)%string.
Proof.
  induction a as [|x a IH]; [done|].
  cbn [app join fold_right] in *. fold (join (a ++ b)). fold (join a).
  by rewrite IH, string_app_assoc.
Qed.

Lemma at_end_join (tail : list string) :
  at_end tail = true -> join tail = "" \/ join tail = newline.
Proof.
  destruct tail as [|c [|c' tail]]; [by left| |done].
  intros ->%String.eqb_eq. by right.
Qed.

Lemma string_app_empty_r (s : string) : (s ++ "")%string = s.
Proof. induction s as [|a s IH]; [done|]. by rewrite append_cons, IH. Qed.

(** X11.  [split_city_district] loses no character of the address: the
    city followed by the district is the address itself, up to one final
    newline, which [$] lets the patterns leave out. *)
Theorem split_city_district_lossless (address : string) :
  ((split_city_district address).1 ++ (split_city_district address).2
     = address)%string \/
  ((split_city_district address).1 ++ (split_city_district address).2
     ++ newline = address)%string.
Proof.
  unfold split_city_district, city_patterns. cbn [split_with].
  pose proof (join_chars address) as Haddr.
  destruct (re_match [city_suffix; district_suffix] (chars address))
    as [l|] eqn:H2.
  { apply re_match2_sound in H2
      as (g1 & g2 & tail & -> & Hs & He & _).
    cbn [fst snd]. rewrite Hs, !join_app in Haddr.
    destruct (at_end_join tail He) as [Ht|Ht]; rewrite Ht in Haddr.
    - left. by rewrite string_app_empty_r in Haddr.
    - by right. }
  destruct (re_match [city_suffix] (chars address)) as [l|] eqn:H1.
  { apply re_match1_sound in H1 as (g & tail & -> & Hs & He & _).
    cbn [fst snd]. rewrite Hs, join_app in Haddr.
    destruct (at_end_join tail He) as [Ht|Ht]; rewrite Ht in Haddr.
    - left. rewrite string_app_empty_r in Haddr. by rewrite string_app_empty_r.
    - right. exact Haddr. }
  by left.
Qed.

(** ** The file storage: saving and reading back *)

Lemma dict_get_str_set {V : Type} (lid : string) (k : value) (v : V)
    (d : pydict V) :
  dict_get (VStr lid) (dict_set k v d) =
  if py_eq k (VStr lid) then Some v else dict_get (VStr lid) d.
Proof.
  induction d as [|[k0 v0] d IH]; simpl.
  { by destruct (py_eq k (VStr lid)). }
  destruct (py_eq k0 k) eqn:H0k; simpl.
  - destruct (py_eq k0 (VStr lid)) eqn:H0, (py_eq k (VStr lid)) eqn:Hk;
      try done.
    + apply py_eq_str_r in H0. subst k0. apply py_eq_str_l in H0k. subst k.
      by rewrite py_eq_str_refl in Hk.
    + apply py_eq_str_r in Hk. subst k. apply py_eq_str_r in H0k. subst k0.
      by rewrite py_eq_str_refl in H0.
  - destruct (py_eq k0 (VStr lid)) eqn:H0, (py_eq k (VStr lid)) eqn:Hk;
      rewrite ?IH, ?Hk; try done.
    apply py_eq_str_r in H0, Hk. subst k0 k.
    by rewrite py_eq_str_refl in H0k.
Qed.

Lemma save_jobs_lookup (lid : string) (jobs : list Job)
    (cache cache' : pydict Job) :
  FileJobStorage.save_jobs jobs cache = Ok cache' ->
  dict_get (VStr lid) cache' =
  match last_saved lid jobs with
  | Some job => Some job
  | None => dict_get (VStr lid) cache
  end.
Proof.
  unfold FileJobStorage.save_jobs, last_saved.
  revert cache. induction jobs as [|job jobs IH]; intros cache H.
  { by injection H as <-. }
  cbn [for_each] in H. rewrite filter_cons.
  destruct (decide (saved_under lid job = true)) as [Hs|Hs].
  - unfold saved_under in Hs.
    destruct (job !! "jobNo") as [[| |s| |]|] eqn:Hid; try done.
    apply String.eqb_eq in Hs. subst s.
    cbn [hashable mbind res_bind] in H.
    rewrite (IH _ H), dict_get_str_set, py_eq_str_refl.
    destruct (filter _ jobs) as [|j' l']; [done|].
    change (last (job :: j' :: l')) with (last (j' :: l')).
    destruct (last (j' :: l')) eqn:Hlast; [done|].
    by apply last_None in Hlast.
  - destruct (job !! "jobNo") as [id|] eqn:Hid.
    + destruct (hashable id); cbn [mbind res_bind] in H; [|done].
      rewrite (IH _ H), dict_get_str_set.
      destruct (py_eq id (VStr lid)) eqn:Hpy; [|done].
      apply py_eq_str_r in Hpy. subst id. exfalso. apply Hs.
      unfold saved_under. rewrite Hid. apply String.eqb_refl.
    + cbn [mbind res_bind] in H. by rewrite (IH _ H).
Qed.

(** X13.  After [FileJobStorage.save_jobs] has returned, [get_jobs] with
    the filter of a listing ID returns the record of the batch that was
    saved last under that ID; for an ID the batch does not hold, what the
    cache held before; the limit plays no part. *)
Theorem file_storage_save_then_get (lid : string) (limit : Z)
    (jobs : list Job) (cache cache' : pydict Job) :
  FileJobStorage.save_jobs jobs cache = Ok cache' ->
  FileJobStorage.get_jobs (Some {["jobNo" := VStr lid]}) limit cache' =
  Ok (match last_saved lid jobs with
      | Some job => [job]
      | None =>
          match dict_get (VStr lid) cache with
          | Some job => [job]
          | None => []
          end
      end).
Proof.
  intros H. unfold FileJobStorage.get_jobs. cbn [mbind option_bind].
  rewrite lookup_singleton_eq. cbn [hashable negb].
  rewrite (save_jobs_lookup lid jobs cache cache' H).
  by destruct (last_saved lid jobs).
Qed.

Lemma file_storage_save_then_get_witness :
  FileJobStorage.save_jobs
    [raw "A1" "python" "Engineer"; raw "A1" "java" "Architect"] []
  = Ok [(VStr "A1", raw "A1" "java" "Architect")] /\
  FileJobStorage.get_jobs (Some {["jobNo" := VStr "A1"]}) 1000
    [(VStr "A1", raw "A1" "java" "Architect")] =
  Ok (match last_saved "A1"
              [raw "A1" "python" "Engineer"; raw "A1" "java" "Architect"] with
      | Some job => [job]
      | None =>
          match dict_get (VStr "A1") ([] : pydict Job) with
          | Some job => [job]
          | None => []
          end
      end).
Proof.
  assert (H : FileJobStorage.save_jobs
                [raw "A1" "python" "Engineer"; raw "A1" "java" "Architect"] []
              = Ok [(VStr "A1", raw "A1" "java" "Architect")]) by by_evaluation.
  split; [exact H|].
  exact (file_storage_save_then_get "A1" 1000 _ _ _ H).
Defined.

(** ** The file storage: the cache of search results *)

Lemma py_eq_hashable_refl (v : value) : hashable v = true -> py_eq v v = true.
Proof.
  destruct v; simpl; try done.
  - intros _. apply Z.eqb_refl.
  - intros _. apply String.eqb_refl.
Qed.

Lemma key_eq_refl (k : FileJobStorage.search_key) :
  FileJobStorage.key_hashable k = true -> FileJobStorage.key_eq k k = true.
Proof.
  destruct k as [[[a b] c] d]. simpl.
  rewrite !andb_true_iff. intros [[[Ha Hb] Hc] Hd].
  by rewrite !py_eq_hashable_refl.
Qed.

Lemma py_eq_hashable_trans (a b c : value) :
  hashable b = true -> py_eq a b = true -> py_eq b c = py_eq a c.
Proof.
  destruct b; simpl; try done; intros _; destruct a; simpl; try done.
  - intros ->%Z.eqb_eq. done.
  - intros ->%String.eqb_eq. done.
Qed.

Lemma key_eq_trans (a b c : FileJobStorage.search_key) :
  FileJobStorage.key_hashable b = true ->
  FileJobStorage.key_eq a b = true ->
  FileJobStorage.key_eq b c = FileJobStorage.key_eq a c.
Proof.
  destruct a as [[[a1 a2] a3] a4], b as [[[b1 b2] b3] b4],
           c as [[[c1 c2] c3] c4]. simpl.
  rewrite !andb_true_iff. intros [[[H1 H2] H3] H4] [[[E1 E2] E3] E4].
  by rewrite (py_eq_hashable_trans a1 b1 c1), (py_eq_hashable_trans a2 b2 c2),
    (py_eq_hashable_trans a3 b3 c3), (py_eq_hashable_trans a4 b4 c4).
Qed.

Lemma cache_get_set (k : FileJobStorage.search_key) (v : Job)
    (cache : FileJobStorage.search_cache) :
  FileJobStorage.key_hashable k = true ->
  FileJobStorage.cache_get k (FileJobStorage.cache_set k v cache) = Some v.
Proof.
  intros Hk. induction cache as [|[k' v'] cache IH]; simpl.
  - by rewrite key_eq_refl.
  - destruct (FileJobStorage.key_eq k' k) eqn:He; simpl; by rewrite He.
Qed.

(** X14.  What [FileJobStorage.save_search_result] has saved,
    [get_search_result] finds under the same four key fields: after a
    save that returned [True], a lookup whose filters give the key of the
    saved result returns that result. *)
Theorem search_result_save_then_get (result filters : Job)
    (cache cache' : FileJobStorage.search_cache) :
  FileJobStorage.save_search_result result cache = (true, cache') ->
  FileJobStorage.result_key result = Ok (FileJobStorage.filter_key filters) ->
  FileJobStorage.get_search_result filters cache' = Some result.
Proof.
  unfold FileJobStorage.save_search_result, FileJobStorage.get_search_result.
  intros H Hkey. rewrite Hkey in H.
  destruct (FileJobStorage.key_hashable _) eqn:Hh; [|done].
  injection H as <-. by apply cache_get_set.
Qed.

Lemma search_result_save_then_get_witness :
  let result :=
    JobSearcher.page_result "2024-05-01" "https://www.104.com.tw/jobs/search/list?page=2"
      "" "ok" (VDict []) in
  let filters :=
    JobSearcher.page_filter "2024-05-01"
      "https://www.104.com.tw/jobs/search/list?page=2" in
  FileJobStorage.save_search_result result []
    = (true, [(FileJobStorage.filter_key filters, result)]) /\
  FileJobStorage.result_key result = Ok (FileJobStorage.filter_key filters) /\
  FileJobStorage.get_search_result filters
    [(FileJobStorage.filter_key filters, result)] = Some result.
Proof.
  intros result filters.
  assert (H1 : FileJobStorage.save_search_result result []
               = (true, [(FileJobStorage.filter_key filters, result)]))
    by (vm_compute; reflexivity).
  assert (H2 : FileJobStorage.result_key result
               = Ok (FileJobStorage.filter_key filters))
    by (vm_compute; reflexivity).
  split; [exact H1|]. split; [exact H2|].
  exact (search_result_save_then_get result filters _ _ H1 H2).
Defined.

Ltac lookup_literal :=
  unfold JobSearcher.first_page_result, JobSearcher.page_result,
    JobSearcher.first_page_filter, JobSearcher.page_filter;
  cbn [list_to_map foldr uncurry fst snd];
  repeat (rewrite lookup_insert_eq || (rewrite lookup_insert_ne by done)
          || rewrite lookup_empty).

Lemma first_page_result_key (today url keyword area_code area_name status : string)
    (result : value) :
  FileJobStorage.result_key
    (JobSearcher.first_page_result today url keyword area_code area_name
       status result)
  = Ok (VStr today, VStr keyword, VStr url, VStr url).
Proof.
  unfold FileJobStorage.result_key, Crawler.getitem. by lookup_literal.
Qed.

Lemma page_result_key (today url keyword status : string) (result : value) :
  FileJobStorage.result_key
    (JobSearcher.page_result today url keyword status result)
  = Ok (VStr today, VStr keyword, VStr "", VStr url).
Proof.
  unfold FileJobStorage.result_key, Crawler.getitem. by lookup_literal.
Qed.

Lemma cache_set_full (k : FileJobStorage.search_key) (v : Job)
    (cache : FileJobStorage.search_cache) :
  full_key k -> Forall (fun e => full_key e.1) cache ->
  Forall (fun e => full_key e.1) (FileJobStorage.cache_set k v cache).
Proof.
  intros Hk Hall. induction cache as [|[k' v'] cache IH]; simpl.
  - by repeat constructor.
  - apply Forall_cons in Hall as [He Hall].
    destruct (FileJobStorage.key_eq k' k); apply Forall_cons; split; auto.
Qed.

Lemma searcher_cache_full (cache : FileJobStorage.search_cache) :
  searcher_cache cache -> Forall (fun e => full_key e.1) cache.
Proof.
  induction 1 as [|cache today url keyword area_code area_name status result
                   _ IH Hk Hu
                  |cache today url keyword status result _ IH Hk Hu].
  - constructor.
  - unfold FileJobStorage.save_search_result.
    rewrite first_page_result_key. cbn [FileJobStorage.key_hashable hashable andb snd].
    apply cache_set_full; [|done]. split; by eexists.
  - unfold FileJobStorage.save_search_result.
    rewrite page_result_key. cbn [FileJobStorage.key_hashable hashable andb snd].
    apply cache_set_full; [|done]. split; by eexists.
Qed.

Lemma cache_get_miss (k : FileJobStorage.search_key)
    (cache : FileJobStorage.search_cache) :
  Forall (fun e => FileJobStorage.key_eq e.1 k = false) cache ->
  FileJobStorage.cache_get k cache = None.
Proof.
  induction 1 as [|[k' v] cache He _ IH]; [done|]. simpl in *. by rewrite He.
Qed.

(** X15.  Over [FileJobStorage] the cache lookups of the searcher never
    find what the searcher has saved: in a cache filled by
    [get_first_page] and [search_with_semaphore] for keywords and URLs
    that are not empty, the lookup of [get_first_page] (which leaves the
    crawl URL out of its filters) and the lookup of
    [search_with_semaphore] (which leaves the keyword out) both return
    [None], for every day and URL. *)
Theorem file_cache_lookups_of_searcher_miss
    (cache : FileJobStorage.search_cache) (today url : string) :
  searcher_cache cache ->
  FileJobStorage.get_search_result (JobSearcher.first_page_filter today url)
    cache = None /\
  FileJobStorage.get_search_result (JobSearcher.page_filter today url)
    cache = None.
Proof.
  intros H%searcher_cache_full.
  unfold FileJobStorage.get_search_result, FileJobStorage.filter_key. split.
  - lookup_literal. cbn [from_option FileJobStorage.key_hashable hashable andb].
    apply cache_get_miss. eapply Forall_impl; [exact H|].
    intros [[[[a b] c] d] v] [_ (s & -> & Hs)]. simpl.
    apply String.eqb_neq in Hs. rewrite Hs. by rewrite !andb_false_r.
  - lookup_literal. cbn [from_option FileJobStorage.key_hashable hashable andb].
    apply cache_get_miss. eapply Forall_impl; [exact H|].
    intros [[[[a b] c] d] v] [(s & -> & Hs) _]. simpl.
    apply String.eqb_neq in Hs. rewrite Hs.
    by rewrite !andb_false_r.
Qed.

Lemma file_cache_lookups_of_searcher_miss_witness :
  let url := "https://www.104.com.tw/jobs/search/list?keyword=python&page=1" in
  let cache :=
    (FileJobStorage.save_search_result
       (JobSearcher.first_page_result "2024-05-01" url "python" "6001001000"
          "台北市" "ok" (VList [VStr url])) []).2 in
  searcher_cache cache /\
  FileJobStorage.get_search_result
    (JobSearcher.first_page_filter "2024-05-01" url) cache = None /\
  FileJobStorage.get_search_result
    (JobSearcher.page_filter "2024-05-01" url) cache = None.
Proof.
  intros url cache.
  assert (H : searcher_cache cache).
  { apply searcher_cache_first_page; [constructor|done|done]. }
  split; [exact H|].
  exact (file_cache_lookups_of_searcher_miss cache "2024-05-01" url H).
Defined.

(** ** Field normalisation: the link field *)

Lemma url_run_chars (s : list string) :
  Forall (fun c => url_char c = true) (url_run s).
Proof.
  induction s as [|c s IH]; simpl; [constructor|].
  destruct (url_char c) eqn:Hc; by constructor.
Qed.

Lemma match_url_extracted (key : string) (s : list string) (url : string) :
  match_url key s = Some url -> extracted_url (add_protocol url).
Proof.
  unfold match_url. intros H.
  destruct (strip_prefix _ s) as [rest|]; [|done]. cbn [mbind option_bind] in H.
  destruct (strip_prefix _ (skip_spaces rest)) as [rest'|]; [|done].
  cbn [mbind option_bind] in H.
  pose proof (url_run_chars rest') as Hrun.
  destruct (url_run rest') as [|c run]; [done|]. injection H as <-.
  right. exists (c :: run). split; [done|]. split; [done|].
  reflexivity.
Qed.

Lemma search_url_extracted (key : string) (s : list string) :
  extracted_url (add_protocol (default "" (search_url key s))).
Proof.
  induction s as [|c s IH]; cbn [search_url].
  - destruct (match_url key []) as [url|] eqn:H; [|by left].
    by apply (match_url_extracted key []).
  - destruct (match_url key (c :: s)) as [url|] eqn:H; [|exact IH].
    by apply (match_url_extracted key (c :: s)).
Qed.

(** X16.  Each of the three URLs [split_link_field] returns is either
    empty or an [https://] URL: what follows [https://] is not empty and
    holds no comma and no closing brace. *)
Theorem split_link_field_urls (link_str : string) :
  extracted_url (split_link_field link_str).1.1 /\
  extracted_url (split_link_field link_str).1.2 /\
  extracted_url (split_link_field link_str).2.
Proof.
  unfold split_link_field. cbn [fst snd].
  repeat split; apply search_url_extracted.
Qed.

Lemma key_literal_applyAnalyze :
  key_literal "applyAnalyze" =
  ["'"; "a"; "p"; "p"; "l"; "y"; "A"; "n"; "a"; "l"; "y"; "z"; "e"; "'"; ":"].
Proof. vm_compute. reflexivity. Qed.

Lemma key_literal_job : key_literal "job" = ["'"; "j"; "o"; "b"; "'"; ":"].
Proof. vm_compute. reflexivity. Qed.

Lemma key_literal_cust : key_literal "cust" = ["'"; "c"; "u"; "s"; "t"; "'"; ":"].
Proof. vm_compute. reflexivity. Qed.

Lemma strip_prefix_app (l s : list string) : strip_prefix l (l ++ s) = Some s.
Proof.
  induction l as [|c l IH]; [by destruct s|]. cbn [strip_prefix app].
  by rewrite String.eqb_refl.
Qed.

Lemma is_space_not_quote (c : string) :
  is_space c = true -> String.eqb c "'" = false.
Proof.
  unfold is_space, char_in. intros H.
  apply existsb_exists in H as (w & Hin & ->%String.eqb_eq).
  unfold whitespace in Hin. cbn [map] in Hin.
  repeat (destruct Hin as [<-|Hin]; [reflexivity|]). destruct Hin.
Qed.

Lemma is_space_not_slash (c : string) :
  is_space c = true -> String.eqb c "/" = false.
Proof.
  unfold is_space, char_in. intros H.
  apply existsb_exists in H as (w & Hin & ->%String.eqb_eq).
  unfold whitespace in Hin. cbn [map] in Hin.
  repeat (destruct Hin as [<-|Hin]; [reflexivity|]). destruct Hin.
Qed.

Lemma skip_spaces_run (sp rest : list string) :
  Forall (fun c => is_space c = true) sp ->
  skip_spaces (sp ++ "/" :: rest) = "/" :: rest.
Proof.
  induction 1 as [|c sp Hc _ IH]; [reflexivity|].
  cbn [app skip_spaces]. by rewrite Hc.
Qed.

Lemma url_run_stop (r rest : list string) (c : string) :
  Forall (fun c => url_char c = true) r -> url_char c = false ->
  url_run (r ++ c :: rest) = r.
Proof.
  intros H Hc. induction H as [|x r Hx _ IH]; cbn [app url_run].
  - by rewrite Hc.
  - by rewrite Hx, IH.
Qed.

Lemma match_url_hit (key : string) (sp r rest : list string) (stop : string) :
  Forall (fun c => is_space c = true) sp ->
  r <> [] -> Forall (fun c => url_char c = true) r -> url_char stop = false ->
  match_url key (key_literal key ++ sp ++ "/" :: "/" :: r ++ stop :: rest)
  = Some (join ("/" :: "/" :: r)).
Proof.
  intros Hsp Hne Hr Hstop. unfold match_url.
  rewrite strip_prefix_app. cbn [mbind option_bind].
  rewrite (skip_spaces_run sp _ Hsp). cbn [strip_prefix].
  rewrite !String.eqb_refl. cbn [mbind option_bind].
  rewrite (url_run_stop r rest stop Hr Hstop). by destruct r.
Qed.

Lemma search_url_hit (key : string) (s : list string) (url : string) :
  match_url key s = Some url -> search_url key s = Some url.
Proof. intros H. destruct s; cbn [search_url]; by rewrite H. Qed.

Lemma search_url_step (key : string) (c : string) (s : list string) :
  match_url key (c :: s) = None -> search_url key (c :: s) = search_url key s.
Proof. intros H. cbn [search_url]. by rewrite H. Qed.

Lemma search_url_skip (key : string) (l pre rest : list string) :
  key_literal key = "'" :: l ->
  Forall (fun c => String.eqb c "'" = false) pre ->
  search_url key (pre ++ rest) = search_url key rest.
Proof.
  intros Hl H. induction H as [|c pre Hc _ IH]; [done|].
  cbn [app]. rewrite search_url_step; [exact IH|].
  unfold match_url. rewrite Hl. cbn [strip_prefix].
  by rewrite String.eqb_sym, Hc.
Qed.

Lemma plain_url_char (r : list string) :
  Forall (fun c => plain c = true) r -> Forall (fun c => url_char c = true) r.
Proof.
  intros Hall. eapply Forall_impl; [exact Hall|]. intros c H. unfold plain in H.
  by apply andb_true_iff in H as [H _].
Qed.

Lemma plain_not_quote (r : list string) :
  Forall (fun c => plain c = true) r ->
  Forall (fun c => String.eqb c "'" = false) r.
Proof.
  intros Hall. eapply Forall_impl; [exact Hall|]. intros c H. unfold plain in H.
  apply andb_true_iff in H as [_ H]. by apply negb_true_iff in H.
Qed.

Lemma spaces_not_quote (sp : list string) :
  Forall (fun c => is_space c = true) sp ->
  Forall (fun c => String.eqb c "'" = false) sp.
Proof.
  intros Hall. eapply Forall_impl; [exact Hall|]. intros c.
  apply is_space_not_quote.
Qed.

Ltac search_steps key_literal_eq :=
  repeat (rewrite search_url_step
            by (unfold match_url; rewrite key_literal_eq; reflexivity)).

(** X17.  [split_link_field] reads the format of the site: on a link
    string [{'applyAnalyze': //a, 'job': //b, 'cust': //c}], with any
    whitespace after the colons and URLs that hold no comma, closing
    brace or quote, it returns [https://a], [https://b] and
    [https://c]. *)
Theorem split_link_field_parses_link (link_str : string)
    (sp1 r1 sp2 r2 sp3 r3 : list string) :
  chars link_str = link_chars sp1 r1 sp2 r2 sp3 r3 ->
  link_part sp1 r1 -> link_part sp2 r2 -> link_part sp3 r3 ->
  split_link_field link_str =
  (("https://" ++ join r1)%string, ("https://" ++ join r2)%string,
   ("https://" ++ join r3)%string).
Proof.
  intros Hs (Hsp1 & Hne1 & Hr1) (Hsp2 & Hne2 & Hr2) (Hsp3 & Hne3 & Hr3).
  unfold split_link_field. rewrite Hs. unfold link_chars. cbn [app].
  pose proof (plain_url_char _ Hr1) as Hu1.
  pose proof (plain_url_char _ Hr2) as Hu2.
  pose proof (plain_url_char _ Hr3) as Hu3.
  pose proof (plain_not_quote _ Hr1) as Hq1.
  pose proof (plain_not_quote _ Hr2) as Hq2.
  pose proof (spaces_not_quote _ Hsp1) as Hsq1.
  pose proof (spaces_not_quote _ Hsp2) as Hsq2.
  assert (Ha : search_url "applyAnalyze"
            ("{" :: key_literal "applyAnalyze" ++ sp1 ++ "/" :: "/" :: r1 ++
             "," :: " " :: key_literal "job" ++ sp2 ++ "/" :: "/" :: r2 ++
             "," :: " " :: key_literal "cust" ++ sp3 ++ "/" :: "/" :: r3 ++ ["}"])
            = Some (join ("/" :: "/" :: r1))).
  { search_steps key_literal_applyAnalyze.
    apply search_url_hit. by apply match_url_hit. }
  assert (Hj : search_url "job"
            ("{" :: key_literal "applyAnalyze" ++ sp1 ++ "/" :: "/" :: r1 ++
             "," :: " " :: key_literal "job" ++ sp2 ++ "/" :: "/" :: r2 ++
             "," :: " " :: key_literal "cust" ++ sp3 ++ "/" :: "/" :: r3 ++ ["}"])
            = Some (join ("/" :: "/" :: r2))).
  { rewrite key_literal_applyAnalyze. cbn [app].
    search_steps key_literal_job.
    rewrite (search_url_skip "job" _ sp1 _ key_literal_job Hsq1).
    search_steps key_literal_job.
    rewrite (search_url_skip "job" _ r1 _ key_literal_job Hq1).
    search_steps key_literal_job.
    apply search_url_hit. by apply match_url_hit. }
  assert (Hc : search_url "cust"
            ("{" :: key_literal "applyAnalyze" ++ sp1 ++ "/" :: "/" :: r1 ++
             "," :: " " :: key_literal "job" ++ sp2 ++ "/" :: "/" :: r2 ++
             "," :: " " :: key_literal "cust" ++ sp3 ++ "/" :: "/" :: r3 ++ ["}"])
            = Some (join ("/" :: "/" :: r3))).
  { rewrite key_literal_applyAnalyze, key_literal_job. cbn [app].
    search_steps key_literal_cust.
    rewrite (search_url_skip "cust" _ sp1 _ key_literal_cust Hsq1).
    search_steps key_literal_cust.
    rewrite (search_url_skip "cust" _ r1 _ key_literal_cust Hq1).
    search_steps key_literal_cust.
    rewrite (search_url_skip "cust" _ sp2 _ key_literal_cust Hsq2).
    search_steps key_literal_cust.
    rewrite (search_url_skip "cust" _ r2 _ key_literal_cust Hq2).
    search_steps key_literal_cust.
    apply search_url_hit.
    by apply (match_url_hit "cust" sp3 r3 [] "}"). }
  rewrite Ha, Hj, Hc. reflexivity.
Qed.

Lemma Forall_of_forallb {A : Type} (f : A -> bool) (l : list A) :
  forallb f l = true -> Forall (fun x => f x = true) l.
Proof.
  intros H. apply Forall_forall. intros x Hx.
  by apply (proj1 (forallb_forall f l) H), list_elem_of_In.
Qed.

Lemma link_part_of_string (sp url : string) :
  forallb is_space (chars sp) = true ->
  negb (String.eqb url "") && forallb plain (chars url) = true ->
  link_part (chars sp) (chars url).
Proof.
  intros Hsp [Hne Hurl]%andb_true_iff. split; [by apply Forall_of_forallb|].
  split; [|by apply Forall_of_forallb].
  destruct url; [done|]. intros Hnil.
  pose proof (join_chars (String a url)) as Hj. rewrite Hnil in Hj. done.
Qed.

Lemma split_link_field_parses_link_witness :
  chars link_5znmj =
    link_chars (chars " ") (chars "www.104.com.tw/jobs/apply/analysis/5znmj")
               (chars " ") (chars "www.104.com.tw/job/5znmj")
               (chars " ") (chars "www.104.com.tw/company/oye0i0") /\
  link_part (chars " ") (chars "www.104.com.tw/jobs/apply/analysis/5znmj") /\
  link_part (chars " ") (chars "www.104.com.tw/job/5znmj") /\
  link_part (chars " ") (chars "www.104.com.tw/company/oye0i0") /\
  split_link_field link_5znmj =
  (("https://" ++ join (chars "www.104.com.tw/jobs/apply/analysis/5znmj"))%string,
   ("https://" ++ join (chars "www.104.com.tw/job/5znmj"))%string,
   ("https://" ++ join (chars "www.104.com.tw/company/oye0i0"))%string).
Proof.
  assert (H0 : chars link_5znmj =
    link_chars (chars " ") (chars "www.104.com.tw/jobs/apply/analysis/5znmj")
               (chars " ") (chars "www.104.com.tw/job/5znmj")
               (chars " ") (chars "www.104.com.tw/company/oye0i0"))
    by (vm_compute; reflexivity).
  assert (H1 : link_part (chars " ")
                 (chars "www.104.com.tw/jobs/apply/analysis/5znmj"))
    by (apply link_part_of_string; vm_compute; reflexivity).
  assert (H2 : link_part (chars " ") (chars "www.104.com.tw/job/5znmj"))
    by (apply link_part_of_string; vm_compute; reflexivity).
  assert (H3 : link_part (chars " ") (chars "www.104.com.tw/company/oye0i0"))
    by (apply link_part_of_string; vm_compute; reflexivity).
  split; [exact H0|]. split; [exact H1|]. split; [exact H2|]. split; [exact H3|].
  exact (split_link_field_parses_link link_5znmj _ _ _ _ _ _ H0 H1 H2 H3).
Defined.

Example split_link_field_docstring :
  split_link_field
    "{'applyAnalyze': //www.104.com.tw/jobs/apply/analysis/5znmj?channel=104rpt&jobsource=hotjob_chr, 'job': //www.104.com.tw/job/5znmj?jobsource=hotjob_chr, 'cust': //www.104.com.tw/company/oye0i0?jobsource=hotjob_chr}"
  = ("https://www.104.com.tw/jobs/apply/analysis/5znmj?channel=104rpt&jobsource=hotjob_chr",
     "https://www.104.com.tw/job/5znmj?jobsource=hotjob_chr",
     "https://www.104.com.tw/company/oye0i0?jobsource=hotjob_chr").
Proof. vm_compute. reflexivity. Qed.

(** ** Saving and the coupling *)

Lemma coupled_active (doc : Job) :
  doc !! "status" = Some (VStr "active") ->
  doc !! "delisted_date" = None -> coupled doc = true.
Proof.
  intros Hs Hd. unfold coupled, MongoDBManager.has_status. by rewrite Hs, Hd.
Qed.

Lemma elem_of_update_one_upsert (today : string) (id : value) (job : Job)
    (docs : list Job) (doc' : Job) :
  doc' ∈ MongoDBManager.update_one_upsert today id job docs ->
  doc' ∈ docs \/
  (exists doc, doc ∈ docs /\ MongoDBManager.matches_jobNo id doc = true /\
               doc' = job ∪ doc) \/
  doc' = <["discovery_date" := VStr today]> (job ∪ {["jobNo" := id]}).
Proof.
  induction docs as [|d docs IH]; simpl.
  - intros ->%list_elem_of_singleton. by right; right.
  - destruct (MongoDBManager.matches_jobNo id d) eqn:Hm.
    + intros [->|Hin]%elem_of_cons.
      * right; left. exists d. split; [apply elem_of_cons; by left|done].
      * left. by apply elem_of_cons; right.
    + intros [->|Hin]%elem_of_cons.
      * left. apply elem_of_cons; by left.
      * destruct (IH Hin) as [H|[(doc & H1 & H2 & H3)|H]].
        -- left. by apply elem_of_cons; right.
        -- right; left. exists doc. split; [by apply elem_of_cons; right|done].
        -- by right; right.
Qed.

Lemma matches_jobNo_str (lid : string) (doc : Job) :
  MongoDBManager.matches_jobNo (VStr lid) doc = true ->
  doc !! "jobNo" = Some (VStr lid).
Proof.
  unfold MongoDBManager.matches_jobNo.
  destruct (doc !! "jobNo") as [v|]; [|done].
  by intros ->%py_eq_str_r.
Qed.

Lemma upsert_ops_coupling (today : string) (jobs : list Job)
    (ops : list (value * Job)) (docs docs' : list Job) :
  Forall (fun op : value * Job =>
            op.2 !! "jobNo" = Some op.1 /\
            (exists job, job ∈ jobs /\ op.2 !! "jobNo" = job !! "jobNo") /\
            fresh_record op.2) ops ->
  for_each (upsert_op today) docs ops = Ok docs' ->
  coupled_docs docs -> no_delisted_match jobs docs ->
  coupled_docs docs' /\ no_delisted_match jobs docs'.
Proof.
  intros Hops. revert docs.
  induction Hops as [|op ops Hop _ IH]; intros docs H Hc Hn.
  { by injection H as <-. }
  destruct op as [id job].
  destruct Hop as (Hid & (j & Hj & Hjid) & ((lid & Hlid) & Hst & Hdd)).
  cbn [for_each upsert_op] in H. simpl in Hid, Hjid, Hlid, Hst, Hdd.
  destruct (job !! "discovery_date"); [done|]. cbn [mbind res_bind] in H.
  rewrite Hlid in Hid. injection Hid as <-.
  apply (IH _ H).
  - apply Forall_forall. intros doc' Hin.
    apply elem_of_update_one_upsert in Hin as [Hin | [(doc & Hin & Hm & ->) | ->]].
    + by apply (proj1 (Forall_forall _ _) Hc).
    + apply coupled_active; [by apply lookup_union_Some_l|].
      rewrite lookup_union_r by done.
      apply (Hn doc j Hin Hj). rewrite <- Hjid, Hlid.
      by apply matches_jobNo_str.
    + apply coupled_active.
      * rewrite lookup_insert_ne by done. by apply lookup_union_Some_l.
      * rewrite lookup_insert_ne by done. rewrite lookup_union_r by done.
        by rewrite lookup_singleton_ne.
  - intros doc' job' Hin Hjob' Heq.
    apply elem_of_update_one_upsert in Hin as [Hin | [(doc & Hin & Hm & ->) | ->]].
    + by apply (Hn doc' job').
    + rewrite lookup_union_r by done.
      apply (Hn doc j Hin Hj). rewrite <- Hjid, Hlid.
      by apply matches_jobNo_str.
    + rewrite lookup_insert_ne by done. rewrite lookup_union_r by done.
      by rewrite lookup_singleton_ne.
Qed.

Lemma operations_fresh (now : value) (jobs : list Job)
    (ops : list (value * Job)) :
  Forall fresh_record jobs ->
  map_each operation_of (MongoDBManager.stamped now jobs) = Ok ops ->
  Forall (fun op : value * Job =>
            op.2 !! "jobNo" = Some op.1 /\
            (exists job, job ∈ jobs /\ op.2 !! "jobNo" = job !! "jobNo") /\
            fresh_record op.2) ops.
Proof.
  intros H. revert ops.
  induction H as [|job jobs Hjob _ IH]; intros ops Hops.
  { by injection Hops as <-. }
  destruct Hjob as ((lid & Hlid) & Hst & Hdd).
  change (MongoDBManager.stamped now (job :: jobs))
    with (<["mongodb_update_time" := now]> job :: MongoDBManager.stamped now jobs)
    in Hops.
  assert (Hop : operation_of (<["mongodb_update_time" := now]> job)
                 = Ok (VStr lid, <["mongodb_update_time" := now]> job)).
  { unfold operation_of. rewrite lookup_insert_ne by done. by rewrite Hlid. }
  cbn [map_each] in Hops. rewrite Hop in Hops.
  cbn [mbind res_bind] in Hops.
  destruct (map_each operation_of _) as [ops'|]; [|done].
  cbn [mbind res_bind] in Hops. injection Hops as <-.
  apply Forall_cons. split.
  - unfold fresh_record. simpl. rewrite !lookup_insert_ne by done.
    split; [done|]. split.
    + exists job. split; [apply elem_of_cons; by left|done].
    + split; [by exists lid|done].
  - eapply Forall_impl; [by apply IH|].
    intros op (H1 & (j & Hj & Hjid) & H3). split; [done|]. split; [|done].
    exists j. split; [by apply elem_of_cons; right|done].
Qed.

Lemma insert_jobs_coupling (now : value) (today : string)
    (jobs docs docs' : list Job) :
  MongoDBManager.insert_jobs now today jobs docs = Ok docs' ->
  Forall fresh_record jobs -> coupled_docs docs ->
  no_delisted_match jobs docs ->
  coupled_docs docs'.
Proof.
  rewrite insert_jobs_unfold. intros H Hfresh Hc Hn.
  destruct (map_each operation_of _) as [ops|] eqn:Hops; [|done].
  cbn [mbind res_bind] in H.
  by destruct (upsert_ops_coupling today jobs ops docs docs'
                 (operations_fresh now jobs ops Hfresh Hops) H Hc Hn).
Qed.

(** X18.  A save keeps the coupling exactly under the condition the
    first version of the crawler establishes before it saves: when the
    records of the batch are active and carry no delisted date, and no
    stored listing with the ID of a record still carries one, every
    stored listing is coupled after [insert_jobs] if it was before. *)
Theorem insert_jobs_keeps_coupling (now : value) (today : string)
    (jobs docs docs' : list Job) :
  MongoDBManager.insert_jobs now today jobs docs = Ok docs' ->
  Forall fresh_record jobs -> coupled_docs docs ->
  no_delisted_match jobs docs ->
  coupled_docs docs'.
Proof. apply insert_jobs_coupling. Qed.

Lemma insert_jobs_keeps_coupling_witness :
  let jobs :=
    [JobDataProcessor.add_metadata_one "2024-05-02" "python"
       (site_listing "A1" "Engineer");
     JobDataProcessor.add_metadata_one "2024-05-02" "python"
       (site_listing "C3" "Analyst")] in
  MongoDBManager.insert_jobs (VStr "2024-05-02T08:00:00") "2024-05-02"
    jobs [a1_first_run] = Ok saved_twice /\
  Forall fresh_record jobs /\ coupled_docs [a1_first_run] /\
  no_delisted_match jobs [a1_first_run] /\
  coupled_docs saved_twice.
Proof.
  intros jobs.
  assert (H1 : MongoDBManager.insert_jobs (VStr "2024-05-02T08:00:00")
                 "2024-05-02" jobs [a1_first_run] = Ok saved_twice)
    by by_evaluation.
  assert (H2 : Forall fresh_record jobs).
  { repeat (apply List.Forall_cons;
            [split; [eexists; vm_compute; reflexivity
                    |split; vm_compute; reflexivity]|]).
    apply List.Forall_nil. }
  assert (H3 : coupled_docs [a1_first_run]).
  { apply List.Forall_cons; [vm_compute; reflexivity|apply List.Forall_nil]. }
  assert (H4 : no_delisted_match jobs [a1_first_run]).
  { intros doc job Hdoc _ _. apply list_elem_of_singleton in Hdoc. subst doc.
    vm_compute. reflexivity. }
  split; [exact H1|]. split; [exact H2|]. split; [exact H3|].
  split; [exact H4|].
  exact (insert_jobs_keeps_coupling _ _ _ _ _ H1 H2 H3 H4).
Defined.

(** ** The first version of the crawler keeps the coupling *)

Lemma listing_id_jobNo (job : Job) (lid : string) :
  listing_id job = Some lid -> job !! "jobNo" = Some (VStr lid).
Proof.
  unfold listing_id. destruct (job !! "jobNo") as [[| |s| |]|]; try done.
  destruct (String.eqb s ""); [done|]. by intros [= ->].
Qed.

Lemma crawler_merge_fresh (all_jobs : list Job) :
  Forall stamped_record all_jobs ->
  exists dedup,
    Crawler._merge_job_keywords all_jobs = Ok dedup /\
    Forall fresh_record dedup /\
    (all_jobs <> [] -> dedup <> []).
Proof.
  intros H.
  assert (Hst : Forall (fun j => stamped_listing j = true) all_jobs).
  { eapply Forall_impl; [exact H|]. by intros j (? & _). }
  assert (Hraw : Forall (fun j => raw_listing j = true) all_jobs).
  { eapply Forall_impl; [exact Hst|]. intros j. apply stamped_raw. }
  destruct (for_each_merge_inv all_jobs [] [] merge_inv_nil Hraw)
    as (m & Hm & Hinv). simpl in Hinv.
  exists (dict_values m). split; [|split].
  - unfold Crawler._merge_job_keywords.
    rewrite (for_each_crawler_agrees all_jobs [] [] merge_inv_nil Hst), Hm.
    destruct all_jobs; [|done]. simpl in Hm. by injection Hm as <-.
  - destruct Hinv as (Hall & _). unfold dict_values.
    apply Forall_forall. intros o Ho.
    apply list_elem_of_In, in_map_iff in Ho as ([k o'] & <- & Hin).
    apply list_elem_of_In in Hin.
    destruct (proj1 (Forall_forall _ _) Hall _ Hin) as (lid & _ & Hrec).
    destruct Hrec as (first & rest & kws & Hgrp & Hf & _). simpl.
    assert (Hfirst : first ∈ group lid all_jobs)
      by (rewrite Hgrp; apply elem_of_cons; by left).
    apply list_elem_of_filter in Hfirst as [Hlid Hfirst].
    destruct (proj1 (Forall_forall _ _) H _ Hfirst) as (_ & Hs & Hd).
    split; [|split].
    + exists lid. rewrite Hf by done. by apply listing_id_jobNo.
    + by rewrite Hf.
    + by rewrite Hf.
  - intros Hne Hnil. destruct all_jobs as [|j jobs]; [done|].
    apply Forall_cons in Hst as [Hj _].
    unfold stamped_listing in Hj.
    destruct (j !! "jobNo") as [[| |s| |]|] eqn:Hjob; try done.
    apply andb_true_iff in Hj as [Hs _]. apply negb_true_iff in Hs.
    destruct Hinv as (_ & _ & Hdom).
    assert (Hin : VStr s ∈ dict_keys m).
    { apply Hdom. apply (group_nonempty _ j); [apply elem_of_cons; by left|].
      unfold listing_id. by rewrite Hjob, Hs. }
    unfold dict_keys, dict_values in *.
    destruct m; [by apply elem_of_nil in Hin|done].
Qed.

Lemma get_existing_jobs_unfold (docs : list Job) :
  MongoDBManager.get_existing_jobs docs =
  match for_each existing_step [] docs with
  | Ok existing_job_dict => existing_job_dict
  | Raise _ => []
  end.
Proof. reflexivity. Qed.

Lemma existing_step_str (acc : pydict value) (doc : Job) (l : string) :
  doc !! "jobNo" = Some (VStr l) ->
  existing_step acc doc =
  Ok (dict_set (VStr l) (default (VStr "active") (doc !! "status")) acc).
Proof. intros H. unfold existing_step. by rewrite H. Qed.

Lemma existing_frame (docs : list Job) (acc : pydict value) (lid : string) :
  Forall (fun doc : Job => exists l, doc !! "jobNo" = Some (VStr l)) docs ->
  (forall doc, doc ∈ docs -> doc !! "jobNo" <> Some (VStr lid)) ->
  exists e,
    for_each existing_step acc docs = Ok e /\
    dict_get (VStr lid) e = dict_get (VStr lid) acc.
Proof.
  intros H. revert acc. induction H as [|d docs [l Hl] _ IH]; intros acc Hno.
  { by exists acc. }
  cbn [for_each]. rewrite (existing_step_str _ _ _ Hl).
  cbn [mbind res_bind].
  destruct (IH (dict_set (VStr l) (default (VStr "active") (d !! "status")) acc))
    as (e & He & Hget).
  { intros doc Hin. apply Hno. by apply elem_of_cons; right. }
  exists e. split; [done|]. rewrite Hget, dict_get_str_set.
  destruct (py_eq (VStr l) (VStr lid)) eqn:Hpy; [|done].
  apply py_eq_str_r in Hpy. injection Hpy as ->.
  exfalso. apply (Hno d); [apply elem_of_cons; by left|done].
Qed.

Lemma existing_lookup (docs : list Job) (acc : pydict value) (doc : Job)
    (lid : string) :
  unique_ids docs -> doc ∈ docs -> doc !! "jobNo" = Some (VStr lid) ->
  exists e,
    for_each existing_step acc docs = Ok e /\
    dict_get (VStr lid) e = Some (default (VStr "active") (doc !! "status")).
Proof.
  intros [Hstr Hnd]. revert acc.
  induction Hstr as [|d docs [l Hl] Hstr IH]; intros acc Hin Hdoc.
  { by apply elem_of_nil in Hin. }
  rewrite fmap_cons in Hnd. apply NoDup_cons in Hnd as [Hnotin Hnd].
  cbn [for_each]. rewrite (existing_step_str _ _ _ Hl).
  cbn [mbind res_bind].
  apply elem_of_cons in Hin as [->|Hin].
  - rewrite Hdoc in Hl. injection Hl as <-.
    destruct (existing_frame docs
                (dict_set (VStr lid) (default (VStr "active") (d !! "status")) acc)
                lid Hstr) as (e & He & Hget).
    { intros doc' Hin' Heq. apply Hnotin. rewrite <- Hdoc in Heq.
      rewrite <- Heq. apply list_elem_of_fmap. by exists doc'. }
    exists e. split; [done|].
    by rewrite Hget, dict_get_str_set, py_eq_str_refl.
  - by apply IH.
Qed.

Lemma fresh_record_insert (job : Job) (f : string) (v : value) :
  f <> "jobNo" -> f <> "status" -> f <> "delisted_date" ->
  fresh_record job -> fresh_record (<[f := v]> job).
Proof.
  intros H1 H2 H3 ((lid & Hlid) & Hs & Hd). unfold fresh_record.
  rewrite !lookup_insert_ne by done. split; [by exists lid|done].
Qed.

Lemma fresh_record_activate (job : Job) :
  fresh_record job -> fresh_record (<["status" := VStr "active"]> job).
Proof.
  intros ((lid & Hlid) & Hs & Hd). unfold fresh_record.
  rewrite lookup_insert_eq. rewrite !lookup_insert_ne by done.
  split; [by exists lid|done].
Qed.

Lemma status_loop_fresh (today : string) (existing : pydict value)
    (jobs : list Job) :
  Forall fresh_record jobs ->
  exists jobs' reactivate_job_ids,
    Crawler.status_loop today existing jobs = (jobs', reactivate_job_ids, true) /\
    Forall fresh_record jobs' /\
    (fun j : Job => j !! "jobNo") <$> jobs' = (fun j : Job => j !! "jobNo") <$> jobs /\
    (forall j lid status,
        j ∈ jobs -> j !! "jobNo" = Some (VStr lid) ->
        dict_get (VStr lid) existing = Some status ->
        py_eq status (VStr "inactive") = true ->
        existsb (py_eq (VStr lid)) reactivate_job_ids = true).
Proof.
  induction 1 as [|job jobs Hjob _ (jobs' & ids & Hloop & Hfresh & Hids & Hre)].
  { exists [], []. split; [done|]. split; [done|]. split; [done|].
    intros j lid status Hj. by apply elem_of_nil in Hj. }
  pose proof Hjob as ((lid & Hlid) & Hs & Hd).
  cbn [Crawler.status_loop]. rewrite Hlid. cbn [hashable negb]. rewrite Hloop.
  destruct (dict_get (VStr lid) existing) as [status|] eqn:Hget.
  - destruct (py_eq status (VStr "inactive")) eqn:Hpy.
    + eexists _, _. split; [reflexivity|]. split; [|split].
      * apply Forall_cons. split; [|done].
        by apply fresh_record_activate, fresh_record_insert.
      * rewrite !fmap_cons, Hids. f_equal.
        by rewrite !lookup_insert_ne by done.
      * intros j l st Hj Hl Hg Hst. cbn [app existsb].
        apply elem_of_cons in Hj as [->|Hj].
        -- rewrite Hlid in Hl. injection Hl as <-.
           by rewrite py_eq_str_refl.
        -- rewrite (Hre j l st Hj Hl Hg Hst). apply orb_true_r.
    + eexists _, _. split; [reflexivity|]. split; [|split].
      * apply Forall_cons. split; [|done]. by apply fresh_record_insert.
      * rewrite !fmap_cons, Hids. f_equal. by rewrite lookup_insert_ne.
      * intros j l st Hj Hl Hg Hst. cbn [app].
        apply elem_of_cons in Hj as [->|Hj]; [|by apply (Hre j l st)].
        rewrite Hlid in Hl. injection Hl as <-.
        rewrite Hget in Hg. injection Hg as <-. congruence.
  - eexists _, _. split; [reflexivity|]. split; [|split].
    + apply Forall_cons. split; [|done]. by apply fresh_record_insert.
    + rewrite !fmap_cons, Hids. f_equal. by rewrite lookup_insert_ne.
    + intros j l st Hj Hl Hg Hst. cbn [app].
      apply elem_of_cons in Hj as [->|Hj]; [|by apply (Hre j l st)].
      rewrite Hlid in Hl. injection Hl as <-. congruence.
Qed.

Lemma current_job_ids_fresh (jobs : list Job) :
  Forall fresh_record jobs ->
  exists ids,
    map_each (fun job => Crawler.getitem job "jobNo") jobs = Ok ids /\
    (forall j lid, j ∈ jobs -> j !! "jobNo" = Some (VStr lid) ->
                   existsb (py_eq (VStr lid)) ids = true) /\
    (jobs <> [] -> ids <> []).
Proof.
  induction 1 as [|job jobs ((lid & Hlid) & _) _ (ids & Hids & Hin & _)].
  { exists []. split; [done|]. split; [|done].
    intros j lid Hj. by apply elem_of_nil in Hj. }
  assert (Hget : Crawler.getitem job "jobNo" = Ok (VStr lid))
    by (unfold Crawler.getitem; by rewrite Hlid).
  exists (VStr lid :: ids). cbn [map_each]. rewrite Hget, Hids.
  cbn [mbind res_bind]. split; [done|]. split; [|done].
  intros j l Hj Hl. cbn [existsb]. apply elem_of_cons in Hj as [->|Hj].
  - rewrite Hlid in Hl. injection Hl as <-. by rewrite py_eq_str_refl.
  - rewrite (Hin j l Hj Hl). apply orb_true_r.
Qed.

Lemma update_job_status_elem (today : string) (ids : list value)
    (docs : list Job) (doc' : Job) :
  doc' ∈ MongoDBManager.update_job_status today ids docs ->
  exists doc,
    doc ∈ docs /\ doc' !! "jobNo" = doc !! "jobNo" /\
    (MongoDBManager.jobNo_nin ids doc = false -> doc' = doc).
Proof.
  unfold MongoDBManager.update_job_status. destruct ids as [|v ids].
  { intros H. by exists doc'. }
  intros H. apply list_elem_of_In, in_map_iff in H as (doc & <- & Hin).
  apply list_elem_of_In in Hin. exists doc. split; [done|].
  destruct (MongoDBManager.jobNo_nin (v :: ids) doc); cbn [andb].
  - split; [|done]. destruct (MongoDBManager.has_status "active" doc); [|done].
    by rewrite !lookup_insert_ne by done.
  - done.
Qed.

Lemma reactivate_jobs_elem (today : string) (ids : list value)
    (docs : list Job) (doc' : Job) :
  doc' ∈ MongoDBManager.reactivate_jobs today ids docs ->
  exists doc,
    doc ∈ docs /\ doc' !! "jobNo" = doc !! "jobNo" /\
    (doc' !! "delisted_date" = None \/
     doc' = doc /\
     MongoDBManager.jobNo_in ids doc
       && MongoDBManager.has_status "inactive" doc = false).
Proof.
  unfold MongoDBManager.reactivate_jobs. destruct ids as [|v ids].
  { intros H. exists doc'. split; [done|]. split; [done|]. right.
    split; [done|]. unfold MongoDBManager.jobNo_in.
    by destruct (doc' !! "jobNo"). }
  intros H. apply list_elem_of_In, in_map_iff in H as (doc & <- & Hin).
  apply list_elem_of_In in Hin. exists doc. split; [done|].
  destruct (_ && _) eqn:Hc.
  - split.
    + rewrite lookup_delete_ne by done. by rewrite !lookup_insert_ne by done.
    + left. by rewrite lookup_delete_eq.
  - split; [done|]. by right.
Qed.

Lemma coupled_not_inactive (doc : Job) :
  coupled doc = true -> MongoDBManager.has_status "inactive" doc = false ->
  doc !! "delisted_date" = None.
Proof.
  unfold coupled. intros H Hs. rewrite Hs in H.
  apply andb_true_iff in H as [H _].
  destruct (doc !! "delisted_date") as [v|]; [|done].
  rewrite bool_decide_eq_true_2 in H by (by eexists). done.
Qed.

Lemma crawler_status_unfold (today : string) (jobs docs : list Job) :
  jobs <> [] ->
  Crawler._process_job_status today jobs docs =
  match map_each (fun job => Crawler.getitem job "jobNo") jobs with
  | Raise _ => (jobs, docs)
  | Ok current_job_ids =>
      match MongoDBManager.get_existing_jobs docs with
      | [] =>
          (map (fun job : Job => <["last_update_date" := VStr today]> job) jobs,
           docs)
      | _ =>
          let '(jobs', reactivate_job_ids, finished) :=
            Crawler.status_loop today (MongoDBManager.get_existing_jobs docs) jobs in
          if finished
          then (jobs',
                MongoDBManager.reactivate_jobs today reactivate_job_ids
                  (MongoDBManager.update_job_status today current_job_ids docs))
          else (jobs',
                MongoDBManager.update_job_status today current_job_ids docs)
      end
  end.
Proof. by destruct jobs. Qed.

Lemma crawler_status_no_delisted (today : string) (jobs docs : list Job) :
  Forall fresh_record jobs -> coupled_docs docs -> unique_ids docs ->
  Forall fresh_record (Crawler._process_job_status today jobs docs).1 /\
  coupled_docs (Crawler._process_job_status today jobs docs).2 /\
  no_delisted_match (Crawler._process_job_status today jobs docs).1
                    (Crawler._process_job_status today jobs docs).2.
Proof.
  intros Hfresh Hc Hu.
  destruct (decide (jobs = [])) as [->|Hne].
  { split; [done|]. split; [done|]. intros doc job _ Hj.
    by apply elem_of_nil in Hj. }
  rewrite (crawler_status_unfold today jobs docs Hne).
  destruct (current_job_ids_fresh jobs Hfresh) as (ids & Hids & Hinids & _).
  rewrite Hids.
  destruct (status_loop_fresh today (MongoDBManager.get_existing_jobs docs)
              jobs Hfresh) as (jobs' & re_ids & Hloop & Hfresh' & Hnos & Hre).
  assert (Hlookup : forall doc lid,
            doc ∈ docs -> doc !! "jobNo" = Some (VStr lid) ->
            dict_get (VStr lid) (MongoDBManager.get_existing_jobs docs) =
            Some (default (VStr "active") (doc !! "status"))).
  { intros doc lid Hin Hdoc. rewrite get_existing_jobs_unfold.
    destruct (existing_lookup docs [] doc lid Hu Hin Hdoc) as (e & He & Hget).
    by rewrite He. }
  destruct (MongoDBManager.get_existing_jobs docs) as [|e0 e'] eqn:Hex.
  - cbn [fst snd]. split; [|split; [done|]].
    + apply Forall_forall. intros j Hj.
      apply list_elem_of_In, in_map_iff in Hj as (j' & <- & Hj').
      apply list_elem_of_In in Hj'. apply fresh_record_insert; try done.
      by apply (proj1 (Forall_forall _ _) Hfresh).
    + intros doc job Hdoc Hjob Heq.
      destruct (proj1 (Forall_forall _ _) (proj1 Hu) doc Hdoc) as [lid Hlid].
      by specialize (Hlookup doc lid Hdoc Hlid).
  - rewrite <- Hex in *. rewrite Hloop. cbn [fst snd].
    split; [done|]. split.
    { by apply reactivate_jobs_coupled, update_job_status_coupled. }
    intros doc1 job1 Hdoc1 Hjob1 Heq.
    destruct (proj1 (Forall_forall _ _) Hfresh' job1 Hjob1)
      as ((lid & Hlid) & _).
    assert (Hj : exists j, j ∈ jobs /\ j !! "jobNo" = Some (VStr lid)).
    { assert (Hin : Some (VStr lid) ∈ (fun j : Job => j !! "jobNo") <$> jobs').
      { apply list_elem_of_fmap. by exists job1. }
      rewrite Hnos in Hin. apply list_elem_of_fmap in Hin as (j & Hjl & Hj).
      by exists j. }
    destruct Hj as (j & Hj & Hjl).
    apply reactivate_jobs_elem in Hdoc1 as (du & Hdu & Hno1 & Hcase).
    apply update_job_status_elem in Hdu as (d & Hd & Hno2 & Hsame).
    assert (Hdl : d !! "jobNo" = Some (VStr lid)) by congruence.
    assert (Hdu : du = d).
    { apply Hsame. unfold MongoDBManager.jobNo_nin. rewrite Hdl.
      by rewrite (Hinids j lid Hj Hjl). }
    subst du. destruct Hcase as [Hnone|[-> Hcond]]; [done|].
    pose proof (proj1 (Forall_forall _ _) Hc d Hd) as Hcd.
    destruct (MongoDBManager.has_status "inactive" d) eqn:Hin;
      [|by apply coupled_not_inactive].
    exfalso. rewrite andb_true_r in Hcond.
    unfold MongoDBManager.jobNo_in in Hcond. rewrite Hdl in Hcond.
    unfold MongoDBManager.has_status in Hin.
    destruct (d !! "status") as [st|] eqn:Hst; [|done].
    specialize (Hlookup d lid Hd Hdl). rewrite Hst in Hlookup.
    cbn [from_option] in Hlookup.
    by rewrite (Hre j lid st Hj Hjl Hlookup Hin) in Hcond.
Qed.

Section CrawlerPipeline.

Variable split_link_field : string -> string * string * string.

Lemma process_job_fields_elem (jobs : list Job) (job' : Job) :
  job' ∈ JobDataProcessor._process_job_fields split_link_field jobs ->
  exists job,
    job ∈ jobs /\ job' !! "jobNo" = job !! "jobNo" /\
    job' !! "status" = job !! "status" /\
    job' !! "delisted_date" = job !! "delisted_date".
Proof.
  unfold JobDataProcessor._process_job_fields. intros H.
  apply list_elem_of_In, in_map_iff in H as (j1 & <- & H).
  apply in_map_iff in H as (job & <- & H). apply list_elem_of_In in H.
  exists job. split; [done|]. by rewrite !fields_one_lookup by done.
Qed.

Lemma process_job_fields_fresh (jobs docs : list Job) :
  Forall fresh_record jobs -> no_delisted_match jobs docs ->
  Forall fresh_record
    (JobDataProcessor._process_job_fields split_link_field jobs) /\
  no_delisted_match
    (JobDataProcessor._process_job_fields split_link_field jobs) docs.
Proof.
  intros Hfresh Hn. split.
  - apply Forall_forall. intros job' Hin.
    apply process_job_fields_elem in Hin as (job & Hin & Hno & Hs & Hd).
    unfold fresh_record. rewrite Hno, Hs, Hd.
    by apply (proj1 (Forall_forall _ _) Hfresh).
  - intros doc job' Hdoc Hin Heq.
    apply process_job_fields_elem in Hin as (job & Hin & Hno & _).
    apply (Hn doc job Hdoc Hin). congruence.
Qed.

(** X19. A run of the first version of the crawler keeps the status and
    the delisted date of the stored listings coupled.  When the listings
    it is given are stamped as [Crawler.main] stamps them, and every stored
    listing has a string ID of its own and is inactive exactly when it
    carries a delisted date, then [process_jobs_data] (merge, status
    reconciliation against the collection, field split, upsert), if it
    completes, leaves a collection in which every listing is again
    inactive exactly when it carries a delisted date. *)
Theorem crawler_pipeline_keeps_coupling (now : value) (today : string)
    (all_jobs docs docs' out : list Job) :
  Forall stamped_record all_jobs -> coupled_docs docs -> unique_ids docs ->
  Crawler.process_jobs_data split_link_field now today all_jobs docs
    = Ok (docs', out) ->
  coupled_docs docs'.
Proof.
  intros Hst Hc Hu. unfold Crawler.process_jobs_data.
  destruct all_jobs as [|j0 all_jobs'] eqn:Hall; [congruence|].
  rewrite <- Hall in *.
  destruct (crawler_merge_fresh all_jobs Hst) as (dedup & -> & Hfresh & _).
  cbn [mbind res_bind].
  destruct (crawler_status_no_delisted today dedup docs Hfresh Hc Hu)
    as (Hfresh1 & Hc1 & Hn1).
  destruct (Crawler._process_job_status today dedup docs) as [jobs1 docs1].
  cbn [fst snd] in *.
  destruct (process_job_fields_fresh jobs1 docs1 Hfresh1 Hn1) as [Hfresh2 Hn2].
  destruct (MongoDBManager.insert_jobs _ _ _ _) as [docs2|e] eqn:Hins; [|done].
  cbn [mbind res_bind]. intros [= <- _].
  by apply (insert_jobs_coupling now today _ docs1 docs2 Hins).
Qed.

End CrawlerPipeline.

Lemma crawler_pipeline_keeps_coupling_witness :
  let all_jobs :=
    [JobDataProcessor.add_metadata_one "2024-05-01" "python"
       (site_listing "B2" "Clerk")] in
  let docs := [stored_active; stored_inactive] in
  Forall stamped_record all_jobs /\ coupled_docs docs /\ unique_ids docs /\
  exists docs' out,
    Crawler.process_jobs_data split_link_field (VStr "2024-05-01T08:00:00")
      "2024-05-01" all_jobs docs = Ok (docs', out) /\
    coupled_docs docs'.
Proof.
  intros all_jobs docs.
  assert (H1 : Forall stamped_record all_jobs).
  { repeat (apply List.Forall_cons;
            [repeat split; vm_compute; reflexivity|]).
    apply List.Forall_nil. }
  assert (H2 : coupled_docs docs).
  { repeat (apply List.Forall_cons; [vm_compute; reflexivity|]).
    apply List.Forall_nil. }
  assert (H3 : unique_ids docs).
  { split.
    - repeat (apply List.Forall_cons; [eexists; vm_compute; reflexivity|]).
      apply List.Forall_nil.
    - vm_compute. repeat constructor; set_solver. }
  split; [exact H1|]. split; [exact H2|]. split; [exact H3|].
  assert (Hok : match Crawler.process_jobs_data split_link_field
                        (VStr "2024-05-01T08:00:00") "2024-05-01" all_jobs docs
                with Ok _ => true | Raise _ => false end = true).
  { vm_compute. reflexivity. }
  destruct (Crawler.process_jobs_data split_link_field
              (VStr "2024-05-01T08:00:00") "2024-05-01" all_jobs docs)
    as [[docs' out]|e] eqn:Hrun; [|discriminate Hok].
  exists docs', out. split; [reflexivity|].
  exact (crawler_pipeline_keeps_coupling split_link_field
           (VStr "2024-05-01T08:00:00") "2024-05-01" all_jobs docs docs' out
           H1 H2 H3 Hrun).
Defined.

(** ** The search URL *)

Lemma unquote_quote_step (c : ascii) (s : string) :
  unquote_plus (JobSearcher.quote (fun _ => false) (String c s)) =
  String c (unquote_plus (JobSearcher.quote (fun _ => false) s)).
Proof. destruct c as [[] [] [] [] [] [] [] []]; reflexivity. Qed.

Lemma unquote_blank_step (c : ascii) (s : string) :
  unquote_plus (JobSearcher.plus_for_blank
                  (JobSearcher.quote JobSearcher.blank (String c s))) =
  String c (unquote_plus (JobSearcher.plus_for_blank
                            (JobSearcher.quote JobSearcher.blank s))).
Proof. destruct c as [[] [] [] [] [] [] [] []]; reflexivity. Qed.

Lemma unquote_quote_plus (s : string) :
  unquote_plus (JobSearcher.quote_plus s) = s.
Proof.
  unfold JobSearcher.quote_plus. destruct (JobSearcher.has_blank s).
  - induction s as [|c s IH]; [done|]. by rewrite unquote_blank_step, IH.
  - induction s as [|c s IH]; [done|]. by rewrite unquote_quote_step, IH.
Qed.

Lemma quote_plus_inj (s t : string) :
  JobSearcher.quote_plus s = JobSearcher.quote_plus t -> s = t.
Proof.
  intros H. rewrite <- (unquote_quote_plus s), <- (unquote_quote_plus t).
  by rewrite H.
Qed.

Lemma amp_free_quote_step (c : ascii) (s : string) :
  amp_free (JobSearcher.quote (fun _ => false) (String c s)) =
  amp_free (JobSearcher.quote (fun _ => false) s).
Proof. destruct c as [[] [] [] [] [] [] [] []]; reflexivity. Qed.

Lemma amp_free_blank_step (c : ascii) (s : string) :
  amp_free (JobSearcher.plus_for_blank
              (JobSearcher.quote JobSearcher.blank (String c s))) =
  amp_free (JobSearcher.plus_for_blank
              (JobSearcher.quote JobSearcher.blank s)).
Proof. destruct c as [[] [] [] [] [] [] [] []]; reflexivity. Qed.

Lemma amp_free_quote_plus (s : string) :
  amp_free (JobSearcher.quote_plus s) = true.
Proof.
  unfold JobSearcher.quote_plus. destruct (JobSearcher.has_blank s).
  - induction s as [|c s IH]; [done|]. by rewrite amp_free_blank_step.
  - induction s as [|c s IH]; [done|]. by rewrite amp_free_quote_step.
Qed.

Lemma amp_split (q1 q2 r1 r2 : string) :
  amp_free q1 = true -> amp_free q2 = true ->
  (q1 ++ String "&" r1)%string = (q2 ++ String "&" r2)%string ->
  q1 = q2 /\ r1 = r2.
Proof.
  revert q2. induction q1 as [|c q1 IH]; intros [|c' q2] H1 H2 H.
  - by injection H.
  - rewrite append_cons in H. injection H as <- _. done.
  - rewrite append_cons in H. injection H as -> _. done.
  - rewrite !append_cons in H. injection H as -> H.
    cbn [amp_free] in H1, H2.
    apply andb_true_iff in H1 as [_ H1]. apply andb_true_iff in H2 as [_ H2].
    destruct (IH q2 H1 H2 H) as [-> ->]. done.
Qed.

Lemma string_app_inv_head (s a b : string) :
  (s ++ a)%string = (s ++ b)%string -> a = b.
Proof.
  induction s as [|c s IH]; [done|]. rewrite !append_cons.
  intros [= H]. by apply IH.
Qed.

Lemma build_url_shape (k : string) (p : Z) (a i j e d : string) :
  JobSearcher.build_url k p a i j e d =
  (JobSearcher.SEARCH_API_URL ++ "?keyword=" ++
   JobSearcher.quote_plus k ++ String "&" ("page=" ++
   JobSearcher.quote_plus (pretty p) ++ String "&" ("area=" ++
   JobSearcher.quote_plus a ++ String "&" ("industry=" ++
   JobSearcher.quote_plus i ++ String "&" ("jobCat=" ++
   JobSearcher.quote_plus j ++ String "&" ("exp=" ++
   JobSearcher.quote_plus e ++ String "&" ("edu=" ++
   JobSearcher.quote_plus d ++ String "&" "mode=s&jobsource=index")))))))%string.
Proof. reflexivity. Qed.

Lemma build_url_fields (k : string) (p : Z) (a i j e d : string)
    (k' : string) (p' : Z) (a' i' j' e' d' : string) :
  JobSearcher.build_url k p a i j e d =
  JobSearcher.build_url k' p' a' i' j' e' d' ->
  k = k' /\ p = p' /\ a = a' /\ i = i' /\ j = j' /\ e = e' /\ d = d'.
Proof.
  rewrite !build_url_shape. intros H.
  apply string_app_inv_head, string_app_inv_head in H.
  apply amp_split in H as [Hk H]; [|apply amp_free_quote_plus..].
  apply string_app_inv_head in H.
  apply amp_split in H as [Hp H]; [|apply amp_free_quote_plus..].
  apply string_app_inv_head in H.
  apply amp_split in H as [Ha H]; [|apply amp_free_quote_plus..].
  apply string_app_inv_head in H.
  apply amp_split in H as [Hi H]; [|apply amp_free_quote_plus..].
  apply string_app_inv_head in H.
  apply amp_split in H as [Hj H]; [|apply amp_free_quote_plus..].
  apply string_app_inv_head in H.
  apply amp_split in H as [He H]; [|apply amp_free_quote_plus..].
  apply string_app_inv_head in H.
  apply amp_split in H as [Hd _]; [|apply amp_free_quote_plus..].
  apply quote_plus_inj in Hk, Hp, Ha, Hi, Hj, He, Hd.
  apply (inj pretty) in Hp. done.
Qed.

(** X20. The search URL identifies the search: [build_url] gives the same
    URL for two searches only when the keyword, the page, the area, the
    industry, the job category, the experience and the education are all
    the same. *)
Theorem build_url_injective (keyword : string) (page : Z)
    (area industry job_category experience education : string)
    (keyword' : string) (page' : Z)
    (area' industry' job_category' experience' education' : string) :
  JobSearcher.build_url keyword page area industry job_category experience
    education =
  JobSearcher.build_url keyword' page' area' industry' job_category'
    experience' education' ->
  keyword = keyword' /\ page = page' /\ area = area' /\
  industry = industry' /\ job_category = job_category' /\
  experience = experience' /\ education = education'.
Proof. apply build_url_fields. Qed.

Lemma build_url_injective_witness :
  JobSearcher.build_url "python 工程師" 2 "6001001000" "" "" "" "" =
  "https://www.104.com.tw/jobs/search/list?keyword=python+%E5%B7%A5%E7%A8%8B%E5%B8%AB&page=2&area=6001001000&industry=&jobCat=&exp=&edu=&mode=s&jobsource=index" /\
  ("python 工程師" = "python 工程師" /\ 2 = 2 /\ "6001001000" = "6001001000" /\
   "" = "" /\ "" = "" /\ "" = "" /\ "" = "").
Proof.
  split; [vm_compute; reflexivity|].
  apply (build_url_injective "python 工程師" 2 "6001001000" "" "" "" ""
           "python 工程師" 2 "6001001000" "" "" "" "").
  reflexivity.
Defined.

Lemma page_urls_length (keyword area_code : string) (n : Z) :
  length (JobSearcher.page_urls keyword area_code n) = Z.to_nat n.
Proof.
  unfold JobSearcher.page_urls. by rewrite length_map, length_seqZ.
Qed.

Lemma page_urls_lookup (keyword area_code : string) (n i : Z) :
  0 <= i < n ->
  JobSearcher.page_urls keyword area_code n !! Z.to_nat i =
  Some (JobSearcher.build_url keyword (i + 1) area_code "" "" "" "").
Proof.
  intros Hi. unfold JobSearcher.page_urls.
  change (map ?f ?l) with (f <$> l). rewrite list_lookup_fmap.
  rewrite (lookup_seqZ_lt 1 n (Z.to_nat i)) by lia. cbn [fmap option_fmap option_map].
  do 2 f_equal. lia.
Qed.

Lemma page_urls_NoDup (keyword area_code : string) (n : Z) :
  NoDup (JobSearcher.page_urls keyword area_code n).
Proof.
  unfold JobSearcher.page_urls. change (map ?f ?l) with (f <$> l).
  apply NoDup_fmap_2; [|apply NoDup_seqZ].
  intros p p' H. by apply build_url_fields in H as (_ & -> & _).
Qed.

(** X21. [get_first_page] lists every page once.  After a miss of the
    cache, when [search_jobs] returns a response whose [data.totalPage] is
    the integer [n], the result has status [ok] and its [result] is the
    list of the URLs of the pages 1 to [n], in this order ([n] URLs, none
    for [n <= 0]), no two of them equal. *)
Theorem get_first_page_lists_every_page (today keyword area_code area_name : string)
    (response : res value) (first_page_response data : value) (n : Z)
    (cache : FileJobStorage.search_cache) :
  JobSearcher.cached_ok
    (FileJobStorage.get_search_result
       (JobSearcher.first_page_filter today
          (JobSearcher.build_url keyword 1 area_code "" "" "" "")) cache)
    = false ->
  JobSearcher.search_jobs response = Ok first_page_response ->
  JobSearcher.subscript first_page_response "data" = Ok data ->
  JobSearcher.subscript data "totalPage" = Ok (VInt n) ->
  let result :=
    (JobSearcher.get_first_page today keyword area_code area_name response
       cache).1 in
  let all_page_urls := JobSearcher.page_urls keyword area_code n in
  result !! "status" = Some (VStr "ok") /\
  result !! "result" = Some (VList (VStr <$> all_page_urls)) /\
  length all_page_urls = Z.to_nat n /\
  (forall i, 0 <= i < n ->
     all_page_urls !! Z.to_nat i =
     Some (JobSearcher.build_url keyword (i + 1) area_code "" "" "" "")) /\
  NoDup all_page_urls.
Proof.
  intros Hmiss Hsearch Hdata Htotal result all_page_urls.
  subst result. unfold JobSearcher.get_first_page. rewrite Hmiss.
  unfold JobSearcher.first_page_urls. rewrite Hsearch.
  cbn [mbind res_bind]. rewrite Hdata. cbn [mbind res_bind].
  rewrite Htotal. cbn [mbind res_bind fst].
  split; [by lookup_literal|]. split; [by lookup_literal|].
  split; [apply page_urls_length|].
  split; [apply page_urls_lookup|apply page_urls_NoDup].
Qed.

Lemma get_first_page_lists_every_page_witness :
  let response :=
    Ok (VDict [("data", VDict [("totalPage", VInt 3); ("totalCount", VInt 50);
                               ("list", VList [])])]) in
  let result :=
    (JobSearcher.get_first_page "2024-05-01" "python" "6001001000" "台北市"
       response []).1 in
  let all_page_urls := JobSearcher.page_urls "python" "6001001000" 3 in
  all_page_urls =
    ["https://www.104.com.tw/jobs/search/list?keyword=python&page=1&area=6001001000&industry=&jobCat=&exp=&edu=&mode=s&jobsource=index";
     "https://www.104.com.tw/jobs/search/list?keyword=python&page=2&area=6001001000&industry=&jobCat=&exp=&edu=&mode=s&jobsource=index";
     "https://www.104.com.tw/jobs/search/list?keyword=python&page=3&area=6001001000&industry=&jobCat=&exp=&edu=&mode=s&jobsource=index"] /\
  result !! "status" = Some (VStr "ok") /\
  result !! "result" = Some (VList (VStr <$> all_page_urls)) /\
  length all_page_urls = Z.to_nat 3 /\
  (forall i, 0 <= i < 3 ->
     all_page_urls !! Z.to_nat i =
     Some (JobSearcher.build_url "python" (i + 1) "6001001000" "" "" "" "")) /\
  NoDup all_page_urls.
Proof.
  intros response result all_page_urls.
  split; [vm_compute; reflexivity|].
  apply (get_first_page_lists_every_page "2024-05-01" "python" "6001001000"
           "台北市" response
           (VDict [("data", VDict [("totalPage", VInt 3);
                                   ("totalCount", VInt 50);
                                   ("list", VList [])])])
           (VDict [("totalPage", VInt 3); ("totalCount", VInt 50);
                   ("list", VList [])]) 3 []);
    vm_compute; reflexivity.
Defined.

Lemma search_jobs_without_data (d : list (string * value)) :
  assoc_get "data" d = None ->
  exists d',
    JobSearcher.search_jobs (Ok (VDict d)) = Ok (VDict d') /\
    assoc_get "data" d' = None.
Proof.
  intros Hd. unfold JobSearcher.search_jobs. cbn [mbind res_bind py_in hashable].
  destruct (assoc_get "error" d) as [v|] eqn:He.
  - rewrite bool_decide_eq_true_2 by (by eexists).
    cbn [JobSearcher.subscript]. rewrite He. cbn [mbind res_bind].
    by exists d.
  - rewrite bool_decide_eq_false_2 by (by intros [? ?]).
    rewrite Hd. rewrite bool_decide_eq_false_2 by (by intros [? ?]).
    cbn [negb]. by eexists.
Qed.

(** X22. A page whose response has no [data] field counts as fetched and
    gives no listing.  After a miss of the cache, for every response dict
    without the key [data] (with or without the key [error]),
    [search_with_semaphore] returns a result with status [ok],
    [fetch_all_pages] keeps it among the successful results, and
    [extract_jobs_from_results] takes no listing from it. *)
Theorem page_without_data_is_ok_and_empty (today keyword url : string)
    (d : list (string * value)) (cache : FileJobStorage.search_cache) :
  assoc_get "data" d = None ->
  JobSearcher.cached_ok
    (FileJobStorage.get_search_result (JobSearcher.page_filter today url) cache)
    = false ->
  let result :=
    (JobSearcher.search_with_semaphore today keyword url (Ok (VDict d))
       cache).1 in
  result !! "status" = Some (VStr "ok") /\
  JobSearcher.successful_results [result] = [result] /\
  JobSearcher.extract_jobs_from_results [result] keyword = Ok [].
Proof.
  intros Hd Hmiss result. subst result.
  unfold JobSearcher.search_with_semaphore. rewrite Hmiss.
  destruct (search_jobs_without_data d Hd) as (d' & -> & Hd').
  cbn [fst].
  assert (Hs : JobSearcher.page_result today url keyword "ok" (VDict d')
               !! "status" = Some (VStr "ok")) by by lookup_literal.
  assert (Hr : JobSearcher.page_result today url keyword "ok" (VDict d')
               !! "result" = Some (VDict d')) by by lookup_literal.
  split; [done|]. split.
  - unfold JobSearcher.successful_results.
    rewrite filter_cons_True; [done|]. by rewrite Hs.
  - unfold JobSearcher.extract_jobs_from_results. cbn [for_each].
    rewrite Hr. cbn [default from_option id mbind res_bind JobSearcher.get_or].
    by rewrite Hd'.
Qed.

Lemma page_without_data_is_ok_and_empty_witness :
  let d := [("status_code", VInt 200); ("content", VStr "<html>busy</html>");
            ("headers", VDict [("content-type", VStr "text/html")])] in
  let result :=
    (JobSearcher.search_with_semaphore "2024-05-01" "python" "u" (Ok (VDict d))
       []).1 in
  result !! "result" =
    Some (VDict [("error", VStr JobSearcher.no_data_message)]) /\
  result !! "status" = Some (VStr "ok") /\
  JobSearcher.successful_results [result] = [result] /\
  JobSearcher.extract_jobs_from_results [result] "python" = Ok [].
Proof.
  intros d result. split; [vm_compute; reflexivity|].
  apply (page_without_data_is_ok_and_empty "2024-05-01" "python" "u" d []);
    vm_compute; reflexivity.
Defined.

Lemma assoc_get_set (key : string) (x : value) (d : list (string * value)) :
  assoc_get key (JobSearcher.assoc_set key x d) = Some x.
Proof.
  induction d as [|[k v] d IH]; cbn [JobSearcher.assoc_set assoc_get].
  - by rewrite String.eqb_refl.
  - destruct (String.eqb k key) eqn:Hk; cbn [assoc_get]; by rewrite Hk.
Qed.

Lemma setitem_each_found (keyword : string) (jobs jobs' : list value) :
  map_each (fun job => JobSearcher.setitem job "search_keyword" (VStr keyword))
           jobs = Ok jobs' ->
  Forall (found_under keyword) jobs' /\ length jobs' = length jobs.
Proof.
  revert jobs'. induction jobs as [|job jobs IH]; intros jobs'.
  { intros [= <-]. by split. }
  cbn [map_each]. destruct job as [| | | |d]; try done.
  cbn [JobSearcher.setitem mbind res_bind].
  destruct (map_each _ jobs) as [ys|] eqn:Hys; [|done].
  cbn [mbind res_bind]. intros [= <-].
  destruct (IH ys eq_refl) as [Hall Hlen]. split.
  - apply List.Forall_cons; [|done]. eexists. split; [done|].
    apply assoc_get_set.
  - cbn [length]. by rewrite Hlen.
Qed.

Lemma extract_jobs_found (keyword : string) (search_results : list Job)
    (acc all_jobs : list value) :
  keyword <> "" ->
  Forall (found_under keyword) acc ->
  for_each
    (fun (all_jobs : list value) (result : Job) =>
       response_data ← Ok (default (VDict []) (result !! "result"));
       data ← JobSearcher.get_or response_data "data" (VDict []);
       jobs_in_result ← JobSearcher.get_or data "list" (VList []);
       if truthy jobs_in_result
       then
         jobs ← JobSearcher.iterate jobs_in_result;
         jobs ← (if truthy (VStr keyword)
                 then map_each (fun job =>
                                  JobSearcher.setitem job "search_keyword"
                                    (VStr keyword))
                               jobs
                 else Ok jobs);
         Ok (all_jobs ++ jobs)
       else Ok all_jobs)
    acc search_results = Ok all_jobs ->
  Forall (found_under keyword) all_jobs.
Proof.
  intros Hk.
  assert (Ht : truthy (VStr keyword) = true).
  { cbn [truthy]. destruct (String.eqb_spec keyword ""); done. }
  rewrite Ht. clear Ht. revert acc.
  induction search_results as [|result search_results IH]; intros acc Hacc.
  { by intros [= <-]. }
  cbn [for_each].
  match goal with |- (?m ≫= _) = _ -> _ => destruct m as [acc'|] eqn:Hstep end;
    [|done].
  cbn [mbind res_bind]. apply IH.
  cbn [mbind res_bind] in Hstep.
  destruct (JobSearcher.get_or _ "data" _) as [data|]; [|done].
  cbn [mbind res_bind] in Hstep.
  destruct (JobSearcher.get_or data "list" _) as [jobs_in_result|]; [|done].
  cbn [mbind res_bind] in Hstep.
  destruct (truthy jobs_in_result); [|by injection Hstep as <-].
  destruct (JobSearcher.iterate jobs_in_result) as [jobs|]; [|done].
  cbn [mbind res_bind] in Hstep.
  destruct (map_each _ jobs) as [jobs'|] eqn:Hjobs; [|done].
  cbn [mbind res_bind] in Hstep. injection Hstep as <-.
  apply Forall_app. split; [done|].
  by destruct (setitem_each_found keyword jobs jobs' Hjobs).
Qed.

(** X23. Every listing [extract_jobs_from_results] returns for a
    non-empty keyword is a dict that carries this keyword as its
    [search_keyword], whatever keyword the response gave it. *)
Theorem extract_jobs_stamps_keyword (search_results : list Job)
    (keyword : string) (all_jobs : list value) :
  keyword <> "" ->
  JobSearcher.extract_jobs_from_results search_results keyword = Ok all_jobs ->
  Forall (found_under keyword) all_jobs.
Proof.
  intros Hk H. by apply (extract_jobs_found keyword search_results [] all_jobs).
Qed.

Lemma extract_jobs_stamps_keyword_witness :
  let result :=
    JobSearcher.page_result "2024-05-01" "u" "python" "ok"
      (VDict [("data",
               VDict [("list",
                       VList [VDict [("jobNo", VStr "A1");
                                     ("search_keyword", VStr "old")];
                              VDict [("jobNo", VStr "B2")]])])]) in
  let all_jobs :=
    [VDict [("jobNo", VStr "A1"); ("search_keyword", VStr "python")];
     VDict [("jobNo", VStr "B2"); ("search_keyword", VStr "python")]] in
  JobSearcher.extract_jobs_from_results [result] "python" = Ok all_jobs /\
  Forall (found_under "python") all_jobs.
Proof.
  intros result all_jobs.
  assert (H : JobSearcher.extract_jobs_from_results [result] "python"
              = Ok all_jobs) by (vm_compute; reflexivity).
  split; [exact H|].
  exact (extract_jobs_stamps_keyword [result] "python" all_jobs
           ltac:(discriminate) H).
Defined.

(** ** The results of a keyword *)

Lemma substring_prefix (n : nat) (s t : string) :
  substring 0 n s = t -> String.length t = n ->
  exists y, s = (t ++ y)%string.
Proof.
  revert s t. induction n as [|n IH]; intros s t.
  - destruct s; cbn [substring]; intros <- _; by eexists.
  - destruct s as [|c s]; cbn [substring].
    + by intros <-.
    + intros <- [= Hlen]. destruct (IH s _ eq_refl Hlen) as [y Hy].
      exists y. by rewrite append_cons, <- Hy.
Qed.

Lemma substring_inside (m n : nat) (s t : string) :
  substring m n s = t -> String.length t = n ->
  exists x y, s = (x ++ t ++ y)%string.
Proof.
  revert s. induction m as [|m IH]; intros s H Hlen.
  - destruct (substring_prefix n s t H Hlen) as [y ->]. by exists "", y.
  - destruct s as [|c s].
    + cbn [substring] in H. subst t. by exists "", "".
    + cbn [substring] in H. destruct (IH s H Hlen) as (x & y & ->).
      by exists (String c x), y.
Qed.

Lemma index_inside (t s : string) (m : nat) :
  String.index 0 t s = Some m -> exists x y, s = (x ++ t ++ y)%string.
Proof.
  intros H. apply String.index_correct1 in H.
  by apply (substring_inside m (String.length t)).
Qed.

Lemma mark_free_app (a b : string) :
  mark_free (a ++ b) = mark_free a && mark_free b.
Proof.
  induction a as [|c a IH]; [done|]. rewrite append_cons.
  cbn [mark_free]. by rewrite IH, andb_assoc.
Qed.

Lemma mark_free_quote_step (c : ascii) (s : string) :
  mark_free (JobSearcher.quote (fun _ => false) (String c s)) =
  mark_free (JobSearcher.quote (fun _ => false) s).
Proof. destruct c as [[] [] [] [] [] [] [] []]; reflexivity. Qed.

Lemma mark_free_blank_step (c : ascii) (s : string) :
  mark_free (JobSearcher.plus_for_blank
               (JobSearcher.quote JobSearcher.blank (String c s))) =
  mark_free (JobSearcher.plus_for_blank
               (JobSearcher.quote JobSearcher.blank s)).
Proof. destruct c as [[] [] [] [] [] [] [] []]; reflexivity. Qed.

Lemma mark_free_quote_plus (s : string) :
  mark_free (JobSearcher.quote_plus s) = true.
Proof.
  unfold JobSearcher.quote_plus. destruct (JobSearcher.has_blank s).
  - induction s as [|c s IH]; [done|]. by rewrite mark_free_blank_step.
  - induction s as [|c s IH]; [done|]. by rewrite mark_free_quote_step.
Qed.

Lemma mark_split (q1 q2 r1 r2 : string) :
  mark_free q1 = true -> mark_free q2 = true ->
  (q1 ++ String "?" r1)%string = (q2 ++ String "?" r2)%string ->
  q1 = q2 /\ r1 = r2.
Proof.
  revert q2. induction q1 as [|c q1 IH]; intros [|c' q2] H1 H2 H.
  - by injection H.
  - rewrite append_cons in H. injection H as <- _. done.
  - rewrite append_cons in H. injection H as -> _. done.
  - rewrite !append_cons in H. injection H as -> H.
    cbn [mark_free] in H1, H2.
    apply andb_true_iff in H1 as [_ H1]. apply andb_true_iff in H2 as [_ H2].
    destruct (IH q2 H1 H2 H) as [-> ->]. done.
Qed.

Lemma mark_first (s : string) :
  mark_free s = false ->
  exists x1 x2, s = (x1 ++ String "?" x2)%string /\ mark_free x1 = true.
Proof.
  induction s as [|c s IH]; [done|]. cbn [mark_free].
  destruct (Ascii.eqb_spec c "?") as [->|Hc]; cbn [negb andb].
  - intros _. by exists "", s.
  - intros H. destruct (IH H) as (x1 & x2 & -> & Hx1).
    exists (String c x1), x2. split; [done|]. cbn [mark_free].
    rewrite Hx1. by destruct (Ascii.eqb_spec c "?").
Qed.

Lemma build_url_head (k : string) (p : Z) (a i j e d : string) :
  exists rest,
    JobSearcher.build_url k p a i j e d =
    (JobSearcher.SEARCH_API_URL ++
     String "?" ("keyword=" ++ JobSearcher.quote_plus k ++ String "&" rest))%string
    /\ mark_free rest = true.
Proof.
  eexists. split; [apply build_url_shape|].
  repeat (rewrite mark_free_app || rewrite mark_free_quote_plus
          || (cbn [mark_free Ascii.eqb Bool.eqb negb andb])).
  reflexivity.
Qed.

Lemma build_url_inside (k : string) (p : Z) (a i j e d : string)
    (k' : string) (p' : Z) (a' i' j' e' d' x y : string) :
  JobSearcher.build_url k p a i j e d =
  (x ++ JobSearcher.build_url k' p' a' i' j' e' d' ++ y)%string ->
  k = k'.
Proof.
  destruct (build_url_head k p a i j e d) as (rest & -> & Hrest).
  destruct (build_url_head k' p' a' i' j' e' d') as (rest' & -> & Hrest').
  assert (Hpre : mark_free JobSearcher.SEARCH_API_URL = true) by reflexivity.
  assert (Hbody : forall k0 r, mark_free r = true ->
            mark_free ("keyword=" ++ JobSearcher.quote_plus k0 ++ String "&" r)
            = true).
  { intros k0 r Hr. rewrite !mark_free_app, mark_free_quote_plus.
    cbn [mark_free]. by rewrite Hr. }
  rewrite (string_app_assoc JobSearcher.SEARCH_API_URL).
  rewrite <- (string_app_assoc x). intros H.
  destruct (mark_free x) eqn:Hx.
  - apply (mark_split _ (x ++ JobSearcher.SEARCH_API_URL) _
             (("keyword=" ++ JobSearcher.quote_plus k' ++ String "&" rest')
              ++ y)) in H as [_ H];
      [|done|by rewrite mark_free_app, Hx, Hpre].
    rewrite !string_app_assoc in H.
    apply string_app_inv_head in H.
    apply (amp_split _ _ rest (rest' ++ y)) in H as [H _];
      [|apply amp_free_quote_plus..].
    by apply quote_plus_inj.
  - exfalso. destruct (mark_first x Hx) as (x1 & x2 & -> & Hx1).
    rewrite !string_app_assoc in H.
    apply (mark_split _ x1 _ _ Hpre Hx1) in H as [_ H].
    apply (f_equal mark_free) in H. rewrite Hbody in H by done.
    rewrite !mark_free_app in H.
    cbn [mark_free Ascii.eqb Bool.eqb negb andb] in H.
    rewrite ?andb_false_r in H. done.
Qed.

Lemma any_url_in_result (keyword keyword0 : string) (urls : list string)
    (url0 : string) :
  (exists page area industry job_category experience education,
      url0 = JobSearcher.build_url keyword0 page area industry job_category
               experience education) ->
  Forall (url_of_keyword keyword) urls ->
  keyword0 <> keyword ->
  CrawlerOrchestrator.any_url_in urls (VStr url0) = Ok false.
Proof.
  intros (p & a & i & j & e & d & ->) Hurls Hne.
  induction Hurls as [|url urls (p' & a' & i' & j' & e' & d' & ->) _ IH];
    [done|].
  cbn [CrawlerOrchestrator.any_url_in py_in mbind res_bind].
  rewrite bool_decide_eq_false_2; [done|].
  intros [m Hm]. apply index_inside in Hm as (x & y & Hm).
  by apply build_url_inside in Hm.
Qed.

Lemma belongs_to_fetched (keyword : string) (urls : list string)
    (result : Job) :
  fetched_result result -> Forall (url_of_keyword keyword) urls ->
  CrawlerOrchestrator.belongs_to keyword urls result =
  Ok (py_eq (default VNone (result !! "keyword")) (VStr keyword)).
Proof.
  intros (k0 & p & a & i & j & e & d & Hk & Hu) Hurls.
  unfold CrawlerOrchestrator.belongs_to. rewrite Hk, Hu.
  cbn [default from_option id py_eq].
  destruct (String.eqb_spec k0 keyword) as [->|Hne]; [done|].
  apply (any_url_in_result keyword k0); [by repeat eexists|done..].
Qed.

(** X24. Step 3 of [crawl] hands each keyword the results fetched for it
    and no other: when every result carries its keyword and, as [url], a
    URL that [build_url] made for that keyword, and the URLs of the keyword
    were made by [build_url] for it, the comprehension selects exactly the
    results whose [keyword] is the keyword, in their order; the search of
    the URLs inside the result's URL never adds one. *)
Theorem crawl_selects_results_of_keyword (search_results : list Job)
    (keyword : string) (urls : list string) :
  Forall fetched_result search_results ->
  Forall (url_of_keyword keyword) urls ->
  CrawlerOrchestrator.keyword_results search_results keyword urls =
  Ok (results_of keyword search_results).
Proof.
  intros Hres Hurls.
  induction Hres as [|result search_results Hr _ IH]; [done|].
  cbn [CrawlerOrchestrator.keyword_results].
  rewrite (belongs_to_fetched keyword urls result Hr Hurls), IH.
  cbn [mbind res_bind]. unfold results_of.
  destruct (py_eq _ _) eqn:Heq.
  - by rewrite filter_cons_True.
  - rewrite filter_cons_False; [done|]. by rewrite Heq.
Qed.

Lemma crawl_selects_results_of_keyword_witness :
  let python_page :=
    JobSearcher.page_result "2024-05-01"
      (JobSearcher.build_url "python" 2 "6001001000" "" "" "" "") "python" "ok"
      (VDict []) in
  let java_page :=
    JobSearcher.page_result "2024-05-01"
      (JobSearcher.build_url "java" 1 "6001001000" "" "" "" "") "java" "ok"
      (VDict []) in
  let search_results := [python_page; java_page] in
  let urls := JobSearcher.page_urls "python" "6001001000" 2 in
  Forall fetched_result search_results /\
  Forall (url_of_keyword "python") urls /\
  results_of "python" search_results = [python_page] /\
  CrawlerOrchestrator.keyword_results search_results "python" urls =
  Ok (results_of "python" search_results).
Proof.
  intros python_page java_page search_results urls.
  assert (H1 : Forall fetched_result search_results).
  { apply List.Forall_cons.
    { exists "python", 2, "6001001000", "", "", "", "".
      split; by lookup_literal. }
    apply List.Forall_cons; [|apply List.Forall_nil].
    exists "java", 1, "6001001000", "", "", "", "".
    split; by lookup_literal. }
  assert (H2 : Forall (url_of_keyword "python") urls).
  { apply List.Forall_cons.
    { by exists 1, "6001001000", "", "", "", "". }
    apply List.Forall_cons; [|apply List.Forall_nil].
    by exists 2, "6001001000", "", "", "", "". }
  split; [exact H1|]. split; [exact H2|]. split.
  - unfold results_of, search_results.
    rewrite filter_cons_True by (by lookup_literal).
    rewrite filter_cons_False; [done|].
    lookup_literal. cbn [default from_option id py_eq]. done.
  - exact (crawl_selects_results_of_keyword search_results "python" urls H1 H2).
Defined.

(** ** The concurrency gate *)

Import JobSearcher.
#[local] Open Scope nat_scope.

Lemma count_holding_insert (l : list (kind * pc)) (i : nat) (t t' : kind * pc) :
  l !! i = Some t ->
  count_holding (<[i := t']> l) + (if is_holding t then 1 else 0) =
  count_holding l + (if is_holding t' then 1 else 0).
Proof.
  unfold count_holding. revert i.
  induction l as [|x l IH]; intros i Hi; [done|].
  destruct i as [|i]; simpl in Hi.
  - injection Hi as ->. simpl. rewrite !filter_cons.
    destruct (decide (is_holding t' = true)) as [->|Ht'%not_true_is_false],
             (decide (is_holding t = true)) as [->|Ht%not_true_is_false];
      rewrite ?Ht, ?Ht'; simpl; lia.
  - simpl. rewrite !filter_cons. specialize (IH i Hi).
    destruct (decide (is_holding x = true)); simpl; lia.
Qed.

Lemma in_flight_le_holders (s : state) : in_flight s <= holders s.
Proof.
  unfold in_flight, holders. induction (tasks s) as [|t l IH]; [done|].
  rewrite !filter_cons.
  destruct (decide (is_in_flight t = true)) as [Hf|],
           (decide (is_holding t = true)) as [Hh|Hh]; simpl; try lia.
  exfalso. apply Hh. unfold is_in_flight, is_holding in *.
  by destruct t.2 as [| |[]|].
Qed.

(** Every permit that is not in the semaphore is held by a task inside
    [async with]. *)
Lemma step_permits (n : nat) (s s' : state) :
  sem_value s + holders s = n -> step s s' -> sem_value s' + holders s' = n.
Proof.
  intros Hinv Hstep. unfold holders in *. fold (count_holding (tasks s)) in Hinv.
  destruct Hstep as [s i k Hi|s i k v Hi Hv|s i k Hi Hv|s i k v Hi Hv
                    |s i k Hi|s i k Hi|s i k Hi];
    simpl; fold (count_holding (<[i := (k, Finished)]> (tasks s)));
    fold (count_holding (<[i := (k, Holding false)]> (tasks s)));
    fold (count_holding (<[i := (k, Holding true)]> (tasks s)));
    fold (count_holding (<[i := (k, Blocked)]> (tasks s)));
    match goal with
    | |- context [count_holding (<[i := ?t']> _)] =>
        pose proof (count_holding_insert _ _ _ t' Hi) as H
    end; simpl in H; lia.
Qed.

Lemma init_permits (max_concurrency : nat) (batch : list kind) :
  sem_value (init max_concurrency batch) + holders (init max_concurrency batch)
  = max_concurrency.
Proof.
  unfold holders, init. simpl.
  assert (filter (fun t : kind * pc => is_holding t = true)
            (map (fun k => (k, NotStarted)) batch) = []) as ->; [|simpl; lia].
  induction batch as [|k batch IH]; [done|]. simpl. rewrite filter_cons.
  by destruct (decide _).
Qed.

Lemma reachable_permits (max_concurrency : nat) (batch : list kind) (s : state) :
  reachable max_concurrency batch s -> sem_value s + holders s = max_concurrency.
Proof.
  induction 1 as [|s s' _ IH Hstep]; [apply init_permits|].
  by apply (step_permits _ s).
Qed.

(** C10.  In every state that a batch of tasks reaches from the initial
    state of the gate, the number of requests in flight, first-page
    requests and page requests together, is at most the bound of the
    semaphore, whatever the number of tasks. *)
Theorem in_flight_bounded (max_concurrency : nat) (batch : list kind)
    (s : state) :
  reachable max_concurrency batch s -> in_flight s <= max_concurrency.
Proof.
  intros H. pose proof (reachable_permits _ _ _ H).
  pose proof (in_flight_le_holders s). lia.
Qed.

Lemma in_flight_bounded_witness :
  reachable MAX_CONCURRENCY twelve first_sent /\
  in_flight first_sent <= MAX_CONCURRENCY.
Proof.
  assert (H : reachable MAX_CONCURRENCY twelve first_sent).
  { eapply reach_step.
    - eapply reach_step; [apply reach_init|].
      by apply (step_enter (init MAX_CONCURRENCY twelve) 0 FirstPage 9).
    - by apply (step_send first_entered 0 FirstPage). }
  split; [exact H|]. exact (in_flight_bounded MAX_CONCURRENCY twelve first_sent H).
Defined.

Lemma holders_zero_of_finished (s : state) :
  all_finished s -> holders s = 0.
Proof.
  unfold all_finished, holders. induction 1 as [|t l Ht _ IH]; [done|].
  rewrite filter_cons. destruct (decide (is_holding t = true)) as [Hh|]; [|done].
  unfold is_holding in Hh. by rewrite Ht in Hh.
Qed.

(** X12.  The gate conserves its permits: in every state a batch reaches,
    the counter of the semaphore plus the number of tasks inside
    [async with] is the bound.  So when every task has finished the
    counter is back at the bound, and while the counter is zero exactly
    [max_concurrency] tasks are inside. *)
Theorem gate_permits_conserved (max_concurrency : nat) (batch : list kind)
    (s : state) :
  reachable max_concurrency batch s ->
  sem_value s + holders s = max_concurrency /\
  (all_finished s -> sem_value s = max_concurrency) /\
  (sem_value s = 0 -> holders s = max_concurrency).
Proof.
  intros H. pose proof (reachable_permits _ _ _ H) as Hinv.
  split; [exact Hinv|]. split.
  - intros Hfin. rewrite (holders_zero_of_finished s Hfin) in Hinv. lia.
  - intros Hz. lia.
Qed.

Lemma gate_permits_conserved_witness :
  reachable MAX_CONCURRENCY twelve first_entered /\
  sem_value first_entered + holders first_entered = MAX_CONCURRENCY /\
  (all_finished first_entered -> sem_value first_entered = MAX_CONCURRENCY) /\
  (sem_value first_entered = 0 -> holders first_entered = MAX_CONCURRENCY).
Proof.
  assert (H : reachable MAX_CONCURRENCY twelve first_entered).
  { eapply reach_step; [apply reach_init|].
    by apply (step_enter (init MAX_CONCURRENCY twelve) 0 FirstPage 9). }
  split; [exact H|].
  exact (gate_permits_conserved MAX_CONCURRENCY twelve first_entered H).
Defined.
